(** * LocalBrain memory engine: a shallow embedding of [MemoryEngine]

    The definitions below follow [src/content-script.js], class
    [MemoryEngine] (lines 3245-4049).  JavaScript strings are taken as
    sequences of code units below 256 (Rocq's [string]); numbers that
    the code only counts with are [nat] or [Z]; the similarity ratio is
    an exact rational; TF-IDF scores, which go through [Math.log], are
    real numbers extended with the values a JavaScript division or
    coercion can produce besides a finite number. *)

From Stdlib Require Import ZArith QArith Qcanon Reals Lia Lra List Ascii String Bool.
From Stdlib Require Import Numbers.DecimalString Numbers.DecimalZ Sorting.Sorted.
From stdpp Require Import gmap strings list.

Local Open Scope string_scope.
Local Open Scope list_scope.

(** ** The string primitives the engine relies on *)

Module JsString.

Definition code (c : ascii) : nat := nat_of_ascii c.

Definition between (lo hi n : nat) : bool := (lo <=? n)%nat && (n <=? hi)%nat.

(** The regular-expression class [\s] (and the characters [trim]
    strips) among the code units below 256. *)
Definition isWhiteSpace (c : ascii) : bool :=
  let n := code c in
  between 9 13 n || (n =? 32)%nat || (n =? 160)%nat.

(** The class [\w]: [A-Za-z0-9_]. *)
Definition isWordChar (c : ascii) : bool :=
  let n := code c in
  between 65 90 n || between 97 122 n || between 48 57 n || (n =? 95)%nat.

(** [String.prototype.toLowerCase], one code unit at a time. *)
Definition toLowerChar (c : ascii) : ascii :=
  let n := code c in
  if between 65 90 n || between 192 214 n || between 216 222 n
  then ascii_of_nat (n + 32) else c.

Fixpoint toLowerCase (s : string) : string :=
  match s with
  | EmptyString => EmptyString
  | String c r => String (toLowerChar c) (toLowerCase r)
  end.

Fixpoint trimStart (s : string) : string :=
  match s with
  | EmptyString => EmptyString
  | String c r => if isWhiteSpace c then trimStart r else s
  end.

Fixpoint trimEnd (s : string) : string :=
  match s with
  | EmptyString => EmptyString
  | String c r =>
      match trimEnd r with
      | EmptyString => if isWhiteSpace c then EmptyString else String c EmptyString
      | r' => String c r'
      end
  end.

Definition trim (s : string) : string := trimEnd (trimStart s).

(** [s.includes(pat)]. *)
Fixpoint includes (pat s : string) : bool :=
  String.prefix pat s ||
  match s with
  | EmptyString => false
  | String _ r => includes pat r
  end.

(** [s.substring(0, n)]. *)
Definition substring0 (n : nat) (s : string) : string := String.substring 0 n s.

(** [s.split(re)] for a regular expression [re] of the form [[...]+]:
    the string is cut at every maximal run of delimiters.  [inRun]
    tells that the previous character was a delimiter.  The result is
    never empty: the empty string splits into the one-element list
    holding the empty string. *)
Fixpoint splitRuns (d : ascii -> bool) (inRun : bool) (s : string) : list string :=
  match s with
  | EmptyString => [EmptyString]
  | String c r =>
      if d c then
        if inRun then splitRuns d true r
        else EmptyString :: splitRuns d true r
      else
        match splitRuns d false r with
        | t :: ts => String c t :: ts
        | [] => [String c EmptyString]
        end
  end.

Definition split (d : ascii -> bool) (s : string) : list string :=
  splitRuns d false s.

(** [arr.join(sep)]. *)
Definition join (sep : string) (l : list string) : string := String.concat sep l.

(** What is left of [s] after the first occurrence of [pat]. *)
Fixpoint afterFirst (pat s : string) : option string :=
  if String.prefix pat s
  then Some (String.substring (String.length pat) (String.length s) s)
  else match s with
       | EmptyString => None
       | String _ r => afterFirst pat r
       end.

End JsString.

Import JsString.

(** ** Fallback analyzers (lines 3734-3794) *)

(** The test [/```[\s\S]*```/]: a fence, anything, a fence. *)
Definition hasCodeFence (content : string) : bool :=
  match afterFirst "```" content with
  | Some rest => includes "```" rest
  | None => false
  end.

Definition categorizeContent (content : string) : string :=
  let text := toLowerCase content in
  if includes "code" text || includes "function" text || includes "api" text
     || hasCodeFence content then "code"
  else if includes "error" text || includes "bug" text || includes "fix" text
          || includes "issue" text then "troubleshooting"
  else if includes "how to" text || includes "tutorial" text || includes "guide" text
          || includes "step" text then "how-to"
  else if includes "explain" text || includes "what is" text
          || includes "definition" text then "explanation"
  else if includes "compare" text || includes "difference" text
          || includes "vs" text then "comparison"
  else if includes "best" text || includes "recommend" text
          || includes "suggest" text then "recommendation"
  else if includes "example" text || includes "sample" text
          || includes "instance" text then "example"
  else "general".

(** The class [[.!?]] of sentence delimiters. *)
Definition isSentenceEnd (c : ascii) : bool :=
  let n := code c in (n =? 46)%nat || (n =? 33)%nat || (n =? 63)%nat.

Definition summarySentences (content : string) : list string :=
  List.filter (fun s => (10 <? String.length (trim s))%nat) (split isSentenceEnd content).

Definition generateSummary (content : string) : string :=
  let sentences := summarySentences content in
  match sentences with
  | [] => substring0 100 content
  | _ =>
      let summary := join ". " (firstn 3 sentences) in
      if (150 <? String.length summary)%nat
      then substring0 150 summary +:+ "..."
      else summary
  end.

(** ** JavaScript numbers

    A number is a finite value of [F] or one of the three values that
    are not finite.  [F] is [Q] where the code divides two counts and
    [R] where it takes logarithms.  Rounding and overflow of doubles
    are not modelled. *)

Inductive Number (F : Type) : Type :=
| Fin (x : F)
| PosInf
| NegInf
| NaN.

Arguments Fin {F} x.
Arguments PosInf {F}.
Arguments NegInf {F}.
Arguments NaN {F}.

(** [a / b] for two collection sizes. *)
Definition divSizes (a b : nat) : Number Q :=
  match b, a with
  | O, O => NaN
  | O, S _ => PosInf
  | S _, _ => Fin (Z.of_nat a # Pos.of_nat b)
  end.

(** [x > t] for a finite threshold [t].  The engine compares a ratio of
    two sizes with 0.85; the double nearest to such a ratio lies on the
    same side of the double 0.85 as the ratio lies of 85/100, the sizes
    being far below 2^53 / 20. *)
Definition gtQ (x : Number Q) (t : Q) : bool :=
  match x with
  | Fin q => negb (Qle_bool q t)
  | PosInf => true
  | NegInf => false
  | NaN => false
  end.

(** ** Duplicate detection (lines 3348-3362) *)

(** [new Set(text.toLowerCase().split(/\s+/))]. *)
Definition wordSet (text : string) : gset string :=
  list_to_set (split isWhiteSpace (toLowerCase text)).

Definition calculateSimilarity (text1 text2 : string) : Number Q :=
  let words1 := wordSet text1 in
  let words2 := wordSet text2 in
  let intersection : gset string := filter (fun x => x ∈ words2) words1 in
  let union : gset string := list_to_set (elements words1 ++ elements words2) in
  divSizes (size intersection) (size union).

(** ** Tags and query terms (lines 3452-3477, 3773-3794) *)

(** Keeps the first occurrence of every element, as [[...new Set(l)]]. *)
Fixpoint dedupe (l : list string) : list string :=
  match l with
  | [] => []
  | x :: r => x :: List.filter (fun y => negb (String.eqb x y)) (dedupe r)
  end.

Definition flushTag (cur : option string) : list string :=
  match cur with
  | Some (String c w) => [String c w]
  | _ => []
  end.

Definition isHash (c : ascii) : bool := (code c =? 35)%nat.

(** [content.match(/#[\w]+/g)] followed by [substring(1)] on every
    match: [cur] is the word read so far after a [#]. *)
Fixpoint scanTags (cur : option string) (s : string) : list string :=
  match s with
  | EmptyString => flushTag cur
  | String c r =>
      match cur with
      | Some w =>
          if isWordChar c then scanTags (Some (w +:+ String c EmptyString)) r
          else flushTag cur ++ scanTags (if isHash c then Some EmptyString else None) r
      | None => scanTags (if isHash c then Some EmptyString else None) r
      end
  end.

Definition technicalTerms : list string :=
  ["javascript"; "python"; "react"; "node"; "api"; "database"; "server"; "client";
   "html"; "css"; "sql"; "git"; "docker"; "aws"; "cloud"; "security"; "performance"].

Definition extractTags (content : string) : list string :=
  let text := toLowerCase content in
  let hashtags := scanTags None content in
  dedupe (hashtags ++ List.filter (fun term => includes term text) technicalTerms).

Definition stopwords : list string :=
  ["the"; "a"; "an"; "and"; "or"; "but"; "in"; "on"; "at"; "to"; "for"; "of"; "with"; "by";
   "is"; "are"; "was"; "were"; "be"; "been"; "being"; "have"; "has"; "had"; "do"; "does"; "did";
   "will"; "would"; "could"; "should"; "may"; "might"; "must"; "can"; "shall";
   "i"; "you"; "he"; "she"; "it"; "we"; "they"; "me"; "him"; "her"; "us"; "them";
   "my"; "your"; "his"; "her"; "its"; "our"; "their"; "this"; "that"; "these"; "those";
   "what"; "where"; "when"; "why"; "how"; "which"; "who"; "whom"; "whose";
   "if"; "then"; "else"; "so"; "because"; "since"; "while"; "during"; "before"; "after";
   "above"; "below"; "up"; "down"; "out"; "off"; "over"; "under"; "again"; "further";
   "once"; "here"; "there"; "everywhere"; "anywhere"; "somewhere"; "nowhere";
   "all"; "any"; "both"; "each"; "few"; "more"; "most"; "other"; "some"; "such";
   "no"; "nor"; "not"; "only"; "own"; "same"; "than"; "too"; "very"; "just"; "now"].

Definition isStopword (w : string) : bool := existsb (String.eqb w) stopwords.

(** [replace(/[^\w\s]/g, ' ')]. *)
Fixpoint blankPunctuation (s : string) : string :=
  match s with
  | EmptyString => EmptyString
  | String c r =>
      String (if isWordChar c || isWhiteSpace c then c else " "%char) (blankPunctuation r)
  end.

Definition preprocessText (text : string) : list string :=
  match text with
  | EmptyString => []
  | _ =>
      let words :=
        List.filter (fun word => (2 <? String.length word)%nat)
                    (split isWhiteSpace (blankPunctuation (toLowerCase text))) in
      List.filter (fun word => negb (isStopword word)) words
  end.

(** ** Arithmetic on scores *)

Definition zeroR : Number R := Fin 0%R.

Definition negN (x : Number R) : Number R :=
  match x with
  | Fin a => Fin (- a)%R
  | PosInf => NegInf
  | NegInf => PosInf
  | NaN => NaN
  end.

(** The infinity with the sign of [a], for [a] different from zero. *)
Definition infOfSign (a : R) : Number R :=
  if Rlt_dec 0 a then PosInf else NegInf.

Definition addN (x y : Number R) : Number R :=
  match x, y with
  | NaN, _ => NaN
  | Fin a, Fin b => Fin (a + b)%R
  | Fin _, other => other
  | PosInf, NegInf => NaN
  | PosInf, NaN => NaN
  | PosInf, _ => PosInf
  | NegInf, PosInf => NaN
  | NegInf, NaN => NaN
  | NegInf, _ => NegInf
  end.

Definition mulN (x y : Number R) : Number R :=
  match x, y with
  | NaN, _ => NaN
  | _, NaN => NaN
  | Fin a, Fin b => Fin (a * b)%R
  | Fin a, PosInf => if Req_dec_T a 0 then NaN else infOfSign a
  | Fin a, NegInf => if Req_dec_T a 0 then NaN else negN (infOfSign a)
  | PosInf, Fin b => if Req_dec_T b 0 then NaN else infOfSign b
  | NegInf, Fin b => if Req_dec_T b 0 then NaN else negN (infOfSign b)
  | PosInf, PosInf => PosInf
  | PosInf, NegInf => NegInf
  | NegInf, PosInf => NegInf
  | NegInf, NegInf => PosInf
  end.

Definition divN (x y : Number R) : Number R :=
  match x, y with
  | NaN, _ => NaN
  | _, NaN => NaN
  | Fin a, Fin b =>
      if Req_dec_T b 0
      then (if Req_dec_T a 0 then NaN else infOfSign a)
      else Fin (a / b)%R
  | Fin _, _ => Fin 0%R
  | PosInf, Fin b => if Rlt_dec b 0 then NegInf else PosInf
  | NegInf, Fin b => if Rlt_dec b 0 then PosInf else NegInf
  | _, _ => NaN
  end.

(** [Math.log]. *)
Definition logN (x : Number R) : Number R :=
  match x with
  | Fin a =>
      if Rlt_dec a 0 then NaN
      else if Req_dec_T a 0 then NegInf
      else Fin (ln a)
  | PosInf => PosInf
  | _ => NaN
  end.

(** [x > t] for a finite threshold [t]. *)
Definition gtN (x : Number R) (t : R) : bool :=
  match x with
  | Fin a => if Rlt_dec t a then true else false
  | PosInf => true
  | _ => false
  end.

Definition ofNat (n : nat) : Number R := Fin (INR n).

(** ** Term frequencies: a plain object used as a map (lines 3503-3509)

    [frequencies] starts as [{}], an object whose prototype is
    [Object.prototype].  Reading a property that the object does not own
    finds the one of the prototype, if there is one. *)

Inductive PropValue : Type :=
| Count (n : nat)      (* a number *)
| NotNumeric.          (* a function, an object, or a string that is not a numeral *)

Definition objectPrototypeNames : list string :=
  ["constructor"; "__defineGetter__"; "__defineSetter__"; "hasOwnProperty";
   "__lookupGetter__"; "__lookupSetter__"; "isPrototypeOf"; "propertyIsEnumerable";
   "toString"; "valueOf"; "__proto__"; "toLocaleString"].

Definition inherited (name : string) : bool :=
  existsb (String.eqb name) objectPrototypeNames.

(** [obj[name]]: [None] is [undefined]. *)
Definition getProp (obj : gmap string PropValue) (name : string) : option PropValue :=
  match obj !! name with
  | Some v => Some v
  | None => if inherited name then Some NotNumeric else None
  end.

(** [obj[name] = v] for a value [v] that is a number or a string:
    assigning such a value to [__proto__] is ignored. *)
Definition setProp (obj : gmap string PropValue) (name : string) (v : PropValue)
  : gmap string PropValue :=
  if String.eqb name "__proto__" then obj else <[name := v]> obj.

(** [(x || 0) + 1]: a number is incremented; a function or a string is
    concatenated with ["1"]. *)
Definition orZeroPlusOne (x : option PropValue) : PropValue :=
  match x with
  | None => Count 1
  | Some (Count n) => Count (n + 1)
  | Some NotNumeric => NotNumeric
  end.

(** The body of the loop: [frequencies[term] = (frequencies[term] || 0) + 1]. *)
Definition countTerm (frequencies : gmap string PropValue) (term : string)
  : gmap string PropValue :=
  setProp frequencies term (orZeroPlusOne (getProp frequencies term)).

Definition getTermFrequencies (terms : list string) : gmap string PropValue :=
  fold_left countTerm terms ∅.

(** Own properties under names that [Object.prototype] does not have
    are counts. *)
Definition onlyCounts (frequencies : gmap string PropValue) : Prop :=
  forall name v, inherited name = false -> frequencies !! name = Some v ->
                 exists n, v = Count n.

(** [(x || 0)] used as a dividend. *)
Definition orZeroToNumber (x : option PropValue) : Number R :=
  match x with
  | None => zeroR
  | Some (Count n) => ofNat n
  | Some NotNumeric => NaN
  end.

(** ** TF-IDF scoring (lines 3435-3521) *)

Definition includesTerm (terms : list string) (term : string) : bool :=
  existsb (String.eqb term) terms.

Definition calculateIDF (term : string) (documents : list (list string)) : Number R :=
  let documentsWithTerm :=
    length (List.filter (fun docTerms => includesTerm docTerms term) documents) in
  match documentsWithTerm with
  | O => zeroR
  | _ => logN (divN (ofNat (length documents)) (ofNat documentsWithTerm))
  end.

(** The body of the loop over the query terms: [score += tf * idf]. *)
Definition addTerm (docTermCounts : gmap string PropValue) (docLength : nat)
    (allDocuments : list (list string)) (score : Number R) (queryTerm : string)
  : Number R :=
  let tf := divN (orZeroToNumber (getProp docTermCounts queryTerm))
                 (ofNat (Nat.max docLength 1)) in
  let idf := calculateIDF queryTerm allDocuments in
  addN score (mulN tf idf).

(** [allDocuments] is given by the terms of each document, the only
    field of a document that the score reads. *)
Definition calculateDocumentScore
    (queryTerms docTerms : list string) (allDocuments : list (list string)) : Number R :=
  let docTermCounts := getTermFrequencies docTerms in
  let docLength := length docTerms in
  let score := fold_left (addTerm docTermCounts docLength allDocuments) queryTerms zeroR in
  divN score (ofNat (Nat.max (length queryTerms) 1)).

(** ** Memory records

    A record is a JavaScript object.  Every field is either missing
    ([None], which reads as [undefined]) or holds a value of the type
    the engine gives it; records built by [saveMemory] have all fields
    but [lastUpdated], objects that come from an import or from storage
    may lack any of them. *)

(** Values of the [id] field: a number or a string. *)
Inductive JsKey : Type :=
| KNum (q : Qc)
| KStr (s : string).

#[global] Instance JsKey_eq_dec : EqDecision JsKey.
Proof.
  intros [q1|s1] [q2|s2]; try (right; discriminate).
  - destruct (Qc_eq_dec q1 q2) as [E|N]; [left; congruence | right; congruence].
  - destruct (string_dec s1 s2) as [E|N]; [left; congruence | right; congruence].
Defined.

Module Memory.
Record t : Type := mk {
  id : option JsKey;
  content : option string;
  timestamp : option Z;
  source : option string;
  url : option string;
  conversationId : option string;
  category : option string;
  summary : option string;
  tags : option (list string);
  lastUpdated : option Z;
  (* the keys the callers of saveMemory pass as metadata *)
  type : option string;
  platform : option string;
  conversation_url : option string
}.
End Memory.

(** The [metadata] argument of [saveMemory]; the callers in this
    repository pass the keys [type], [platform] and [conversation_url]. *)
Record Metadata : Type := {
  md_type : option string;
  md_platform : option string;
  md_conversation_url : option string
}.

Definition noMetadata : Metadata :=
  {| md_type := None; md_platform := None; md_conversation_url := None |}.

(** A document of [calculateTFIDFScores]: a copy of the record with its
    terms and its score. *)
Record ScoredDoc : Type := {
  doc : Memory.t;
  terms : list string;
  score : Number R
}.

(** What [getRelevantMemories] returns: the records themselves on the
    short-query path, scored copies otherwise. *)
Inductive SearchResult : Type :=
| Plain (m : Memory.t)
| Scored (d : ScoredDoc).

Record CacheEntry : Type := {
  results : list SearchResult;
  cachedAt : Z        (* the field [timestamp] of a cache entry *)
}.

(** ** Errors and results *)

Inductive Error : Type :=
| TypeError (message : string)
| SyntaxError (message : string)
| PlainError (message : string).

Definition errorMessage (e : Error) : string :=
  match e with
  | TypeError m => m
  | SyntaxError m => m
  | PlainError m => m
  end.

Inductive Result (A : Type) : Type :=
| Ok (a : A)
| Throw (e : Error).

Arguments Ok {A} a.
Arguments Throw {A} e.

(** ** The engine and what surrounds it *)

(** The engine, by the values its array holds: records, but for the
    array that an import has put in place (see [importMemories]). *)
Record EngineOf (A : Type) : Type := {
  memories : list A;
  initialized : bool;
  maxMemories : nat;
  pageSize : Z;
  currentPage : Z;
  searchCache : gmap string CacheEntry;
  cacheTimeout : Z;
  (* the value kept under the key LocalBrain_data by chrome.storage.local *)
  LocalBrain_data : option (list A)
}.

Arguments Build_EngineOf {A}.
Arguments memories {A} _.
Arguments initialized {A} _.
Arguments maxMemories {A} _.
Arguments pageSize {A} _.
Arguments currentPage {A} _.
Arguments searchCache {A} _.
Arguments cacheTimeout {A} _.
Arguments LocalBrain_data {A} _.

Abbreviation Engine := (EngineOf Memory.t).

(** The three results of the backend for one content; [None] for the
    triple when one of the three calls is rejected. *)
Definition Analysis : Type :=
  (option string * option string * option (list string))%type.

(** What a call reads from outside the engine.  All readings of
    [Date.now()] during one call are the same instant [now].
    [arraySort] is [Array.prototype.sort] of the host for a comparison
    that is not consistent: the order it leaves is then
    implementation-defined, and nothing is assumed about it. *)
Record Env : Type := {
  now : Z;                      (* Date.now(), milliseconds *)
  random : Q;                   (* Math.random() *)
  hostname : string;            (* window.location.hostname *)
  href : string;                (* window.location.href *)
  backendIntegration : option (string -> option Analysis);
  storageReadOk : bool;         (* chrome.storage.local.get resolves *)
  storageWriteOk : bool;        (* chrome.storage.local.set resolves *)
  arraySort : (Memory.t -> Memory.t -> Number Z) -> list Memory.t -> list Memory.t
}.

(** The state after [new MemoryEngine()], next to a storage area. *)
Definition newEngine (stored : option (list Memory.t)) : Engine :=
  {| memories := [];
     initialized := false;
     maxMemories := 1000;
     pageSize := 50;
     currentPage := 0;
     searchCache := ∅;
     cacheTimeout := 5 * 60 * 1000;
     LocalBrain_data := stored |}.

Definition setMemories {A : Type} (e : EngineOf A) (ms : list A) : EngineOf A :=
  {| memories := ms;
     initialized := initialized e;
     maxMemories := maxMemories e;
     pageSize := pageSize e;
     currentPage := currentPage e;
     searchCache := searchCache e;
     cacheTimeout := cacheTimeout e;
     LocalBrain_data := LocalBrain_data e |}.

Definition setInitialized (e : Engine) : Engine :=
  {| memories := memories e;
     initialized := true;
     maxMemories := maxMemories e;
     pageSize := pageSize e;
     currentPage := currentPage e;
     searchCache := searchCache e;
     cacheTimeout := cacheTimeout e;
     LocalBrain_data := LocalBrain_data e |}.

Definition setSearchCache {A : Type} (e : EngineOf A) (c : gmap string CacheEntry)
  : EngineOf A :=
  {| memories := memories e;
     initialized := initialized e;
     maxMemories := maxMemories e;
     pageSize := pageSize e;
     currentPage := currentPage e;
     searchCache := c;
     cacheTimeout := cacheTimeout e;
     LocalBrain_data := LocalBrain_data e |}.

(** [this.searchCache.clear()]. *)
Definition clearSearchCache {A : Type} (e : EngineOf A) : EngineOf A := setSearchCache e ∅.

(** [persist] (lines 3585-3591): a failing write is caught and logged. *)
Definition persist {A : Type} (env : Env) (e : EngineOf A) : EngineOf A :=
  if storageWriteOk env then
    {| memories := memories e;
       initialized := initialized e;
       maxMemories := maxMemories e;
       pageSize := pageSize e;
       currentPage := currentPage e;
       searchCache := searchCache e;
       cacheTimeout := cacheTimeout e;
       LocalBrain_data := Some (memories e) |}
  else e.

(** [now - ts < bound], false when [ts] is [undefined]. *)
Definition elapsedBelow (now : Z) (ts : option Z) (bound : Z) : bool :=
  match ts with
  | Some t => (now - t <? bound)%Z
  | None => false
  end.

(** [cleanupOldMemories] (lines 3978-3992). *)
Definition cleanupOldMemories (env : Env) (e : Engine) : Engine :=
  let maxAge := (90 * 24 * 60 * 60 * 1000)%Z in
  let originalCount := length (memories e) in
  let e1 := setMemories e (List.filter (fun memory =>
                 elapsedBelow (now env) (Memory.timestamp memory) maxAge) (memories e)) in
  let removedCount := (originalCount - length (memories e1))%nat in
  if (0 <? removedCount)%nat then persist env e1 else e1.

(** [init] (lines 3256-3272). *)
Definition init (env : Env) (e : Engine) : Engine :=
  if initialized e then e
  else if storageReadOk env then
    let loaded := match LocalBrain_data e with Some ms => ms | None => [] end in
    cleanupOldMemories env (setInitialized (setMemories e loaded))
  else setInitialized (setMemories e []).

(** ** Arrays *)

(** [arr.slice(start, end)] for integer bounds: a negative bound counts
    from the end of the array. *)
Definition slice {A : Type} (l : list A) (start end_ : Z) : list A :=
  let len := Z.of_nat (length l) in
  let k := if (start <? 0)%Z then Z.max (len + start) 0 else Z.min start len in
  let final := if (end_ <? 0)%Z then Z.max (len + end_) 0 else Z.min end_ len in
  firstn (Z.to_nat (final - k)) (skipn (Z.to_nat k) l).

(** [arr.filter(test)] for a test that may throw. *)
Fixpoint filterResult {A : Type} (test : A -> Result bool) (l : list A) : Result (list A) :=
  match l with
  | [] => Ok []
  | x :: r =>
      match test x with
      | Throw err => Throw err
      | Ok keep =>
          match filterResult test r with
          | Throw err => Throw err
          | Ok kept => Ok (if keep then x :: kept else kept)
          end
      end
  end.

(** [arr.findIndex(p)]: [None] stands for [-1]. *)
Fixpoint findIndex {A : Type} (p : A -> bool) (l : list A) : option nat :=
  match l with
  | [] => None
  | x :: r => if p x then Some O else option_map S (findIndex p r)
  end.

(** [arr.find(p)], with the position of the element found: the engine
    assigns to the fields of that element of the array. *)
Fixpoint findWithIndex {A : Type} (p : A -> bool) (l : list A) : option (nat * A) :=
  match l with
  | [] => None
  | x :: r =>
      if p x then Some (O, x)
      else option_map (fun '(i, y) => (S i, y)) (findWithIndex p r)
  end.

(** [arr.splice(index, 1)]. *)
Fixpoint removeAt {A : Type} (index : nat) (l : list A) {struct l} : list A :=
  match l, index with
  | [], _ => []
  | _ :: r, O => r
  | x :: r, S i => x :: removeAt i r
  end.

(** [arr.sort(compare)]: a stable sort; an element moves in front of an
    earlier one only where [compare earlier later] is positive. *)
Fixpoint insertSorted {A : Type} (compare : A -> A -> Number R) (x : A) (l : list A) : list A :=
  match l with
  | [] => [x]
  | y :: r => if gtN (compare x y) 0 then y :: insertSorted compare x r else x :: l
  end.

Definition sort {A : Type} (compare : A -> A -> Number R) (l : list A) : list A :=
  fold_right (insertSorted compare) [] l.

Definition string_of_Z (z : Z) : string := NilEmpty.string_of_int (Z.to_int z).

Definition newline : string := String (ascii_of_nat 10) EmptyString.

(** A string field put in a string concatenation. *)
Definition toStr (x : option string) : string :=
  match x with
  | Some s => s
  | None => "undefined"
  end.

(** ** Conversations and duplicates (lines 3348-3353, 3678-3697) *)

Definition getCurrentConversationId (env : Env) : string :=
  let url := href env in
  let timestamp := (now env / (1000 * 60 * 30))%Z in
  url +:+ "_" +:+ string_of_Z timestamp.

(** [some] stops at the first record for which the test holds; the
    similarity of a content that is [undefined] throws. *)
Fixpoint isDuplicate (memories : list Memory.t) (newMemory : Memory.t) : Result bool :=
  match memories with
  | [] => Ok false
  | memory :: rest =>
      if bool_decide (Memory.content memory = Memory.content newMemory) then Ok true
      else
        match Memory.content memory, Memory.content newMemory with
        | Some text1, Some text2 =>
            if gtQ (calculateSimilarity text1 text2) (85 # 100) then Ok true
            else isDuplicate rest newMemory
        | _, _ => Throw (TypeError "Cannot read properties of undefined (reading 'toLowerCase')")
        end
  end.

(** The record that [find] returns, with its position in [this.memories]. *)
Definition findActiveConversation (env : Env) (memories : list Memory.t)
    (newMemory : Memory.t) : option (nat * Memory.t) :=
  let currentTime := now env in
  let timeWindow := (30 * 60 * 1000)%Z in
  findWithIndex (fun memory =>
               let sameConversation :=
                 bool_decide (Memory.conversationId memory = Memory.conversationId newMemory) in
               let isRecent := elapsedBelow currentTime (Memory.timestamp memory) timeWindow in
               sameConversation && isRecent) memories.

(** The assignments of lines 3320-3325 to the record found. *)
Definition appendToConversation (env : Env) (existingConversation newMemory : Memory.t)
  : Memory.t :=
  let merged := toStr (Memory.content existingConversation) +:+ newline +:+ newline
                +:+ toStr (Memory.content newMemory) in
  {| Memory.id := Memory.id existingConversation;
     Memory.content := Some merged;
     Memory.timestamp := Some (now env);
     Memory.source := Memory.source existingConversation;
     Memory.url := Memory.url existingConversation;
     Memory.conversationId := Memory.conversationId existingConversation;
     Memory.category := Some (categorizeContent merged);
     Memory.summary := Some (generateSummary merged);
     Memory.tags := Some (extractTags merged);
     Memory.lastUpdated := Some (now env);
     Memory.type := Memory.type existingConversation;
     Memory.platform := Memory.platform existingConversation;
     Memory.conversation_url := Memory.conversation_url existingConversation |}.

(** ** saveMemory (lines 3274-3345) *)

Definition analyze (env : Env) (content : string) : Analysis :=
  let fallback := (Some (categorizeContent content), Some (generateSummary content),
                   Some (extractTags content)) in
  match backendIntegration env with
  | Some backend =>
      match backend content with
      | Some a => a
      | None => fallback
      end
  | None => fallback
  end.

Definition buildMemory (env : Env) (content : string) (metadata : Metadata) : Memory.t :=
  let '(category, summary, tags) := analyze env content in
  {| Memory.id := Some (KNum (Q2Qc (inject_Z (now env) + random env)));
     Memory.content := Some (trim content);
     Memory.timestamp := Some (now env);
     Memory.source := Some (hostname env);
     Memory.url := Some (href env);
     Memory.conversationId := Some (getCurrentConversationId env);
     Memory.category := category;
     Memory.summary := summary;
     Memory.tags := tags;
     Memory.lastUpdated := None;
     Memory.type := md_type metadata;
     Memory.platform := md_platform metadata;
     Memory.conversation_url := md_conversation_url metadata |}.

Definition saveMemory (env : Env) (content : string) (metadata : Metadata) (e0 : Engine)
  : Result (option Memory.t) * Engine :=
  let e := init env e0 in
  let memory := buildMemory env content metadata in
  match isDuplicate (memories e) memory with
  | Throw err => (Throw err, e)
  | Ok true => (Ok None, e)
  | Ok false =>
      match findActiveConversation env (memories e) memory with
      | Some (i, existingConversation) =>
          let updated := appendToConversation env existingConversation memory in
          (Ok (Some updated), persist env (setMemories e (<[i := updated]> (memories e))))
      | None =>
          let e1 := setMemories e (memory :: memories e) in
          let e2 := if (maxMemories e1 <? length (memories e1))%nat
                    then setMemories e1 (slice (memories e1) 0 (Z.of_nat (maxMemories e1)))
                    else e1 in
          (Ok (Some memory), persist env (clearSearchCache e2))
      end
  end.

(** ** Search (lines 3365-3396, 3435-3449) *)

(** The text of a record that is tokenized: content, summary and tags. *)
Definition documentText (memory : Memory.t) : string :=
  toStr (Memory.content memory) +:+ " "
  +:+ (match Memory.summary memory with Some s => s | None => EmptyString end) +:+ " "
  +:+ join " " (match Memory.tags memory with Some ts => ts | None => [] end).

Definition calculateTFIDFScores (query : string) (memories : list Memory.t) : list ScoredDoc :=
  match memories with
  | [] => []
  | _ =>
      let queryTerms := preprocessText query in
      let documents :=
        map (fun memory => (memory, preprocessText (documentText memory))) memories in
      map (fun d =>
             {| doc := fst d;
                terms := snd d;
                score := calculateDocumentScore queryTerms (snd d) (map snd documents) |})
          documents
  end.

(** The comparison [(a, b) => b.score - a.score]. *)
Definition byScoreDescending (a b : ScoredDoc) : Number R :=
  addN (score b) (negN (score a)).

Definition cacheKey (query : string) (limit page : Z) : string :=
  query +:+ "_" +:+ string_of_Z limit +:+ "_" +:+ string_of_Z page.

(** The [results] of lines 3382-3387: scored, filtered, sorted, sliced. *)
Definition rankedResults (query : string) (limit page : Z) (memories : list Memory.t)
  : list SearchResult :=
  let scored := calculateTFIDFScores query memories in
  map Scored
      (slice (sort byScoreDescending
                   (List.filter (fun memory => gtN (score memory) (5 / 100)) scored))
             (page * limit) ((page + 1) * limit)).

(** Lines 3389-3395: the results are put in the cache and returned. *)
Definition searchAndCache (env : Env) (query : string) (limit page : Z) (e : Engine)
  : list SearchResult * Engine :=
  let results := rankedResults query limit page (memories e) in
  (results,
   setSearchCache e (<[cacheKey query limit page :=
                         {| results := results; cachedAt := now env |}]> (searchCache e))).

Definition getRelevantMemories (env : Env) (query : string) (limit page : Z) (e0 : Engine)
  : list SearchResult * Engine :=
  let e := init env e0 in
  if String.eqb query EmptyString || (String.length (trim query) <? 3)%nat then
    let start := (page * pageSize e)%Z in
    let end_ := (start + limit)%Z in
    (map Plain (slice (memories e) start end_), e)
  else
    match searchCache e !! cacheKey query limit page with
    | Some cached =>
        if (now env - cachedAt cached <? cacheTimeout e)%Z then (results cached, e)
        else searchAndCache env query limit page e
    | None => searchAndCache env query limit page e
    end.

(** ** Deleting (lines 3579-3583, 3995-4004) *)

Definition deleteMemory (env : Env) (id : option JsKey) (e : Engine) : Engine :=
  let e1 := setMemories e (List.filter (fun m => negb (bool_decide (Memory.id m = id)))
                                       (memories e)) in
  persist env (clearSearchCache e1).

Definition deleteMemoryById (env : Env) (id : option JsKey) (e : Engine) : bool * Engine :=
  match findIndex (fun m => bool_decide (Memory.id m = id)) (memories e) with
  | Some index =>
      (true, persist env (clearSearchCache (setMemories e (removeAt index (memories e)))))
  | None => (false, e)
  end.

(** ** Importing (lines 3902-3932) *)

(** A value that a decoded array may hold. *)
Inductive Element : Type :=
| Null                     (* null *)
| Obj (m : Memory.t)       (* an object *)
| Other (json : string).   (* a number, a string, a boolean or an array, by its JSON text *)

(** The outcome of [JSON.parse(jsonData)], by the values an array holds. *)
Inductive Decoded (A : Type) : Type :=
| ParseFailure (message : string)        (* JSON.parse throws *)
| DecodedNonArray                        (* a value that is not an array *)
| DecodedArray (elements : list A).      (* an array *)

Arguments ParseFailure {A} message.
Arguments DecodedNonArray {A}.
Arguments DecodedArray {A} elements.

Record ImportReport : Type := {
  imported : nat;
  total : nat
}.

Definition importFailure (message : string) : Error :=
  PlainError ("Failed to import memories: " +:+ message).

(** [m.id] for a value of an array: reading it of [null] throws; a
    number, a string, a boolean and an array have no such property. *)
Definition idOf (x : Element) : option JsKey :=
  match x with
  | Obj m => Memory.id m
  | _ => None
  end.

Definition readIdOf (x : Element) : Result (option JsKey) :=
  match x with
  | Null => Throw (TypeError "Cannot read properties of null (reading 'id')")
  | other => Ok (idOf other)
  end.

(** The engine, its records taken as values. *)
Definition asValues (e : Engine) : EngineOf Element :=
  {| memories := map Obj (memories e);
     initialized := initialized e;
     maxMemories := maxMemories e;
     pageSize := pageSize e;
     currentPage := currentPage e;
     searchCache := searchCache e;
     cacheTimeout := cacheTimeout e;
     LocalBrain_data := option_map (map Obj) (LocalBrain_data e) |}.

(** What [importMemories] does with the values of the array: it reads
    their [id], and puts them next to, or in place of, the records of
    the engine.  An array of objects leaves an engine of records; an
    array of any values leaves an engine that holds values. *)
Class Importable (A : Type) : Type := {
  readId : A -> Result (option JsKey);
  held : Engine -> EngineOf A
}.

#[global] Instance objects : Importable Memory.t :=
  {| readId := fun m => Ok (Memory.id m); held := fun e => e |}.

#[global] Instance values : Importable Element :=
  {| readId := readIdOf; held := asValues |}.

(** Lines 3910-3918; an error thrown while the new elements are
    filtered is caught with the others and thrown again. *)
Definition importMemories {A : Type} `{Importable A}
    (env : Env) (jsonData : Decoded A) (merge : bool) (e : Engine)
  : Result ImportReport * EngineOf A :=
  match jsonData with
  | ParseFailure message => (Throw (importFailure message), held e)
  | DecodedNonArray =>
      (Throw (importFailure "Invalid import format: expected array of memories"), held e)
  | DecodedArray importedMemories =>
      let stored :=
        if merge then
          let existingIds := map Memory.id (memories e) in
          match filterResult
                  (fun m => match readId m with
                            | Ok id => Ok (negb (bool_decide (id ∈ existingIds)))
                            | Throw err => Throw err
                            end)
                  importedMemories with
          | Ok newMemories => Ok (newMemories ++ memories (held e))
          | Throw err => Throw err
          end
        else Ok importedMemories in
      match stored with
      | Throw err => (Throw (importFailure (errorMessage err)), held e)
      | Ok ms =>
          let e2 := persist env (clearSearchCache (setMemories (held e) ms)) in
          (Ok {| imported := length importedMemories; total := length (memories e2) |}, e2)
      end
  end.

(** ** Sequences of operations *)

Inductive Operation : Type :=
| OpSave (content : string) (metadata : Metadata)
| OpDelete (id : option JsKey)
| OpDeleteById (id : option JsKey)
| OpImport (jsonData : Decoded Memory.t) (merge : bool)
| OpCleanup
| OpSearch (query : string) (limit page : Z).

(** One call of the engine, keeping the state it leaves. *)
Definition perform (env : Env) (op : Operation) (e : Engine) : Engine :=
  match op with
  | OpSave content metadata => snd (saveMemory env content metadata e)
  | OpDelete id => deleteMemory env id e
  | OpDeleteById id => snd (deleteMemoryById env id e)
  | OpImport jsonData merge => snd (importMemories env jsonData merge e)
  | OpCleanup => cleanupOldMemories env e
  | OpSearch query limit page => snd (getRelevantMemories env query limit page e)
  end.

(** ** Bulk deduplication (lines 4020-4048) *)

(** [replace(/\s+/g, ' ')]: every run of whitespace becomes one space;
    [inRun] tells that the previous character was whitespace. *)
Fixpoint collapseWhiteSpace (inRun : bool) (s : string) : string :=
  match s with
  | EmptyString => EmptyString
  | String c r =>
      if isWhiteSpace c then
        if inRun then collapseWhiteSpace true r
        else String " "%char (collapseWhiteSpace true r)
      else String c (collapseWhiteSpace false r)
  end.

(** Reading [toLowerCase] of a content that is [undefined] throws. *)
Definition createMemorySignature (memory : Memory.t) : Result string :=
  match Memory.content memory with
  | Some text =>
      let content := trim (collapseWhiteSpace false (toLowerCase text)) in
      Ok (toStr (Memory.source memory) +:+ ":" +:+ substring0 100 content)
  | None => Throw (TypeError "Cannot read properties of undefined (reading 'toLowerCase')")
  end.

(** The callback of the [filter] of [deduplicateMemories], run over the
    records in order: the records kept and the number of duplicates. *)
Fixpoint keepFirstSeen (seen : gset string) (l : list Memory.t)
  : Result (list Memory.t * nat) :=
  match l with
  | [] => Ok ([], O)
  | memory :: rest =>
      match createMemorySignature memory with
      | Throw err => Throw err
      | Ok signature =>
          if bool_decide (signature ∈ seen) then
            match keepFirstSeen seen rest with
            | Ok (kept, duplicates) => Ok (kept, S duplicates)
            | Throw err => Throw err
            end
          else
            match keepFirstSeen ({[signature]} ∪ seen) rest with
            | Ok (kept, duplicates) => Ok (memory :: kept, duplicates)
            | Throw err => Throw err
            end
      end
  end.

Definition deduplicateMemories (env : Env) (e : Engine) : Result nat * Engine :=
  match keepFirstSeen ∅ (memories e) with
  | Throw err => (Throw err, e)
  | Ok (kept, duplicates) =>
      let e1 := setMemories e kept in
      if (0 <? duplicates)%nat
      then (Ok duplicates, persist env (clearSearchCache e1))
      else (Ok duplicates, e1)
  end.

(** ** Clearing and updating (lines 3573-3577, 4007-4017) *)

Definition clearAllMemories (env : Env) (e : Engine) : Engine :=
  persist env (clearSearchCache (setMemories e [])).

(** The [updates] argument of [updateMemory]: for every field, [None]
    when the object has no such key, and the value otherwise (a value
    that may itself be [undefined]). *)
Record Updates : Type := {
  u_id : option (option JsKey);
  u_content : option (option string);
  u_timestamp : option (option Z);
  u_source : option (option string);
  u_url : option (option string);
  u_conversationId : option (option string);
  u_category : option (option string);
  u_summary : option (option string);
  u_tags : option (option (list string));
  u_lastUpdated : option (option Z);
  u_type : option (option string);
  u_platform : option (option string);
  u_conversation_url : option (option string)
}.

(** The value of a field after [Object.assign]. *)
Definition assigned {A : Type} (update : option A) (old : A) : A :=
  match update with
  | Some v => v
  | None => old
  end.

(** [Object.assign(memory, updates)] followed by
    [memory.lastUpdated = Date.now()]. *)
Definition applyUpdates (env : Env) (memory : Memory.t) (updates : Updates) : Memory.t :=
  {| Memory.id := assigned (u_id updates) (Memory.id memory);
     Memory.content := assigned (u_content updates) (Memory.content memory);
     Memory.timestamp := assigned (u_timestamp updates) (Memory.timestamp memory);
     Memory.source := assigned (u_source updates) (Memory.source memory);
     Memory.url := assigned (u_url updates) (Memory.url memory);
     Memory.conversationId :=
       assigned (u_conversationId updates) (Memory.conversationId memory);
     Memory.category := assigned (u_category updates) (Memory.category memory);
     Memory.summary := assigned (u_summary updates) (Memory.summary memory);
     Memory.tags := assigned (u_tags updates) (Memory.tags memory);
     Memory.lastUpdated := Some (now env);
     Memory.type := assigned (u_type updates) (Memory.type memory);
     Memory.platform := assigned (u_platform updates) (Memory.platform memory);
     Memory.conversation_url :=
       assigned (u_conversation_url updates) (Memory.conversation_url memory) |}.

Definition updateMemory (env : Env) (id : option JsKey) (updates : Updates) (e : Engine)
  : option Memory.t * Engine :=
  match findWithIndex (fun m => bool_decide (Memory.id m = id)) (memories e) with
  | Some (i, memory) =>
      let updated := applyUpdates env memory updates in
      (Some updated,
       persist env (clearSearchCache (setMemories e (<[i := updated]> (memories e)))))
  | None => (None, e)
  end.

(** ** Filters and pages (lines 3399-3432) *)

(** The [filters] argument: a key that is missing is [None]. *)
Module Filters.
Record t : Type := mk {
  category : option string;
  platform : option string;
  dateFrom : option Z;
  dateTo : option Z;
  tags : option (list string)
}.
End Filters.

Definition noFilters : Filters.t :=
  {| Filters.category := None; Filters.platform := None; Filters.dateFrom := None;
     Filters.dateTo := None; Filters.tags := None |}.

(** A filter value that is truthy: a string that is not empty, a
    number that is not zero; the tags count when the array is not empty. *)
Definition activeString (x : option string) : option string :=
  match x with
  | Some EmptyString => None
  | other => other
  end.

Definition activeNumber (x : option Z) : option Z :=
  match x with
  | Some 0%Z => None
  | other => other
  end.

Definition activeTags (x : option (list string)) : option (list string) :=
  match x with
  | Some [] => None
  | other => other
  end.

Definition inCategory (c : string) (m : Memory.t) : bool :=
  bool_decide (Memory.category m = Some c).

(** [m.source.includes(platform)]: throws when the source is [undefined]. *)
Definition onPlatform (p : string) (m : Memory.t) : Result bool :=
  match Memory.source m with
  | Some s => Ok (includes p s)
  | None => Throw (TypeError "Cannot read properties of undefined (reading 'includes')")
  end.

Definition notBefore (from : Z) (m : Memory.t) : bool :=
  match Memory.timestamp m with
  | Some t => (from <=? t)%Z
  | None => false
  end.

Definition notAfter (to : Z) (m : Memory.t) : bool :=
  match Memory.timestamp m with
  | Some t => (t <=? to)%Z
  | None => false
  end.

(** [m.tags && filters.tags.some(tag => m.tags.includes(tag))]. *)
Definition sharesTag (wanted : list string) (m : Memory.t) : bool :=
  match Memory.tags m with
  | Some ts => existsb (fun tag => existsb (String.eqb tag) ts) wanted
  | None => false
  end.

(** The five filters, applied one after the other. *)
Definition applyFilters (filters : Filters.t) (l : list Memory.t) : Result (list Memory.t) :=
  let l1 := match activeString (Filters.category filters) with
            | Some c => List.filter (inCategory c) l
            | None => l
            end in
  match (match activeString (Filters.platform filters) with
         | Some p => filterResult (onPlatform p) l1
         | None => Ok l1
         end) with
  | Throw err => Throw err
  | Ok l2 =>
      let l3 := match activeNumber (Filters.dateFrom filters) with
                | Some from => List.filter (notBefore from) l2
                | None => l2
                end in
      let l4 := match activeNumber (Filters.dateTo filters) with
                | Some to => List.filter (notAfter to) l3
                | None => l3
                end in
      Ok (match activeTags (Filters.tags filters) with
          | Some wanted => List.filter (sharesTag wanted) l4
          | None => l4
          end)
  end.

(** [Math.ceil(a / b)] for a count [a]. *)
Definition ceilDiv (a : nat) (b : Z) : Number Z :=
  if (b =? 0)%Z then (match a with O => NaN | S _ => PosInf end)
  else Fin (- ((- Z.of_nat a) / b))%Z.

Module Page.
Record t : Type := mk {
  memories : list Memory.t;
  total : nat;
  page : Z;
  totalPages : Number Z
}.
End Page.

Definition getMemoriesPage (env : Env) (page : Z) (filters : Filters.t) (e0 : Engine)
  : Result Page.t * Engine :=
  let e := init env e0 in
  match applyFilters filters (memories e) with
  | Throw err => (Throw err, e)
  | Ok filteredMemories =>
      let start := (page * pageSize e)%Z in
      let end_ := (start + pageSize e)%Z in
      (Ok {| Page.memories := slice filteredMemories start end_;
             Page.total := length filteredMemories;
             Page.page := page;
             Page.totalPages := ceilDiv (length filteredMemories) (pageSize e) |},
       e)
  end.

(** ** searchMemories (lines 3797-3848) *)

(** [Object.keys(filters).length], for an object that has no other keys
    than the five that are read. *)
Definition present {A : Type} (x : option A) : nat :=
  match x with
  | Some _ => 1
  | None => 0
  end.

Definition keyCount (filters : Filters.t) : nat :=
  present (Filters.category filters) + present (Filters.platform filters)
  + present (Filters.dateFrom filters) + present (Filters.dateTo filters)
  + present (Filters.tags filters).

(** Whether some filter builds a new array. *)
Definition anyActive (filters : Filters.t) : bool :=
  match activeString (Filters.category filters), activeString (Filters.platform filters),
        activeNumber (Filters.dateFrom filters), activeNumber (Filters.dateTo filters),
        activeTags (Filters.tags filters) with
  | None, None, None, None, None => false
  | _, _, _, _, _ => true
  end.

(** The text filter: some token of the lowercased query is included in
    the lowercased text of the record. *)
Definition matchesQuery (query : string) (memory : Memory.t) : bool :=
  let queryTerms := split isWhiteSpace (toLowerCase query) in
  let content := toLowerCase (documentText memory) in
  existsb (fun term => includes term content) queryTerms.

(** [arr.sort(compare)] for a consistent comparison, given by the
    test that tells where it is positive: the stable sort, here by
    insertion. *)
Fixpoint insertWhere {A : Type} (positive : A -> A -> bool) (x : A) (l : list A) : list A :=
  match l with
  | [] => [x]
  | y :: r => if positive x y then y :: insertWhere positive x r else x :: l
  end.

Definition sortWhere {A : Type} (positive : A -> A -> bool) (l : list A) : list A :=
  fold_right (insertWhere positive) [] l.

Definition isPositive (x : Number Z) : bool :=
  match x with
  | Fin v => (0 <? v)%Z
  | PosInf => true
  | _ => false
  end.

(** The comparison [(a, b) => b.timestamp - a.timestamp]: the
    difference is [NaN] when a timestamp is [undefined]. *)
Definition byDateDescending (a b : Memory.t) : Number Z :=
  match Memory.timestamp a, Memory.timestamp b with
  | Some ta, Some tb => Fin (tb - ta)%Z
  | _, _ => NaN
  end.

Definition isOlder (a b : Memory.t) : bool := isPositive (byDateDescending a b).

Definition hasTimestamp (m : Memory.t) : bool :=
  match Memory.timestamp m with
  | Some _ => true
  | None => false
  end.

(** [results.sort((a, b) => b.timestamp - a.timestamp)].  When every
    record has a timestamp the comparison is consistent and the result
    is the stable sort; when a timestamp is missing the comparison is
    [NaN] for some pairs and the order is the one the host leaves. *)
Definition sortByDate (env : Env) (l : list Memory.t) : list Memory.t :=
  if forallb hasTimestamp l then sortWhere isOlder l
  else arraySort env byDateDescending l.

Inductive SearchOutcome : Type :=
| PageOutcome (p : Page.t)                                  (* what getMemoriesPage returns *)
| ResultsOutcome (memories : list SearchResult) (total : nat). (* memories and total *)

Definition searchMemories (env : Env) (query : string) (filters : Filters.t) (e0 : Engine)
  : Result SearchOutcome * Engine :=
  let e := init env e0 in
  if String.eqb query EmptyString && (keyCount filters =? 0)%nat then
    match getMemoriesPage env 0 filters e with
    | (Ok p, e') => (Ok (PageOutcome p), e')
    | (Throw err, e') => (Throw err, e')
    end
  else
    let matching := if String.eqb query EmptyString then memories e
                    else List.filter (matchesQuery query) (memories e) in
    match applyFilters filters matching with
    | Throw err => (Throw err, e)
    | Ok results =>
        if String.eqb query EmptyString then
          (* sorted in place: the array sorted is the engine's own when no
             filter has built a new one *)
          let sorted := sortByDate env results in
          (Ok (ResultsOutcome (map Plain sorted) (length sorted)),
           if anyActive filters then e else setMemories e sorted)
        else
          let scored := sort byScoreDescending (calculateTFIDFScores query results) in
          (Ok (ResultsOutcome (map Scored scored) (length scored)), e)
    end.

(** ** getMemoryStats (lines 3536-3566) *)

Record MemoryStats : Type := {
  st_total : nat;
  st_categories : gmap string PropValue;
  st_platforms : gmap string PropValue;
  st_tags : gmap string PropValue;
  st_recent : list Memory.t;
  st_averageLength : Number Q
}.

(** [sum + m.content.length]: throws when a content is [undefined]. *)
Fixpoint totalLength (l : list Memory.t) : Result nat :=
  match l with
  | [] => Ok O
  | m :: r =>
      match Memory.content m with
      | None => Throw (TypeError "Cannot read properties of undefined (reading 'length')")
      | Some text =>
          match totalLength r with
          | Ok n => Ok (String.length text + n)%nat
          | Throw err => Throw err
          end
      end
  end.

(** The tags counted by the loop: those of the records that have tags. *)
Definition allTags (l : list Memory.t) : list string :=
  concat (map (fun m => match Memory.tags m with Some ts => ts | None => [] end) l).

Definition getMemoryStats (env : Env) (e0 : Engine) : Result MemoryStats * Engine :=
  let e := init env e0 in
  let categories := fold_left countTerm (map (fun m => toStr (Memory.category m)) (memories e)) ∅ in
  let platforms := fold_left countTerm (map (fun m => toStr (Memory.source m)) (memories e)) ∅ in
  let tags := fold_left countTerm (allTags (memories e)) ∅ in
  match totalLength (memories e) with
  | Throw err => (Throw err, e)
  | Ok sum =>
      (Ok {| st_total := length (memories e);
             st_categories := categories;
             st_platforms := platforms;
             st_tags := tags;
             st_recent := slice (memories e) 0 5;
             st_averageLength := divSizes sum (Nat.max (length (memories e)) 1) |},
       e)
  end.

(** * Scenarios

    Concrete contents, records and engine states on which the
    properties below are evaluated. *)

(** The content of the first example scenario of the specification. *)
Definition apiExample : string := "Here's how to use the API: call fetch().".

(** A content of one long sentence: forty times the word [memory]. *)
Definition longSentence : string := join " " (repeat "memory" 40).

(** A text without any word: every token of its split is empty. *)
Definition noWords (text : string) : bool :=
  forallb (String.eqb EmptyString) (split isWhiteSpace (toLowerCase text)).

(** An object without any of the fields of a record, as [{}]. *)
Definition emptyObject : Memory.t :=
  {| Memory.id := None; Memory.content := None; Memory.timestamp := None;
     Memory.source := None; Memory.url := None; Memory.conversationId := None;
     Memory.category := None; Memory.summary := None; Memory.tags := None;
     Memory.lastUpdated := None; Memory.type := None; Memory.platform := None;
     Memory.conversation_url := None |}.

(** An object with a content and nothing else. *)
Definition withContent (c : string) : Memory.t :=
  {| Memory.id := None; Memory.content := Some c; Memory.timestamp := None;
     Memory.source := None; Memory.url := None; Memory.conversationId := None;
     Memory.category := None; Memory.summary := None; Memory.tags := None;
     Memory.lastUpdated := None; Memory.type := None; Memory.platform := None;
     Memory.conversation_url := None |}.

(** A call at 2023-11-14T22:13:20Z on a chat page, without backend, on
    a host that sorts by insertion. *)
Definition chatEnv : Env :=
  {| now := 1700000000000;
     random := 1 # 2;
     hostname := "chat.example";
     href := "https://chat.example/c/1";
     backendIntegration := None;
     storageReadOk := true;
     storageWriteOk := true;
     arraySort := fun compare => sortWhere (fun a b => isPositive (compare a b)) |}.

(** The same page [ms] milliseconds later. *)
Definition later (ms : Z) (env : Env) : Env :=
  {| now := (now env + ms)%Z;
     random := random env;
     hostname := hostname env;
     href := href env;
     backendIntegration := backendIntegration env;
     storageReadOk := storageReadOk env;
     storageWriteOk := storageWriteOk env;
     arraySort := arraySort env |}.

(** The record number [n] of a store kept most recent first: its id is
    [n], and it was created [n] seconds before [chatEnv]. *)
Definition numbered (n : nat) : Memory.t :=
  {| Memory.id := Some (KNum (Q2Qc (inject_Z (Z.of_nat n))));
     Memory.content := Some ("note " +:+ string_of_Z (Z.of_nat n));
     Memory.timestamp := Some (1700000000000 - 1000 * Z.of_nat n)%Z;
     Memory.source := Some "chat.example";
     Memory.url := Some "https://chat.example/c/0";
     Memory.conversationId := Some "https://chat.example/c/0_944443";
     Memory.category := Some "general";
     Memory.summary := Some ("note " +:+ string_of_Z (Z.of_nat n));
     Memory.tags := Some [];
     Memory.lastUpdated := None;
     Memory.type := None; Memory.platform := None; Memory.conversation_url := None |}.

(** An initialized engine that holds the given records. *)
Definition engineWith (ms : list Memory.t) : Engine :=
  setInitialized (setMemories (newEngine (Some ms)) ms).

Definition tenRecords : Engine := engineWith (map numbered (seq 0 10)).

(** An engine that holds exactly [maxMemories] records, numbered from 1. *)
Definition fullEngine : Engine := engineWith (map numbered (seq 1 1000)).

(** Two contents saved on the same page within the same half hour. *)
Definition firstAnswer : string :=
  "Lists and dictionaries are the containers most programs start with.".

Definition secondAnswer : string :=
  "Remember to close the file once the export has finished.".

(** The engine after [firstAnswer] was saved, as a new record, into an
    engine that had nothing stored. *)
Definition afterFirstAnswer : Engine :=
  snd (saveMemory chatEnv firstAnswer noMetadata (newEngine None)).

(** [secondAnswer] saved one second later, and once more a second after. *)
Definition secondAnswerOnce : Result (option Memory.t) * Engine :=
  saveMemory (later 1000 chatEnv) secondAnswer noMetadata afterFirstAnswer.

Definition secondAnswerTwice : Result (option Memory.t) * Engine :=
  saveMemory (later 2000 chatEnv) secondAnswer noMetadata (snd secondAnswerOnce).

(** Two notes, one of which speaks of the constructor pattern. *)
Definition patternNote : Memory.t :=
  {| Memory.id := Some (KNum (Q2Qc 1));
     Memory.content := Some "The constructor pattern creates objects with the new keyword.";
     Memory.timestamp := Some 1699999990000%Z;
     Memory.source := Some "chat.example";
     Memory.url := Some "https://chat.example/c/7";
     Memory.conversationId := Some "https://chat.example/c/7_944443";
     Memory.category := Some "general";
     Memory.summary := Some "The constructor pattern creates objects with the new keyword";
     Memory.tags := Some [];
     Memory.lastUpdated := None;
     Memory.type := None; Memory.platform := None; Memory.conversation_url := None |}.

Definition gardenNote : Memory.t :=
  {| Memory.id := Some (KNum (Q2Qc 2));
     Memory.content := Some "Tomatoes want plenty of water during the summer months.";
     Memory.timestamp := Some 1699999980000%Z;
     Memory.source := Some "chat.example";
     Memory.url := Some "https://chat.example/c/8";
     Memory.conversationId := Some "https://chat.example/c/8_944443";
     Memory.category := Some "general";
     Memory.summary := Some "Tomatoes want plenty of water during the summer months";
     Memory.tags := Some [];
     Memory.lastUpdated := None;
     Memory.type := None; Memory.platform := None; Memory.conversation_url := None |}.

Definition twoNotes : Engine := engineWith [patternNote; gardenNote].

(** The record that saving [firstAnswer] creates, kept with a note from
    another conversation. *)
Definition answerNote : Memory.t := buildMemory chatEnv firstAnswer noMetadata.

Definition twoAnswers : Engine := engineWith [answerNote; gardenNote].

Definition containersQuery : string := "containers dictionaries".

(** The content of a search result. *)
Definition resultContent (r : SearchResult) : option string :=
  match r with
  | Plain m => Memory.content m
  | Scored d => Memory.content (doc d)
  end.

(** A search, a save one second later, and the same search one second
    after the save. *)
Definition searchBefore : list SearchResult * Engine :=
  getRelevantMemories (later 1000 chatEnv) containersQuery 5 0 twoAnswers.

Definition mergingSave : Result (option Memory.t) * Engine :=
  saveMemory (later 2000 chatEnv) secondAnswer noMetadata (snd searchBefore).

Definition searchAfter : list SearchResult * Engine :=
  getRelevantMemories (later 3000 chatEnv) containersQuery 5 0 (snd mergingSave).

(** The terms of the two notes of [twoAnswers]: content and summary
    give every term twice, and there are no tags. *)
Definition answerTerms : list string :=
  ["lists"; "dictionaries"; "containers"; "programs"; "start";
   "lists"; "dictionaries"; "containers"; "programs"; "start"].

Definition gardenTerms : list string :=
  ["tomatoes"; "want"; "plenty"; "water"; "summer"; "months";
   "tomatoes"; "want"; "plenty"; "water"; "summer"; "months"].

(** [firstAnswer] with [secondAnswer] appended by the merge. *)
Definition mergedAnswers : string :=
  firstAnswer +:+ newline +:+ newline +:+ secondAnswer.

(** The value that a count reads as: a term that was never counted is
    not a property of the object. *)
Definition ofCount (n : nat) : option PropValue :=
  match n with
  | O => None
  | S _ => Some (Count n)
  end.

(** The eight categories of the classifier. *)
Definition categories : list string :=
  ["code"; "troubleshooting"; "how-to"; "explanation"; "comparison";
   "recommendation"; "example"; "general"].

(** All characters of a string satisfy a test. *)
Fixpoint allChars (p : ascii -> bool) (s : string) : bool :=
  match s with
  | EmptyString => true
  | String c r => p c && allChars p r
  end.

(** A word character that is not an uppercase letter. *)
Definition isLowerWordChar (c : ascii) : bool :=
  isWordChar c && negb (between 65 90 (code c)).

(** A score that is zero or not a number. *)
Definition zeroOrNaN (x : Number R) : Prop :=
  x = NaN \/ exists v, x = Fin v /\ v = 0%R.


(** The storage area mirrors the stored records. *)
Definition inSync (e : Engine) : Prop := LocalBrain_data e = Some (memories e).

(** A record is younger than the retention horizon of 90 days. *)
Definition isFresh (env : Env) (memory : Memory.t) : bool :=
  elapsedBelow (now env) (Memory.timestamp memory) (90 * 24 * 60 * 60 * 1000).

Definition isUnderscore (c : ascii) : bool := (code c =? 95)%nat.

(** The score of a search result, when it is a finite number. *)
Definition finiteScore (r : SearchResult) : R :=
  match r with
  | Scored d => match score d with Fin x => x | _ => 0%R end
  | Plain _ => 0%R
  end.

(** The whole ranking of a query: its first page with a limit that no
    ranking exceeds. *)
Definition wholeRanking (query : string) (memories : list Memory.t) : list SearchResult :=
  rankedResults query (Z.of_nat (length memories)) 0 memories.

(** A record passes the filters: it passes each filter that is active. *)
Definition passesCategory (filters : Filters.t) (m : Memory.t) : bool :=
  match activeString (Filters.category filters) with
  | Some c => inCategory c m
  | None => true
  end.

Definition passesPlatform (filters : Filters.t) (m : Memory.t) : bool :=
  match activeString (Filters.platform filters) with
  | Some p => match Memory.source m with Some s => includes p s | None => false end
  | None => true
  end.

Definition passesDates (filters : Filters.t) (m : Memory.t) : bool :=
  match activeNumber (Filters.dateFrom filters) with
  | Some from => notBefore from m
  | None => true
  end &&
  match activeNumber (Filters.dateTo filters) with
  | Some to => notAfter to m
  | None => true
  end.

Definition passesTags (filters : Filters.t) (m : Memory.t) : bool :=
  match activeTags (Filters.tags filters) with
  | Some wanted => sharesTag wanted m
  | None => true
  end.

Definition passes (filters : Filters.t) (m : Memory.t) : bool :=
  passesCategory filters m && passesPlatform filters m && passesDates filters m
  && passesTags filters m.

(** The records of the page that [getMemoriesPage] returns. *)
Definition pageOf (env : Env) (page : Z) (filters : Filters.t) (e : Engine) : list Memory.t :=
  match fst (getMemoriesPage env page filters e) with
  | Ok p => Page.memories p
  | Throw _ => []
  end.

(** The record of a search result. *)
Definition resultRecord (r : SearchResult) : Memory.t :=
  match r with
  | Plain m => m
  | Scored d => doc d
  end.

(** The results of [searchMemories], none when it returns a page or throws. *)
Definition searchResults (outcome : Result SearchOutcome) : list SearchResult :=
  match outcome with
  | Ok (ResultsOutcome rs _) => rs
  | _ => []
  end.

(** The length of the content of a record, none when it is [undefined]. *)
Definition contentLength (m : Memory.t) : nat :=
  match Memory.content m with
  | Some text => String.length text
  | None => 0
  end.

(** The keys under which [getMemoryStats] counts a record. *)
Definition categoryKey (m : Memory.t) : string := toStr (Memory.category m).
Definition platformKey (m : Memory.t) : string := toStr (Memory.source m).

(** [a] is not older than [b]; both have a timestamp. *)
Definition notOlder (a b : Memory.t) : Prop :=
  match Memory.timestamp a, Memory.timestamp b with
  | Some ta, Some tb => (tb <= ta)%Z
  | _, _ => False
  end.

(** The record was created at [t]. *)
Definition timestamped (t : Z) (m : Memory.t) : bool :=
  bool_decide (Memory.timestamp m = Some t).

(** Two notes, the older one first. *)
Definition olderFirst : Engine := engineWith [gardenNote; patternNote].

(** A filters object whose only key holds a falsy value:
    [{ category: '' }]. *)
Definition falsyCategory : Filters.t :=
  {| Filters.category := Some EmptyString; Filters.platform := None;
     Filters.dateFrom := None; Filters.dateTo := None; Filters.tags := None |}.

(** A record has the signature [s]. *)
Definition hasSignature (s : string) (m : Memory.t) : bool :=
  match createMemorySignature m with
  | Ok t => String.eqb t s
  | Throw _ => false
  end.

(** * Properties *)

(** ** The string primitives on small inputs *)

Example split_sentences :
  split isSentenceEnd "One. Two?! Three" = ["One"; " Two"; " Three"] /\
  split isSentenceEnd "Done." = ["Done"; EmptyString] /\
  split isSentenceEnd "...a" = [EmptyString; "a"].
Proof. repeat split; reflexivity. Qed.

Example split_words :
  split isWhiteSpace EmptyString = [EmptyString] /\
  split isWhiteSpace "  two   words " = [EmptyString; "two"; "words"; EmptyString].
Proof. repeat split; reflexivity. Qed.

Example trim_example : trim "  two  words  " = "two  words".
Proof. reflexivity. Qed.

Example hasCodeFence_example :
  hasCodeFence "see ```x = 1``` here" = true /\ hasCodeFence "five ````` ticks" = false.
Proof. split; reflexivity. Qed.

Example extractTags_example :
  extractTags "Use #react with ##node_js and Python, #react again"
  = ["react"; "node_js"; "python"; "node"].
Proof. vm_compute. reflexivity. Qed.

Example preprocessText_example :
  preprocessText "How do I FIX the Python-database error?"
  = ["fix"; "python"; "database"; "error"].
Proof. vm_compute. reflexivity. Qed.

Example getTermFrequencies_example :
  getProp (getTermFrequencies ["fix"; "python"; "fix"]) "fix" = Some (Count 2) /\
  getProp (getTermFrequencies ["fix"; "python"; "fix"]) "error" = None /\
  getProp (getTermFrequencies ["fix"; "python"; "fix"]) "constructor" = Some NotNumeric.
Proof. repeat split; vm_compute; reflexivity. Qed.

(** ** Basic facts about the state *)

Lemma memories_persist {A : Type} env (e : EngineOf A) :
  memories (persist env e) = memories e.
Proof. unfold persist. destruct (storageWriteOk env); reflexivity. Qed.

Lemma searchCache_persist {A : Type} env (e : EngineOf A) :
  searchCache (persist env e) = searchCache e.
Proof. unfold persist. destruct (storageWriteOk env); reflexivity. Qed.

Lemma maxMemories_persist {A : Type} env (e : EngineOf A) :
  maxMemories (persist env e) = maxMemories e.
Proof. unfold persist. destruct (storageWriteOk env); reflexivity. Qed.

Lemma initialized_persist {A : Type} env (e : EngineOf A) :
  initialized (persist env e) = initialized e.
Proof. unfold persist. destruct (storageWriteOk env); reflexivity. Qed.

Lemma init_initialized env e : initialized e = true -> init env e = e.
Proof. intros H. unfold init. rewrite H. reflexivity. Qed.

Lemma initialized_cleanup env e :
  initialized (cleanupOldMemories env e) = initialized e.
Proof.
  unfold cleanupOldMemories. cbv zeta.
  destruct (0 <? _)%nat; [rewrite initialized_persist|]; reflexivity.
Qed.

Lemma initialized_init env e : initialized (init env e) = true.
Proof.
  unfold init. destruct (initialized e) eqn:E; [exact E|].
  destruct (storageReadOk env); [rewrite initialized_cleanup|]; reflexivity.
Qed.

(** ** Arrays *)

Lemma findIndex_None {A : Type} (p : A -> bool) (l : list A) :
  findIndex p l = None -> Forall (fun x => p x = false) l.
Proof.
  induction l as [|x r IH]; simpl; intros H; [constructor|].
  destruct (p x) eqn:Px; [discriminate|].
  destruct (findIndex p r); [discriminate|].
  constructor; auto.
Qed.

Lemma findIndex_Some {A : Type} (p : A -> bool) (l : list A) (i : nat) :
  findIndex p l = Some i ->
  exists before x after,
    l = before ++ x :: after /\ p x = true /\
    Forall (fun y => p y = false) before /\
    removeAt i l = before ++ after.
Proof.
  revert i. induction l as [|x r IH]; simpl; intros i H; [discriminate|].
  destruct (p x) eqn:Px.
  - injection H as <-. exists [], x, r. repeat split; auto.
  - destruct (findIndex p r) as [j|] eqn:Fj; [|discriminate].
    injection H as <-.
    destruct (IH j eq_refl) as (before & y & after & -> & Py & Hb & Hr).
    exists (x :: before), y, after. simpl. rewrite Hr.
    repeat split; auto.
Qed.

(** ** Deleting by id *)

(** C10.  [deleteMemoryById] answers [true] exactly when a record with
    the given id is stored; it then removes the first such record and
    nothing else; otherwise it answers [false] and leaves the engine as
    it was. *)
Theorem deleteMemoryById_removes_first_match (env : Env) (id : option JsKey) (e : Engine) :
  match deleteMemoryById env id e with
  | (true, e') =>
      exists before m after,
        memories e = before ++ m :: after /\
        Memory.id m = id /\
        Forall (fun x => Memory.id x <> id) before /\
        memories e' = before ++ after
  | (false, e') =>
      Forall (fun x => Memory.id x <> id) (memories e) /\ e' = e
  end.
Proof.
  unfold deleteMemoryById.
  destruct (findIndex _ (memories e)) as [index|] eqn:F.
  - apply findIndex_Some in F as (before & m & after & Hl & Hm & Hb & Hr).
    exists before, m, after. rewrite memories_persist. simpl.
    repeat split; auto.
    + apply bool_decide_eq_true in Hm. exact Hm.
    + eapply Forall_impl; [exact Hb|]. intros x Hx.
      apply bool_decide_eq_false in Hx. exact Hx.
  - apply findIndex_None in F. split; [|reflexivity].
    eapply Forall_impl; [exact F|]. intros x Hx.
    apply bool_decide_eq_false in Hx. exact Hx.
Qed.

(** ** The category of the example content *)

(** C5, as the code has it.  The example content is put in the
    category [code]: the tests run in the order code, troubleshooting,
    how-to, ..., the first one that holds decides, and the first test
    also looks for [api], which the lowercased content contains; the
    words [how to], which it contains too, are never looked at. *)
Theorem categorizeContent_api_example :
  categorizeContent apiExample = "code" /\
  includes "api" (toLowerCase apiExample) = true /\
  includes "how to" (toLowerCase apiExample) = true.
Proof. repeat split; vm_compute; reflexivity. Qed.

(** C5, as the claim states it, fails: the category is not [how-to]. *)
Lemma api_example_is_not_how_to :
  categorizeContent apiExample <> "how-to".
Proof. vm_compute. discriminate. Qed.

(** ** The length of a summary *)

Lemma length_append (s1 s2 : string) :
  String.length (s1 +:+ s2) = (String.length s1 + String.length s2)%nat.
Proof. induction s1 as [|c r IH]; simpl; [reflexivity|]. rewrite IH. reflexivity. Qed.

Lemma length_substring0 (n : nat) (s : string) :
  String.length (substring0 n s) = Nat.min n (String.length s).
Proof.
  unfold substring0. revert s.
  induction n as [|n IH]; intros s; destruct s as [|c r]; simpl; auto.
Qed.

Lemma summarySentences_long (content : string) :
  Forall (fun s => (10 < String.length (trim s))%nat) (summarySentences content).
Proof.
  unfold summarySentences. apply List.Forall_forall. intros s Hs.
  apply List.filter_In in Hs as [_ Hs]. apply Nat.ltb_lt in Hs. exact Hs.
Qed.

(** C4, as the code has it.  A summary has at most 153 characters: it
    is at most 150 characters long, or it is the first 150 characters of
    the joined sentences followed by the three characters of the
    ellipsis.  The sentences that are joined are those whose trimmed
    length exceeds 10. *)
Theorem generateSummary_length (content : string) :
  (String.length (generateSummary content) <= 153)%nat /\
  ((String.length (generateSummary content) <= 150)%nat \/
   exists p, String.length p = 150%nat /\ generateSummary content = p +:+ "...") /\
  Forall (fun s => (10 < String.length (trim s))%nat) (summarySentences content).
Proof.
  assert (H : (String.length (generateSummary content) <= 150)%nat \/
              exists p, String.length p = 150%nat /\ generateSummary content = p +:+ "...").
  { unfold generateSummary.
    destruct (summarySentences content) as [|s ss].
    - left. rewrite length_substring0. lia.
    - set (summary := join ". " (firstn 3 (s :: ss))).
      destruct (150 <? String.length summary)%nat eqn:L.
      + right. exists (substring0 150 summary). split; [|reflexivity].
        apply Nat.ltb_lt in L. rewrite length_substring0. lia.
      + left. apply Nat.ltb_ge in L. exact L. }
  split; [|split; [exact H | apply summarySentences_long]].
  destruct H as [H | (p & Hp & ->)]; [lia|].
  rewrite length_append, Hp. simpl. lia.
Qed.

(** C4, as the claim states it, fails: this summary has 153 characters. *)
Lemma generateSummary_exceeds_150 :
  String.length longSentence = 279%nat /\
  String.length (generateSummary longSentence) = 153%nat /\
  ~ (String.length (generateSummary longSentence) <= 150)%nat.
Proof.
  assert (H : String.length (generateSummary longSentence) = 153%nat)
    by (vm_compute; reflexivity).
  split; [vm_compute; reflexivity|]. split; [exact H|]. rewrite H. lia.
Qed.

(** ** Similarity of two texts *)

Lemma splitRuns_not_nil (d : ascii -> bool) (inRun : bool) (s : string) :
  splitRuns d inRun s <> [].
Proof.
  revert inRun. induction s as [|c r IH]; intros inRun; simpl; [discriminate|].
  destruct (d c).
  - destruct inRun; [apply IH | discriminate].
  - destruct (splitRuns d false r); discriminate.
Qed.

Lemma wordSet_inhabited (text : string) : exists w, w ∈ wordSet text.
Proof.
  unfold wordSet, split.
  destruct (splitRuns isWhiteSpace false (toLowerCase text)) as [|w ws] eqn:E.
  - exfalso. eapply splitRuns_not_nil; exact E.
  - exists w. apply elem_of_list_to_set. left.
Qed.

Lemma size_union_pos (text1 text2 : string) :
  (1 <= size (wordSet text1 ∪ wordSet text2))%nat.
Proof.
  destruct (wordSet_inhabited text1) as [w Hw].
  assert (Hne : size (wordSet text1 ∪ wordSet text2) <> 0%nat).
  { intros H0. apply size_empty_inv in H0.
    assert (Hin : w ∈ wordSet text1 ∪ wordSet text2) by (apply elem_of_union; left; exact Hw).
    apply H0 in Hin. exact (not_elem_of_empty (C:=gset string) w Hin). }
  lia.
Qed.

Lemma calculateSimilarity_sets (text1 text2 : string) :
  calculateSimilarity text1 text2 =
  divSizes (size (wordSet text1 ∩ wordSet text2)) (size (wordSet text1 ∪ wordSet text2)).
Proof.
  unfold calculateSimilarity. cbv zeta. f_equal.
  - f_equal. apply set_eq. intros x.
    rewrite elem_of_filter, elem_of_intersection. tauto.
  - f_equal. rewrite list_to_set_app_L, !list_to_set_elements_L. reflexivity.
Qed.

Lemma wordSet_noWords (text : string) :
  noWords text = true -> wordSet text = {[ EmptyString ]}.
Proof.
  unfold noWords, wordSet, split. intros H.
  pose proof (splitRuns_not_nil isWhiteSpace false (toLowerCase text)) as Hne.
  destruct (splitRuns isWhiteSpace false (toLowerCase text)) as [|w ws]; [congruence|].
  clear Hne. apply set_eq. intros x.
  rewrite elem_of_list_to_set, elem_of_singleton.
  rewrite forallb_forall in H. split.
  - intros Hx. apply list_elem_of_In in Hx. apply H in Hx.
    apply String.eqb_eq in Hx. congruence.
  - intros ->. assert (Hw : In w (w :: ws)) by (left; reflexivity).
    apply H in Hw. apply String.eqb_eq in Hw. subst w. left.
Qed.

(** C3, as the code has it.  The similarity of two texts is the size of
    the intersection over the size of the union of their sets of
    lowercased tokens.  The split of a text is never empty (a text
    without words yields the empty token), so the union has at least one
    element and the division is never by zero.  Two texts without words
    have similarity 1, and a candidate without words is reported as a
    duplicate of a stored record without words. *)
Theorem calculateSimilarity_jaccard (text1 text2 : string) :
  (1 <= size (wordSet text1 ∪ wordSet text2))%nat /\
  calculateSimilarity text1 text2 =
    Fin (Z.of_nat (size (wordSet text1 ∩ wordSet text2))
         # Pos.of_nat (size (wordSet text1 ∪ wordSet text2))) /\
  (noWords text1 = true -> noWords text2 = true ->
   calculateSimilarity text1 text2 = Fin (1 # 1) /\
   forall memory rest candidate,
     Memory.content memory = Some text1 ->
     Memory.content candidate = Some text2 ->
     isDuplicate (memory :: rest) candidate = Ok true).
Proof.
  pose proof (size_union_pos text1 text2) as Hpos.
  split; [exact Hpos|]. split.
  - rewrite calculateSimilarity_sets.
    destruct (size (wordSet text1 ∪ wordSet text2)); [lia | reflexivity].
  - intros H1 H2.
    assert (Hs : calculateSimilarity text1 text2 = Fin (1 # 1)).
    { rewrite calculateSimilarity_sets.
      rewrite (wordSet_noWords _ H1), (wordSet_noWords _ H2).
      replace ({[EmptyString]} ∩ {[EmptyString]} : gset string) with ({[EmptyString]} : gset string)
        by (apply set_eq; intros x; rewrite elem_of_intersection; tauto).
      replace ({[EmptyString]} ∪ {[EmptyString]} : gset string) with ({[EmptyString]} : gset string)
        by (apply set_eq; intros x; rewrite elem_of_union; tauto).
      rewrite size_singleton. reflexivity. }
    split; [exact Hs|].
    intros memory rest candidate Hm Hc. simpl.
    destruct (bool_decide _); [reflexivity|].
    rewrite Hm, Hc, Hs. reflexivity.
Qed.

(** The theorem at a stored content of one space and an empty candidate. *)
Lemma calculateSimilarity_jaccard_witness :
  calculateSimilarity " " EmptyString = Fin (1 # 1) /\
  forall memory rest candidate,
    Memory.content memory = Some " " ->
    Memory.content candidate = Some EmptyString ->
    isDuplicate (memory :: rest) candidate = Ok true.
Proof.
  apply (proj2 (proj2 (calculateSimilarity_jaccard " " EmptyString))); reflexivity.
Defined.

(** The set of tokens of a text is never empty. *)
Lemma wordSet_not_empty (text : string) : wordSet text <> ∅.
Proof.
  destruct (wordSet_inhabited text) as [w Hw]. intros E. rewrite E in Hw.
  exact (not_elem_of_empty (C:=gset string) w Hw).
Qed.

(** C3, as the claim states it, fails: a stored content of one space
    and an empty candidate are two texts without words and differ, yet
    their similarity is 1 and the candidate is reported as a duplicate;
    so is an empty candidate against an empty stored content. *)
Lemma wordless_candidate_is_duplicate :
  noWords " " = true /\ noWords EmptyString = true /\
  calculateSimilarity " " EmptyString = Fin (1 # 1) /\
  isDuplicate [withContent " "] (withContent EmptyString) = Ok true /\
  isDuplicate [withContent EmptyString] (buildMemory chatEnv EmptyString noMetadata) = Ok true.
Proof. repeat split; vm_compute; reflexivity. Qed.

(** ** Importing *)

Lemma filterResult_pure {A : Type} (p : A -> bool) (l : list A) :
  filterResult (fun x => Ok (p x)) l = Ok (List.filter p l).
Proof.
  induction l as [|x r IH]; cbn [filterResult List.filter]; [reflexivity|].
  rewrite IH. destruct (p x); reflexivity.
Qed.

(** The import of an array of objects: no element is read but for its
    [id], and nothing throws. *)
Lemma importMemories_objects env (elements : list Memory.t) merge e :
  importMemories env (DecodedArray elements) merge e =
  let e1 :=
    if merge then
      setMemories e
        (List.filter (fun m => negb (bool_decide (Memory.id m ∈ map Memory.id (memories e))))
                     elements ++ memories e)
    else setMemories e elements in
  let e2 := persist env (clearSearchCache e1) in
  (Ok {| imported := length elements; total := length (memories e2) |}, e2).
Proof.
  unfold importMemories. cbn [readId held objects]. cbv zeta.
  destruct merge; [|reflexivity].
  rewrite (filterResult_pure
             (fun m => negb (bool_decide (Memory.id m ∈ map Memory.id (memories e))))).
  reflexivity.
Qed.

Lemma filterResult_no_null (ids : list (option JsKey)) (l : list Element) :
  ~ In Null l ->
  filterResult (fun x => match readIdOf x with
                         | Ok id => Ok (negb (bool_decide (id ∈ ids)))
                         | Throw err => Throw err
                         end) l
  = Ok (List.filter (fun x => negb (bool_decide (idOf x ∈ ids))) l).
Proof.
  induction l as [|x r IH]; intros Hn; cbn [filterResult List.filter]; [reflexivity|].
  rewrite IH by (intros Hin; apply Hn; right; exact Hin).
  destruct x as [|m|json]; [exfalso; apply Hn; left; reflexivity| |];
    cbn [readIdOf idOf]; destruct (negb _); reflexivity.
Qed.

Lemma filterResult_null (ids : list (option JsKey)) (l : list Element) :
  In Null l ->
  filterResult (fun x => match readIdOf x with
                         | Ok id => Ok (negb (bool_decide (id ∈ ids)))
                         | Throw err => Throw err
                         end) l
  = Throw (TypeError "Cannot read properties of null (reading 'id')").
Proof.
  induction l as [|x r IH]; intros Hin; [destruct Hin|].
  cbn [filterResult].
  destruct x as [|m|json]; [reflexivity| |]; cbn [readIdOf idOf];
    (destruct Hin as [Hx|Hin]; [discriminate Hx|]); rewrite (IH Hin); reflexivity.
Qed.

Lemma In_Null_dec (l : list Element) : In Null l \/ ~ In Null l.
Proof.
  induction l as [|x r [IH|IH]].
  - right. intros [].
  - left. right. exact IH.
  - destruct x as [|m|json]; [left; left; reflexivity| |];
      right; intros [H|H]; try discriminate H; exact (IH H).
Qed.



(** With [merge], the same array that holds [null] is refused, and
    nothing is imported. *)
Example importMemories_null_with_merge :
  fst (importMemories chatEnv (DecodedArray [Obj emptyObject; Null]) true tenRecords)
    = Throw (PlainError
               "Failed to import memories: Cannot read properties of null (reading 'id')") /\
  snd (importMemories chatEnv (DecodedArray [Obj emptyObject; Null]) true tenRecords)
    = asValues tenRecords.
Proof. split; vm_compute; reflexivity. Qed.

(** ** The cap on the number of records *)

Lemma length_slice_from_0 {A : Type} (l : list A) (n : nat) :
  length (slice l 0 (Z.of_nat n)) = Nat.min n (length l).
Proof.
  unfold slice. cbv zeta.
  replace (0 <? 0)%Z with false by reflexivity.
  destruct (Z.of_nat n <? 0)%Z eqn:E; [apply Z.ltb_lt in E; lia|].
  rewrite (Z.min_l 0) by lia. change (Z.to_nat 0) with 0%nat.
  rewrite drop_0, length_firstn. lia.
Qed.

Lemma length_removeAt {A : Type} (i : nat) (l : list A) :
  (length (removeAt i l) <= length l)%nat.
Proof.
  revert i. induction l as [|x r IH]; intros i; simpl; [lia|].
  destruct i; simpl; [lia|]. specialize (IH i). lia.
Qed.

Lemma length_filter_le {A : Type} (p : A -> bool) (l : list A) :
  (length (List.filter p l) <= length l)%nat.
Proof.
  induction l as [|x r IH]; simpl; [lia|]. destruct (p x); simpl; lia.
Qed.

Lemma cleanupOldMemories_cap env e :
  (length (memories e) <= maxMemories e)%nat ->
  (length (memories (cleanupOldMemories env e)) <= maxMemories (cleanupOldMemories env e))%nat.
Proof.
  intros H. unfold cleanupOldMemories. cbv zeta.
  match goal with |- context [List.filter ?p (memories e)] =>
    pose proof (length_filter_le p (memories e)) as Hf end.
  destruct (0 <? _)%nat; [rewrite memories_persist, maxMemories_persist|]; simpl; lia.
Qed.

(** A save keeps the cap: a record is added only on the path that cuts
    the collection back to [maxMemories]. *)
Lemma saveMemory_cap env content metadata e :
  initialized e = true ->
  (length (memories e) <= maxMemories e)%nat ->
  let e' := snd (saveMemory env content metadata e) in
  (length (memories e') <= maxMemories e')%nat.
Proof.
  intros Hi H. unfold saveMemory. rewrite (init_initialized _ _ Hi). cbv zeta.
  destruct (isDuplicate _ _) as [[|]|err]; simpl; try exact H.
  destruct (findActiveConversation _ _ _) as [[i existing]|]; simpl.
  - rewrite memories_persist, maxMemories_persist. simpl.
    rewrite length_insert. exact H.
  - rewrite memories_persist, maxMemories_persist.
    destruct (maxMemories e <? S (length (memories e)))%nat eqn:L; simpl.
    + rewrite length_slice_from_0. lia.
    + apply Nat.ltb_ge in L. simpl in L. lia.
Qed.

(** Every operation but an import keeps the cap. *)
Lemma cap_kept_without_import env op e :
  initialized e = true ->
  (forall jsonData merge, op <> OpImport jsonData merge) ->
  (length (memories e) <= maxMemories e)%nat ->
  (length (memories (perform env op e)) <= maxMemories (perform env op e))%nat.
Proof.
  intros Hi Hop H. destruct op as [content metadata|id|id|jsonData merge| |query limit page];
    simpl.
  - apply saveMemory_cap; assumption.
  - unfold deleteMemory. rewrite memories_persist, maxMemories_persist. simpl.
    match goal with |- context [List.filter ?p (memories e)] =>
      pose proof (length_filter_le p (memories e)) end. lia.
  - unfold deleteMemoryById. destruct (findIndex _ _) as [index|]; simpl; [|exact H].
    rewrite memories_persist, maxMemories_persist. simpl.
    pose proof (length_removeAt index (memories e)). lia.
  - exfalso. eapply Hop. reflexivity.
  - apply cleanupOldMemories_cap. exact H.
  - unfold getRelevantMemories. rewrite (init_initialized _ _ Hi). cbv zeta.
    destruct (_ || _); simpl; [exact H|].
    destruct (searchCache e !! _) as [cached|]; [destruct (_ <? _)%Z|];
      unfold searchAndCache; simpl; exact H.
Qed.

(** C2 at the failing input.  An engine that holds [maxMemories] = 1000
    records imports an array of one record whose id is not stored, with
    [merge]: it then holds 1001 records, and no later duplicate save or
    search brings the number back under the cap.  Without [merge], an
    array of 1001 records is stored whole. *)
Theorem importMemories_exceeds_cap :
  length (memories fullEngine) = maxMemories fullEngine /\
  (let e' := snd (importMemories chatEnv (DecodedArray [numbered 0]) true fullEngine) in
   fst (importMemories chatEnv (DecodedArray [numbered 0]) true fullEngine)
     = Ok {| imported := 1; total := 1001 |} /\
   maxMemories e' = 1000%nat /\
   length (memories e') = 1001%nat /\
   length (memories (perform chatEnv (OpSave "note 7" noMetadata) e')) = 1001%nat) /\
  (let e' := snd (importMemories chatEnv (DecodedArray (map numbered (seq 0 1001))) false
                                 fullEngine) in
   maxMemories e' = 1000%nat /\ length (memories e') = 1001%nat).
Proof. repeat split; vm_compute; reflexivity. Qed.

(** ** Browsing with a short query *)

(** With a query shorter than three characters after trimming, an
    initialized engine returns a slice of the stored records as they
    are, unscored; the slice starts at [page * pageSize]. *)
Lemma short_query_slice env query limit page e :
  initialized e = true ->
  (String.length (trim query) < 3)%nat ->
  getRelevantMemories env query limit page e =
    (map Plain (slice (memories e) (page * pageSize e) (page * pageSize e + limit)), e).
Proof.
  intros Hi Hq. unfold getRelevantMemories. rewrite (init_initialized _ _ Hi). cbv zeta.
  apply Nat.ltb_lt in Hq. rewrite Hq, orb_true_r. reflexivity.
Qed.

(** C6 at the failing input.  On a store of ten records kept most
    recent first, the empty query with limit 5 returns the five most
    recent records for page 0; for page 1 the claim gives the records at
    positions 5 to 9, and the engine returns nothing: its slice starts
    at [1 * pageSize = 50]. *)
Theorem short_query_page_one_is_empty :
  fst (getRelevantMemories chatEnv EmptyString 5 0 tenRecords)
    = map Plain (map numbered [0; 1; 2; 3; 4]%nat) /\
  slice (memories tenRecords) (1 * 5) (1 * 5 + 5) = map numbered [5; 6; 7; 8; 9]%nat /\
  pageSize tenRecords = 50%Z /\
  fst (getRelevantMemories chatEnv EmptyString 5 1 tenRecords) = [].
Proof. repeat split; vm_compute; reflexivity. Qed.

(** ** Saving the same content twice *)

Lemma maxMemories_cleanup env e :
  maxMemories (cleanupOldMemories env e) = maxMemories e.
Proof.
  unfold cleanupOldMemories. cbv zeta.
  destruct (0 <? _)%nat; [rewrite maxMemories_persist|]; reflexivity.
Qed.

Lemma maxMemories_init env e : maxMemories (init env e) = maxMemories e.
Proof.
  unfold init. destruct (initialized e); [reflexivity|].
  destruct (storageReadOk env); [rewrite maxMemories_cleanup|]; reflexivity.
Qed.

Lemma slice_from_0 {A : Type} (l : list A) (n : nat) :
  slice l 0 (Z.of_nat n) = firstn n l.
Proof.
  unfold slice. cbv zeta.
  replace (0 <? 0)%Z with false by reflexivity.
  destruct (Z.of_nat n <? 0)%Z eqn:E; [apply Z.ltb_lt in E; lia|].
  rewrite (Z.min_l 0) by lia. change (Z.to_nat 0) with 0%nat. rewrite drop_0.
  destruct (Nat.le_gt_cases n (length l)) as [Hle|Hgt].
  - f_equal. lia.
  - rewrite !firstn_all2 by lia. reflexivity.
Qed.

(** No stored content equals the content of a record that is not
    reported as a duplicate. *)
Lemma isDuplicate_false (l : list Memory.t) (m : Memory.t) :
  isDuplicate l m = Ok false ->
  Forall (fun r => Memory.content r <> Memory.content m) l.
Proof.
  induction l as [|r rest IH]; simpl; intros H; [constructor|].
  destruct (bool_decide (Memory.content r = Memory.content m)) eqn:E; [discriminate|].
  apply bool_decide_eq_false in E.
  constructor; [exact E|]. apply IH.
  destruct (Memory.content r) as [text1|]; [|discriminate].
  destruct (Memory.content m) as [text2|]; [|discriminate].
  destruct (gtQ _ _); [discriminate | exact H].
Qed.

Lemma content_buildMemory env content metadata :
  Memory.content (buildMemory env content metadata) = Some (trim content).
Proof. unfold buildMemory. destruct (analyze env content) as [[c s] t]. reflexivity. Qed.

Lemma lastUpdated_buildMemory env content metadata :
  Memory.lastUpdated (buildMemory env content metadata) = None.
Proof. unfold buildMemory. destruct (analyze env content) as [[c s] t]. reflexivity. Qed.

Lemma filter_none {A : Type} (p : A -> bool) (l : list A) :
  Forall (fun x => p x = false) l -> List.filter p l = [].
Proof.
  induction 1 as [|x r Hx _ IH]; simpl; [reflexivity|]. rewrite Hx. exact IH.
Qed.

(** C8, as the code has it.  When a save stores the content as a record of
    its own (the record returned has no [lastUpdated], which only the
    merge into a conversation sets) and the engine keeps at least one
    record, saving the same content again returns [null] and leaves the
    engine as it is, and exactly one stored record has that content. *)
Theorem duplicate_save_is_dropped
    (env1 env2 : Env) (content : string) (metadata1 metadata2 : Metadata)
    (e : Engine) (m : Memory.t) :
  (0 < maxMemories e)%nat ->
  fst (saveMemory env1 content metadata1 e) = Ok (Some m) ->
  Memory.lastUpdated m = None ->
  let e1 := snd (saveMemory env1 content metadata1 e) in
  saveMemory env2 content metadata2 e1 = (Ok None, e1) /\
  length (List.filter (fun r => bool_decide (Memory.content r = Some (trim content)))
                      (memories e1)) = 1%nat.
Proof.
  intros Hmax Hres Hlast. cbv zeta.
  destruct (saveMemory env1 content metadata1 e) as [r1 e1] eqn:Hsave.
  simpl in Hres. subst r1. simpl snd.
  unfold saveMemory in Hsave.
  pose proof (initialized_init env1 e) as Hinit.
  pose proof (maxMemories_init env1 e) as Hmx.
  set (e0 := init env1 e) in *.
  pose proof (content_buildMemory env1 content metadata1) as Hc.
  pose proof (lastUpdated_buildMemory env1 content metadata1) as Hl.
  set (memory := buildMemory env1 content metadata1) in *.
  cbv zeta in Hsave.
  destruct (isDuplicate (memories e0) memory) as [[|]|err] eqn:Hdup;
    try discriminate.
  destruct (findActiveConversation env1 (memories e0) memory) as [[i existing]|] eqn:Hact.
  { injection Hsave as <- _. simpl in Hlast. discriminate. }
  injection Hsave as _ <-. clear Hlast.
  apply isDuplicate_false in Hdup. rewrite Hc in Hdup.
  clearbody memory.
  (* the stored collection starts with the new record *)
  set (e2 := if (_ <? _)%nat then _ else _).
  assert (Hmem : exists rest,
             memories e2 = memory :: rest /\
             Forall (fun r => Memory.content r <> Some (trim content)) rest).
  { unfold e2. destruct (_ <? _)%nat; simpl.
    - rewrite slice_from_0. rewrite Hmx.
      destruct (maxMemories e) as [|k]; [lia|]. simpl.
      exists (firstn k (memories e0)). split; [reflexivity|].
      apply Forall_take. exact Hdup.
    - exists (memories e0). split; [reflexivity | exact Hdup]. }
  destruct Hmem as (rest & Hmem & Hrest).
  assert (Hi1 : initialized (persist env1 (clearSearchCache e2)) = true).
  { rewrite initialized_persist. simpl. unfold e2.
    destruct (_ <? _)%nat; simpl; exact Hinit. }
  clearbody e2.
  split.
  - unfold saveMemory. rewrite (init_initialized _ _ Hi1). cbv zeta.
    rewrite memories_persist. simpl memories. rewrite Hmem. simpl isDuplicate.
    rewrite content_buildMemory, Hc.
    rewrite bool_decide_eq_true_2 by reflexivity. reflexivity.
  - rewrite memories_persist. simpl memories. rewrite Hmem. simpl.
    rewrite Hc. rewrite bool_decide_eq_true_2 by reflexivity.
    rewrite filter_none; [reflexivity|].
    eapply Forall_impl; [exact Hrest|]. intros r Hr.
    apply bool_decide_eq_false. exact Hr.
Qed.

(** The theorem on a store of ten records and a content saved twice,
    one second apart. *)
Lemma duplicate_save_is_dropped_witness :
  let e1 := snd (saveMemory chatEnv apiExample noMetadata tenRecords) in
  saveMemory (later 1000 chatEnv) apiExample noMetadata e1 = (Ok None, e1) /\
  length (List.filter (fun r => bool_decide (Memory.content r = Some (trim apiExample)))
                      (memories e1)) = 1%nat.
Proof.
  apply (duplicate_save_is_dropped chatEnv (later 1000 chatEnv) apiExample
           noMetadata noMetadata tenRecords (buildMemory chatEnv apiExample noMetadata)).
  - vm_compute. lia.
  - vm_compute. reflexivity.
  - reflexivity.
Defined.

(** C8, as the claim states it, fails.  A first content is saved as a new
    record; a second content, saved a second later on the same page, is
    appended to that record; the same second content, saved once more,
    is not taken for a duplicate: the save returns the record and
    appends the content again. *)
Lemma repeated_save_is_appended_again :
  map Memory.content (memories (snd secondAnswerOnce))
    = [Some (firstAnswer +:+ newline +:+ newline +:+ secondAnswer)] /\
  (exists m, fst secondAnswerTwice = Ok (Some m)) /\
  fst secondAnswerTwice <> Ok None /\
  map Memory.content (memories (snd secondAnswerTwice))
    = [Some (firstAnswer +:+ newline +:+ newline +:+ secondAnswer
             +:+ newline +:+ newline +:+ secondAnswer)] /\
  memories (snd secondAnswerTwice) <> memories (snd secondAnswerOnce).
Proof.
  assert (H1 : map Memory.content (memories (snd secondAnswerOnce))
               = [Some (firstAnswer +:+ newline +:+ newline +:+ secondAnswer)])
    by (vm_compute; reflexivity).
  assert (H2 : map Memory.content (memories (snd secondAnswerTwice))
               = [Some (firstAnswer +:+ newline +:+ newline +:+ secondAnswer
                        +:+ newline +:+ newline +:+ secondAnswer)])
    by (vm_compute; reflexivity).
  split; [exact H1|]. split; [eexists; vm_compute; reflexivity|].
  split; [vm_compute; discriminate|]. split; [exact H2|].
  intros E. rewrite E, H1 in H2. vm_compute in H2. discriminate H2.
Qed.

(** ** Scores *)

Lemma getProp_countTerm_inherited frequencies term name :
  getProp frequencies name = Some NotNumeric ->
  getProp (countTerm frequencies term) name = Some NotNumeric.
Proof.
  intros H. unfold countTerm, setProp.
  destruct (String.eqb term "__proto__"); [exact H|].
  unfold getProp. destruct (decide (term = name)) as [->|Hne].
  - rewrite lookup_insert_eq. unfold getProp in H |- *.
    destruct (frequencies !! name) as [v|].
    + injection H as ->. reflexivity.
    + destruct (inherited name); [reflexivity | discriminate].
  - rewrite lookup_insert_ne by exact Hne. exact H.
Qed.

Lemma getProp_fold_inherited terms frequencies name :
  getProp frequencies name = Some NotNumeric ->
  getProp (fold_left countTerm terms frequencies) name = Some NotNumeric.
Proof.
  revert frequencies. induction terms as [|t r IH]; intros frequencies H; simpl.
  - exact H.
  - apply IH. apply getProp_countTerm_inherited. exact H.
Qed.

(** A property name of [Object.prototype] never reads as a count. *)
Lemma getTermFrequencies_inherited terms name :
  inherited name = true ->
  getProp (getTermFrequencies terms) name = Some NotNumeric.
Proof.
  intros H. unfold getTermFrequencies. apply (getProp_fold_inherited terms ∅ name).
  unfold getProp. rewrite lookup_empty, H. reflexivity.
Qed.

Lemma addN_NaN_r (x : Number R) : addN x NaN = NaN.
Proof. destruct x; reflexivity. Qed.

Lemma fold_addTerm_NaN counts len docs queryTerms :
  fold_left (addTerm counts len docs) queryTerms NaN = NaN.
Proof. induction queryTerms as [|t r IH]; simpl; [reflexivity | exact IH]. Qed.

(** A query term that names a property of [Object.prototype] makes the
    score of every document [NaN]. *)
Lemma calculateDocumentScore_inherited_term queryTerms docTerms allDocuments name :
  In name queryTerms -> inherited name = true ->
  calculateDocumentScore queryTerms docTerms allDocuments = NaN.
Proof.
  intros Hin Hname. unfold calculateDocumentScore. cbv zeta.
  assert (H : fold_left (addTerm (getTermFrequencies docTerms) (length docTerms) allDocuments)
                        queryTerms zeroR = NaN).
  { generalize zeroR as acc. induction queryTerms as [|t r IH]; intros acc; [destruct Hin|].
    simpl. destruct Hin as [->|Hin].
    - unfold addTerm at 2. cbv zeta.
      rewrite (getTermFrequencies_inherited docTerms name Hname). simpl.
      rewrite addN_NaN_r. apply fold_addTerm_NaN.
    - apply IH. exact Hin. }
  rewrite H. reflexivity.
Qed.

Lemma score_calculateTFIDFScores query memories :
  map score (calculateTFIDFScores query memories) =
  map (fun memory =>
         calculateDocumentScore (preprocessText query) (preprocessText (documentText memory))
           (map (fun other => preprocessText (documentText other)) memories))
      memories.
Proof.
  unfold calculateTFIDFScores. destruct memories as [|m r]; [reflexivity|].
  set (ms := m :: r). rewrite !map_map. apply map_ext. intros memory. reflexivity.
Qed.

Lemma doc_calculateTFIDFScores query memories :
  map doc (calculateTFIDFScores query memories) = memories.
Proof.
  unfold calculateTFIDFScores. destruct memories as [|m r]; [reflexivity|].
  set (ms := m :: r). rewrite !map_map.
  transitivity (map (fun x : Memory.t => x) ms);
    [apply map_ext; intros memory; reflexivity | apply List.map_id].
Qed.

Lemma slice_nil {A : Type} (start end_ : Z) : slice (@nil A) start end_ = [].
Proof. unfold slice. cbv zeta. rewrite skipn_nil. apply firstn_nil. Qed.

(** When a query term names a property of [Object.prototype], every
    document scores [NaN] and a search that is not served from the cache
    returns nothing. *)
Lemma inherited_query_term_finds_nothing query limit page memories name :
  In name (preprocessText query) -> inherited name = true ->
  Forall (fun s => s = NaN) (map score (calculateTFIDFScores query memories)) /\
  rankedResults query limit page memories = [].
Proof.
  intros Hin Hname.
  assert (H : Forall (fun s => s = NaN) (map score (calculateTFIDFScores query memories))).
  { rewrite score_calculateTFIDFScores. apply Forall_map. apply List.Forall_forall.
    intros memory _. eapply calculateDocumentScore_inherited_term; eassumption. }
  split; [exact H|].
  unfold rankedResults. cbv zeta. rewrite filter_none;
    [unfold sort; cbn [fold_right]; rewrite slice_nil; reflexivity|].
  rewrite Forall_map in H. eapply Forall_impl; [exact H|].
  intros d Hd. simpl in Hd. rewrite Hd. reflexivity.
Qed.

(** C9 at the failing input.  The query term [constructor], which
    [preprocessText] lets through, gives every document of every corpus
    the score [NaN]: the term is looked up in a plain object, where it
    finds the function inherited from [Object.prototype].  On a store
    with a note about the constructor pattern, the query
    [constructor pattern] scores both notes [NaN] and returns nothing. *)
Theorem constructor_query_scores_NaN :
  (forall docTerms allDocuments,
      calculateDocumentScore ["constructor"] docTerms allDocuments = NaN) /\
  preprocessText "constructor pattern" = ["constructor"; "pattern"] /\
  map score (calculateTFIDFScores "constructor pattern" [patternNote; gardenNote])
    = [NaN; NaN] /\
  fst (getRelevantMemories chatEnv "constructor pattern" 5 0 twoNotes) = [].
Proof.
  assert (Hq : preprocessText "constructor pattern" = ["constructor"; "pattern"])
    by (vm_compute; reflexivity).
  assert (Hin : In "constructor" (preprocessText "constructor pattern"))
    by (rewrite Hq; left; reflexivity).
  split.
  { intros d a. apply (calculateDocumentScore_inherited_term _ d a "constructor");
      [left|]; reflexivity. }
  split; [exact Hq|].
  destruct (inherited_query_term_finds_nothing "constructor pattern" 5 0
              [patternNote; gardenNote] "constructor" Hin eq_refl) as [Hs Hr].
  split.
  { rewrite score_calculateTFIDFScores in Hs |- *.
    cbn [map] in Hs |- *.
    pose proof (List.Forall_inv Hs) as H1.
    pose proof (List.Forall_inv (List.Forall_inv_tail Hs)) as H2.
    cbv beta in H1, H2. rewrite H1, H2. reflexivity. }
  unfold getRelevantMemories. rewrite init_initialized by reflexivity. cbv zeta.
  replace (String.eqb "constructor pattern" EmptyString
           || (String.length (trim "constructor pattern") <? 3)%nat) with false
    by (vm_compute; reflexivity).
  replace (searchCache twoNotes !! cacheKey "constructor pattern" 5 0) with (@None CacheEntry)
    by (vm_compute; reflexivity).
  unfold searchAndCache. cbv zeta. cbn [fst].
  change (memories twoNotes) with [patternNote; gardenNote].
  exact Hr.
Qed.

Lemma onlyCounts_countTerm frequencies term :
  onlyCounts frequencies -> onlyCounts (countTerm frequencies term).
Proof.
  intros H name v Hname. unfold countTerm, setProp.
  destruct (String.eqb term "__proto__"); [apply H; exact Hname|].
  destruct (decide (term = name)) as [->|Hne].
  - rewrite lookup_insert_eq. intros [= <-]. unfold getProp.
    destruct (frequencies !! name) as [w|] eqn:E.
    + destruct (H name w Hname E) as [n ->]. eexists. reflexivity.
    + rewrite Hname. eexists. reflexivity.
  - rewrite lookup_insert_ne by exact Hne. apply H. exact Hname.
Qed.

Lemma onlyCounts_getTermFrequencies terms : onlyCounts (getTermFrequencies terms).
Proof.
  unfold getTermFrequencies.
  assert (H : forall f, onlyCounts f -> onlyCounts (fold_left countTerm terms f)).
  { induction terms as [|t r IH]; intros f Hf; simpl; [exact Hf|].
    apply IH. apply onlyCounts_countTerm. exact Hf. }
  apply H. intros name v _ E. rewrite lookup_empty in E. discriminate.
Qed.

Lemma divN_finite (a b : R) :
  (b <> 0)%R -> divN (Fin a) (Fin b) = Fin (a / b)%R.
Proof. intros Hb. simpl. destruct (Req_dec_T b 0); [contradiction | reflexivity]. Qed.

Lemma INR_max_1_pos (n : nat) : (0 < INR (Nat.max n 1))%R.
Proof. apply lt_0_INR. lia. Qed.

Lemma div_nonneg (a b : R) : (0 <= a)%R -> (0 < b)%R -> (0 <= a / b)%R.
Proof.
  intros Ha Hb. unfold Rdiv. apply Rmult_le_pos; [exact Ha|].
  left. apply Rinv_0_lt_compat. exact Hb.
Qed.

(** The term frequency of a term that [Object.prototype] does not name
    is a finite number that is not negative. *)
Lemma termFrequency_finite docTerms queryTerm :
  inherited queryTerm = false ->
  exists tf, (0 <= tf)%R /\
    divN (orZeroToNumber (getProp (getTermFrequencies docTerms) queryTerm))
         (ofNat (Nat.max (length docTerms) 1)) = Fin tf.
Proof.
  intros Hq. pose proof (INR_max_1_pos (length docTerms)) as Hpos.
  assert (Hne : (INR (Nat.max (length docTerms) 1) <> 0)%R) by lra.
  unfold getProp. rewrite Hq.
  destruct (getTermFrequencies docTerms !! queryTerm) as [v|] eqn:E.
  - destruct (onlyCounts_getTermFrequencies docTerms queryTerm v Hq E) as [n ->].
    unfold orZeroToNumber, ofNat. rewrite divN_finite by exact Hne.
    eexists. split; [|reflexivity]. apply div_nonneg; [apply pos_INR | exact Hpos].
  - unfold orZeroToNumber, zeroR, ofNat. rewrite divN_finite by exact Hne.
    eexists. split; [|reflexivity]. apply div_nonneg; [lra | exact Hpos].
Qed.

Lemma ln_nonneg (x : R) : (1 <= x)%R -> (0 <= ln x)%R.
Proof.
  intros [Hlt|<-].
  - left. rewrite <- ln_1. apply ln_increasing; lra.
  - rewrite ln_1. lra.
Qed.

(** The inverse document frequency is a finite number that is not
    negative: it is 0 for a term that no document contains, and the
    logarithm of a ratio that is at least 1 otherwise. *)
Lemma calculateIDF_finite term documents :
  exists idf, (0 <= idf)%R /\ calculateIDF term documents = Fin idf.
Proof.
  unfold calculateIDF. cbv zeta.
  set (p := fun docTerms => includesTerm docTerms term).
  pose proof (length_filter_le p documents) as Hle.
  destruct (length (List.filter p documents)) as [|k] eqn:E.
  - exists 0%R. split; [lra | reflexivity].
  - assert (Hk : (0 < INR (S k))%R) by (apply lt_0_INR; lia).
    assert (Hn : (INR (S k) <= INR (length documents))%R) by (apply le_INR; exact Hle).
    unfold ofNat. rewrite divN_finite by lra.
    assert (Hr : (1 <= INR (length documents) / INR (S k))%R).
    { apply (Rmult_le_reg_r (INR (S k))); [exact Hk|].
      unfold Rdiv. rewrite Rmult_assoc, Rinv_l by lra. lra. }
    unfold logN.
    destruct (Rlt_dec _ 0) as [Hneg|_]; [lra|].
    destruct (Req_dec_T _ 0) as [Hz|_]; [lra|].
    eexists. split; [|reflexivity]. apply ln_nonneg. exact Hr.
Qed.

Lemma fold_addTerm_finite counts docTerms docs queryTerms acc :
  counts = getTermFrequencies docTerms ->
  Forall (fun t => inherited t = false) queryTerms ->
  (0 <= acc)%R ->
  exists s, (0 <= s)%R /\
    fold_left (addTerm counts (length docTerms) docs) queryTerms (Fin acc) = Fin s.
Proof.
  intros -> Hq. revert acc.
  induction Hq as [|t r Ht _ IH]; intros acc Hacc; cbn [fold_left].
  - exists acc. split; [exact Hacc | reflexivity].
  - unfold addTerm at 2. cbv zeta.
    destruct (termFrequency_finite docTerms t Ht) as (tf & Htf & ->).
    destruct (calculateIDF_finite t docs) as (idf & Hidf & ->).
    cbn [mulN addN]. apply IH. apply Rplus_le_le_0_compat; [exact Hacc|].
    apply Rmult_le_pos; assumption.
Qed.

(** The part of C9 that holds: when no query term names a property of
    [Object.prototype], the score of a document is a finite number that
    is not negative, whatever the document and the corpus. *)
Lemma calculateDocumentScore_nonneg queryTerms docTerms allDocuments :
  Forall (fun t => inherited t = false) queryTerms ->
  exists s, (0 <= s)%R /\
    calculateDocumentScore queryTerms docTerms allDocuments = Fin s.
Proof.
  intros Hq. unfold calculateDocumentScore. cbv zeta.
  destruct (fold_addTerm_finite (getTermFrequencies docTerms) docTerms allDocuments
              queryTerms 0%R eq_refl Hq (Rle_refl 0)) as (s & Hs & E).
  unfold zeroR. rewrite E.
  pose proof (INR_max_1_pos (length queryTerms)) as Hpos.
  unfold ofNat. rewrite divN_finite by lra.
  eexists. split; [|reflexivity]. apply div_nonneg; assumption.
Qed.

(** ** The search cache *)

Lemma calculateIDF_value term documents k :
  length (List.filter (fun docTerms => includesTerm docTerms term) documents) = S k ->
  calculateIDF term documents = Fin (ln (INR (length documents) / INR (S k))).
Proof.
  intros E. unfold calculateIDF. cbv zeta. rewrite E.
  pose proof (length_filter_le (fun docTerms => includesTerm docTerms term) documents) as Hle.
  rewrite E in Hle.
  assert (Hk : (0 < INR (S k))%R) by (apply lt_0_INR; lia).
  assert (Hn : (INR (S k) <= INR (length documents))%R) by (apply le_INR; exact Hle).
  unfold ofNat. rewrite divN_finite by lra.
  assert (Hr : (1 <= INR (length documents) / INR (S k))%R).
  { apply (Rmult_le_reg_r (INR (S k))); [exact Hk|].
    unfold Rdiv. rewrite Rmult_assoc, Rinv_l by lra. lra. }
  unfold logN.
  destruct (Rlt_dec _ 0) as [Hneg|_]; [lra|].
  destruct (Req_dec_T _ 0) as [Hz|_]; [lra|].
  reflexivity.
Qed.

Lemma termFrequency_value counts queryTerm len x :
  orZeroToNumber (getProp counts queryTerm) = Fin x ->
  divN (orZeroToNumber (getProp counts queryTerm)) (ofNat (Nat.max len 1))
  = Fin (x / INR (Nat.max len 1))%R.
Proof.
  intros ->. pose proof (INR_max_1_pos len). unfold ofNat. apply divN_finite. lra.
Qed.

Lemma memories_getRelevantMemories env query limit page e :
  memories (snd (getRelevantMemories env query limit page e)) = memories (init env e).
Proof.
  unfold getRelevantMemories. cbv zeta.
  destruct (_ || _); [reflexivity|].
  destruct (searchCache (init env e) !! _) as [cached|]; [destruct (_ <? _)%Z|]; reflexivity.
Qed.

(** A search that finds a fresh enough entry under its key returns the
    cached results, whatever the stored records are by then. *)
Lemma getRelevantMemories_cached env query limit page e cached :
  initialized e = true ->
  (3 <= String.length (trim query))%nat ->
  searchCache e !! cacheKey query limit page = Some cached ->
  (now env - cachedAt cached < cacheTimeout e)%Z ->
  getRelevantMemories env query limit page e = (results cached, e).
Proof.
  intros Hi Hq Hc Hfresh. unfold getRelevantMemories.
  rewrite (init_initialized _ _ Hi). cbv zeta.
  assert (Hne : String.eqb query EmptyString = false).
  { destruct query; [simpl in Hq; lia | reflexivity]. }
  apply Nat.ltb_ge in Hq. rewrite Hne, Hq. cbn [orb].
  rewrite Hc. apply Z.ltb_lt in Hfresh. rewrite Hfresh. reflexivity.
Qed.

(** The save that appends to a conversation: the record found is
    replaced by the record with the content appended, and the search
    cache is left as it is. *)
Lemma saveMemory_merge env content metadata e i existing :
  initialized e = true ->
  isDuplicate (memories e) (buildMemory env content metadata) = Ok false ->
  findActiveConversation env (memories e) (buildMemory env content metadata)
    = Some (i, existing) ->
  let updated := appendToConversation env existing (buildMemory env content metadata) in
  saveMemory env content metadata e =
    (Ok (Some updated), persist env (setMemories e (<[i := updated]> (memories e)))) /\
  searchCache (snd (saveMemory env content metadata e)) = searchCache e.
Proof.
  intros Hi Hd Hf. cbv zeta. unfold saveMemory.
  rewrite (init_initialized _ _ Hi). cbv zeta. rewrite Hd, Hf.
  split; [reflexivity|]. cbn [snd]. rewrite searchCache_persist. reflexivity.
Qed.

(** The other mutations empty the search cache: a save that stores a
    new record, a delete, and an import that succeeds. *)
Lemma mutations_clear_cache env e :
  (forall content metadata m,
      fst (saveMemory env content metadata e) = Ok (Some m) ->
      Memory.lastUpdated m = None ->
      searchCache (snd (saveMemory env content metadata e)) = ∅) /\
  (forall id, searchCache (deleteMemory env id e) = ∅) /\
  (forall id, fst (deleteMemoryById env id e) = true ->
              searchCache (snd (deleteMemoryById env id e)) = ∅) /\
  (forall (A : Type) (I : Importable A) (jsonData : Decoded A) merge report,
      fst (importMemories env jsonData merge e) = Ok report ->
      searchCache (snd (importMemories env jsonData merge e)) = ∅).
Proof.
  repeat split.
  - intros content metadata m. unfold saveMemory. cbv zeta.
    destruct (isDuplicate _ _) as [[|]|err]; try (cbn [fst]; discriminate).
    destruct (findActiveConversation _ _ _) as [[i existing]|]; cbn [fst snd].
    + intros [= <-]. cbn. discriminate.
    + intros _ _. rewrite searchCache_persist. reflexivity.
  - intros id. unfold deleteMemory. rewrite searchCache_persist. reflexivity.
  - intros id. unfold deleteMemoryById.
    destruct (findIndex _ _); cbn [fst snd]; [|discriminate].
    intros _. rewrite searchCache_persist. reflexivity.
  - intros A I jsonData merge report. unfold importMemories. cbv zeta.
    destruct jsonData as [message| |elements]; cbn [fst snd]; try discriminate.
    destruct merge; [destruct (filterResult _ elements)|]; cbn [fst snd]; try discriminate;
      intros _; rewrite searchCache_persist; reflexivity.
Qed.
Lemma calculateTFIDFScores_two query m1 m2 :
  calculateTFIDFScores query [m1; m2] =
  [ {| doc := m1; terms := preprocessText (documentText m1);
       score := calculateDocumentScore (preprocessText query) (preprocessText (documentText m1))
                  [preprocessText (documentText m1); preprocessText (documentText m2)] |};
    {| doc := m2; terms := preprocessText (documentText m2);
       score := calculateDocumentScore (preprocessText query) (preprocessText (documentText m2))
                  [preprocessText (documentText m1); preprocessText (documentText m2)] |} ].
Proof. reflexivity. Qed.

Lemma terms_answerNote : preprocessText (documentText answerNote) = answerTerms.
Proof. vm_compute. reflexivity. Qed.
Lemma terms_gardenNote : preprocessText (documentText gardenNote) = gardenTerms.
Proof. vm_compute. reflexivity. Qed.
Lemma terms_containersQuery : preprocessText containersQuery = ["containers"; "dictionaries"].
Proof. vm_compute. reflexivity. Qed.

Lemma score_answerNote :
  exists x, (5 / 100 < x)%R /\
  calculateDocumentScore ["containers"; "dictionaries"] answerTerms [answerTerms; gardenTerms]
  = Fin x.
Proof.
  unfold calculateDocumentScore. cbv zeta. cbn [fold_left]. unfold addTerm. cbv zeta.
  rewrite !(termFrequency_value _ _ _ 2%R) by (vm_compute; reflexivity).
  rewrite !(calculateIDF_value _ _ 0) by (vm_compute; reflexivity).
  unfold zeroR. cbn [mulN addN]. unfold ofNat.
  change (length answerTerms `max` 1)%nat with 10%nat.
  change (length ["containers"; "dictionaries"] `max` 1)%nat with 2%nat.
  change (length [answerTerms; gardenTerms]) with 2%nat.
  rewrite !INR_IZR_INZ.
  change (Z.of_nat 10) with 10%Z. change (Z.of_nat 2) with 2%Z. change (Z.of_nat 1) with 1%Z.
  rewrite divN_finite by lra.
  eexists. split; [|reflexivity].
  replace (2 / 1)%R with 2%R by lra.
  pose proof ln_lt_2. lra.
Qed.

Lemma score_gardenNote :
  exists x, (x <= 0)%R /\
  calculateDocumentScore ["containers"; "dictionaries"] gardenTerms [answerTerms; gardenTerms]
  = Fin x.
Proof.
  unfold calculateDocumentScore. cbv zeta. cbn [fold_left]. unfold addTerm. cbv zeta.
  rewrite !(termFrequency_value _ _ _ 0%R) by (vm_compute; reflexivity).
  rewrite !(calculateIDF_value _ _ 0) by (vm_compute; reflexivity).
  unfold zeroR. cbn [mulN addN]. unfold ofNat.
  change (length gardenTerms `max` 1)%nat with 12%nat.
  change (length ["containers"; "dictionaries"] `max` 1)%nat with 2%nat.
  change (length [answerTerms; gardenTerms]) with 2%nat.
  rewrite !INR_IZR_INZ.
  change (Z.of_nat 12) with 12%Z. change (Z.of_nat 2) with 2%Z. change (Z.of_nat 1) with 1%Z.
  rewrite divN_finite by lra.
  eexists. split; [|reflexivity].
  lra.
Qed.

Lemma searchBefore_computed :
  exists x, (5 / 100 < x)%R /\
    let found := [Scored {| doc := answerNote; terms := answerTerms; score := Fin x |}] in
    searchBefore =
      (found,
       setSearchCache twoAnswers
         (<[cacheKey containersQuery 5 0 :=
              {| results := found; cachedAt := now (later 1000 chatEnv) |}]> ∅)).
Proof.
  destruct score_answerNote as (x & Hx & Ex).
  destruct score_gardenNote as (y & Hy & Ey).
  exists x. split; [exact Hx|]. cbv zeta.
  unfold searchBefore, getRelevantMemories. rewrite init_initialized by reflexivity. cbv zeta.
  replace (String.eqb containersQuery EmptyString
           || (String.length (trim containersQuery) <? 3)%nat) with false
    by (vm_compute; reflexivity).
  replace (searchCache twoAnswers !! cacheKey containersQuery 5 0) with (@None CacheEntry)
    by (vm_compute; reflexivity).
  unfold searchAndCache, rankedResults. cbv zeta.
  change (memories twoAnswers) with [answerNote; gardenNote].
  change (searchCache twoAnswers) with (∅ : gmap string CacheEntry).
  rewrite calculateTFIDFScores_two.
  rewrite terms_answerNote, terms_gardenNote, terms_containersQuery, Ex, Ey.
  cbn [List.filter score gtN].
  destruct (Rlt_dec (5 / 100) x) as [_|N]; [|contradiction].
  destruct (Rlt_dec (5 / 100) y) as [L|_]; [lra|].
  unfold sort. cbn [fold_right insertSorted].
  change (0 * 5)%Z with 0%Z. change ((0 + 1) * 5)%Z with (Z.of_nat 5).
  rewrite slice_from_0. cbn [firstn map]. reflexivity.
Qed.

(** C1 at the failing input.  A search caches the record of
    [firstAnswer]; a second later a save appends [secondAnswer] to that
    record, and the search cache is left as it was; a second after the
    save, the same search is served from the cache: it returns the copy
    of the record made before the save, whose content no stored record
    has any more. *)
Theorem merged_save_serves_stale_results :
  map resultContent (fst searchBefore) = [Some firstAnswer] /\
  (exists m, fst mergingSave = Ok (Some m) /\ Memory.content m = Some mergedAnswers) /\
  map Memory.content (memories (snd mergingSave))
    = [Some mergedAnswers; Memory.content gardenNote] /\
  searchCache (snd mergingSave) = searchCache (snd searchBefore) /\
  fst searchAfter = fst searchBefore /\
  map resultContent (fst searchAfter) = [Some firstAnswer] /\
  ~ In (Some firstAnswer) (map Memory.content (memories (snd mergingSave))).
Proof.
  destruct searchBefore_computed as (x & Hx & Hbefore). cbv zeta in Hbefore.
  set (found := [Scored {| doc := answerNote; terms := answerTerms; score := Fin x |}]) in *.
  set (entry := {| results := found; cachedAt := now (later 1000 chatEnv) |}) in *.
  set (e1 := setSearchCache twoAnswers (<[cacheKey containersQuery 5 0 := entry]> ∅)) in *.
  assert (Hcontent : map resultContent found = [Some firstAnswer])
    by (vm_compute; reflexivity).
  (* the save *)
  assert (Hdup : isDuplicate (memories e1)
                   (buildMemory (later 2000 chatEnv) secondAnswer noMetadata) = Ok false)
    by (vm_compute; reflexivity).
  assert (Hact : findActiveConversation (later 2000 chatEnv) (memories e1)
                   (buildMemory (later 2000 chatEnv) secondAnswer noMetadata)
                 = Some (0%nat, answerNote))
    by (vm_compute; reflexivity).
  destruct (saveMemory_merge (later 2000 chatEnv) secondAnswer noMetadata e1 0 answerNote
              eq_refl Hdup Hact) as [Hsave Hcache].
  assert (Hmerge : mergingSave = saveMemory (later 2000 chatEnv) secondAnswer noMetadata e1)
    by (unfold mergingSave; rewrite Hbefore; reflexivity).
  assert (Hmem : map Memory.content (memories (snd mergingSave))
                 = [Some mergedAnswers; Memory.content gardenNote]).
  { rewrite Hmerge, Hsave. cbn [snd]. rewrite memories_persist.
    vm_compute. reflexivity. }
  (* the second search *)
  assert (Hafter : searchAfter = (found, snd mergingSave)).
  { unfold searchAfter. apply getRelevantMemories_cached with (cached := entry).
    - rewrite Hmerge, Hsave. cbn [snd]. rewrite initialized_persist. reflexivity.
    - vm_compute. lia.
    - rewrite Hmerge, Hcache. apply lookup_insert_eq.
    - rewrite Hmerge, Hsave. cbn [snd]. unfold persist. cbn. lia. }
  rewrite Hafter, Hbefore. cbn [fst snd]. rewrite <- Hmerge in Hcache.
  split; [exact Hcontent|]. split.
  { rewrite Hmerge, Hsave. eexists. split; [reflexivity|]. vm_compute. reflexivity. }
  split; [exact Hmem|]. split; [exact Hcache|]. split; [reflexivity|].
  split; [exact Hcontent|].
  rewrite Hmem. intros [H|[H|[]]]; vm_compute in H; discriminate H.
Qed.

(** * Further properties of the engine *)

(** ** Similarity *)

(** The similarity does not depend on the order of the two texts, and
    a text has similarity 1 with itself. *)
Theorem calculateSimilarity_symmetric (text1 text2 : string) :
  calculateSimilarity text1 text2 = calculateSimilarity text2 text1 /\
  exists q, calculateSimilarity text1 text1 = Fin q /\ (q == 1)%Q.
Proof.
  split.
  - rewrite !calculateSimilarity_sets.
    replace (wordSet text2 ∩ wordSet text1) with (wordSet text1 ∩ wordSet text2)
      by (apply set_eq; intros x; rewrite !elem_of_intersection; tauto).
    replace (wordSet text2 ∪ wordSet text1) with (wordSet text1 ∪ wordSet text2)
      by (apply set_eq; intros x; rewrite !elem_of_union; tauto).
    reflexivity.
  - rewrite calculateSimilarity_sets.
    replace (wordSet text1 ∩ wordSet text1) with (wordSet text1)
      by (apply set_eq; intros x; rewrite elem_of_intersection; tauto).
    pose proof (size_union_pos text1 text1) as Hpos.
    replace (wordSet text1 ∪ wordSet text1) with (wordSet text1) in *
      by (apply set_eq; intros x; rewrite elem_of_union; tauto).
    destruct (size (wordSet text1)) as [|n] eqn:E; [lia|].
    eexists. split; [reflexivity|].
    unfold Qeq. cbn [Qnum Qden]. lia.
Qed.

Lemma divSizes_same (n : nat) :
  (1 <= n)%nat -> gtQ (divSizes n n) (85 # 100) = true.
Proof.
  intros Hn. destruct n as [|k]; [lia|]. cbn [divSizes gtQ].
  apply negb_true_iff. apply not_true_iff_false. intros H.
  apply Qle_bool_iff in H. unfold Qle in H. cbn [Qnum Qden] in H. lia.
Qed.

(** Two texts with the same set of lowercased tokens (the same words in
    another letter case, order, number or spacing) are duplicates of
    each other: a candidate is reported as a duplicate as soon as the
    first stored record has such a content. *)
Theorem same_words_are_duplicates
    (memory candidate : Memory.t) (rest : list Memory.t) (text1 text2 : string) :
  Memory.content memory = Some text1 ->
  Memory.content candidate = Some text2 ->
  wordSet text1 = wordSet text2 ->
  isDuplicate (memory :: rest) candidate = Ok true.
Proof.
  intros H1 H2 Hw. cbn [isDuplicate].
  destruct (bool_decide _); [reflexivity|].
  rewrite H1, H2, calculateSimilarity_sets, Hw.
  replace (wordSet text2 ∩ wordSet text2) with (wordSet text2)
    by (apply set_eq; intros x; rewrite elem_of_intersection; tauto).
  pose proof (size_union_pos text2 text2) as Hpos.
  replace (wordSet text2 ∪ wordSet text2) with (wordSet text2) in *
    by (apply set_eq; intros x; rewrite elem_of_union; tauto).
  rewrite divSizes_same by exact Hpos. reflexivity.
Qed.

Lemma same_words_are_duplicates_witness :
  isDuplicate [withContent "Close the file"; emptyObject]
              (withContent "the FILE  close the file") = Ok true.
Proof.
  apply (same_words_are_duplicates _ _ _ "Close the file" "the FILE  close the file");
    [reflexivity | reflexivity | vm_compute; reflexivity].
Defined.

(** ** Counting terms *)

Lemma proto_is_inherited (t : string) :
  inherited t = false -> String.eqb t "__proto__" = false.
Proof.
  intros H. destruct (String.eqb t "__proto__") eqn:E; [|reflexivity].
  apply String.eqb_eq in E. subst t. discriminate H.
Qed.

Lemma lookup_fold_countTerm (t : string) (terms : list string)
    (frequencies : gmap string PropValue) (c : nat) :
  inherited t = false ->
  frequencies !! t = ofCount c ->
  fold_left countTerm terms frequencies !! t = ofCount (c + count_occ string_dec terms t).
Proof.
  intros Ht. revert frequencies c.
  induction terms as [|x r IH]; intros frequencies c Hc; cbn [fold_left count_occ].
  - rewrite Nat.add_0_r. exact Hc.
  - destruct (string_dec x t) as [->|Hne].
    + replace (c + S (count_occ string_dec r t))%nat
        with (S c + count_occ string_dec r t)%nat by lia.
      apply IH. unfold countTerm, setProp. rewrite (proto_is_inherited t Ht).
      rewrite lookup_insert_eq. unfold getProp. rewrite Hc, Ht.
      destruct c as [|k]; cbn [ofCount orZeroPlusOne]; [reflexivity|].
      do 2 f_equal. lia.
    + apply IH. unfold countTerm, setProp.
      destruct (String.eqb x "__proto__"); [exact Hc|].
      rewrite lookup_insert_ne by exact Hne. exact Hc.
Qed.

(** For a term that is not a property name of [Object.prototype], the
    object built by [getTermFrequencies] holds the number of occurrences
    of the term in the list, and holds nothing for a term that does not
    occur. *)
Theorem getTermFrequencies_counts (terms : list string) (t : string) :
  inherited t = false ->
  getProp (getTermFrequencies terms) t = ofCount (count_occ string_dec terms t).
Proof.
  intros Ht. unfold getProp, getTermFrequencies.
  rewrite (lookup_fold_countTerm t terms ∅ 0 Ht) by apply lookup_empty.
  cbn [Nat.add]. rewrite Ht.
  destruct (count_occ string_dec terms t); reflexivity.
Qed.

Lemma getTermFrequencies_counts_witness :
  getProp (getTermFrequencies ["fix"; "python"; "fix"]) "fix"
  = ofCount (count_occ string_dec ["fix"; "python"; "fix"] "fix").
Proof. apply getTermFrequencies_counts. reflexivity. Defined.

(** ** The range of the classifier *)

(** The category of a content is always one of the eight categories. *)
Theorem categorizeContent_in_categories (content : string) :
  In (categorizeContent content) categories.
Proof.
  unfold categorizeContent. cbv zeta.
  repeat match goal with
         | |- context [if ?b then _ else _] => destruct b
         end;
    unfold categories; cbn [In]; tauto.
Qed.

(** ** Tags *)

Lemma In_dedupe (x : string) (l : list string) : In x (dedupe l) <-> In x l.
Proof.
  induction l as [|y r IH]; cbn [dedupe In]; [tauto|].
  rewrite List.filter_In, IH. split.
  - intros [H|[H _]]; auto.
  - intros [H|H]; [left; exact H|].
    destruct (string_dec y x) as [E|N]; [left; exact E|].
    right. split; [exact H|]. apply negb_true_iff. apply String.eqb_neq. exact N.
Qed.

Lemma NoDup_dedupe (l : list string) : List.NoDup (dedupe l).
Proof.
  induction l as [|y r IH]; cbn [dedupe]; constructor.
  - rewrite List.filter_In. intros [_ H].
    apply negb_true_iff in H. apply String.eqb_neq in H. apply H. reflexivity.
  - apply List.NoDup_filter. exact IH.
Qed.

(** The tags of a content hold no tag twice; a tag is a hashtag of the
    content or a technical term that the lowercased content includes. *)
Theorem extractTags_distinct (content : string) :
  List.NoDup (extractTags content) /\
  forall tag, In tag (extractTags content) <->
              In tag (scanTags None content) \/
              (In tag technicalTerms /\ includes tag (toLowerCase content) = true).
Proof.
  unfold extractTags. cbv zeta. split; [apply NoDup_dedupe|].
  intros tag. rewrite In_dedupe, List.in_app_iff, List.filter_In. tauto.
Qed.

(** ** A corpus of one document *)

Lemma calculateIDF_single (term : string) (docTerms : list string) :
  exists v, calculateIDF term [docTerms] = Fin v /\ v = 0%R.
Proof.
  destruct (includesTerm docTerms term) eqn:E.
  - exists (ln (INR 1 / INR 1)). split.
    + apply (calculateIDF_value term [docTerms] 0). cbn [List.filter]. rewrite E. reflexivity.
    + replace (INR 1 / INR 1)%R with 1%R by (cbn [INR]; lra). apply ln_1.
  - exists 0%R. split; [|reflexivity].
    unfold calculateIDF. cbn [List.filter]. rewrite E. reflexivity.
Qed.

Lemma termFrequency_shape counts queryTerm len :
  divN (orZeroToNumber (getProp counts queryTerm)) (ofNat (Nat.max len 1)) = NaN \/
  exists v, divN (orZeroToNumber (getProp counts queryTerm)) (ofNat (Nat.max len 1)) = Fin v.
Proof.
  pose proof (INR_max_1_pos len) as Hpos.
  destruct (getProp counts queryTerm) as [[n|]|]; cbn [orZeroToNumber].
  - right. unfold ofNat. rewrite divN_finite by lra. eexists. reflexivity.
  - left. reflexivity.
  - right. unfold zeroR, ofNat. rewrite divN_finite by lra. eexists. reflexivity.
Qed.

Lemma addTerm_single counts len docTerms acc queryTerm :
  zeroOrNaN acc -> zeroOrNaN (addTerm counts len [docTerms] acc queryTerm).
Proof.
  intros Hacc. unfold addTerm. cbv zeta.
  destruct (calculateIDF_single queryTerm docTerms) as (v & -> & ->).
  destruct (termFrequency_shape counts queryTerm len) as [->|[tf ->]].
  - left. cbn [mulN]. apply addN_NaN_r.
  - cbn [mulN]. destruct Hacc as [->|(a & -> & ->)]; [left; reflexivity|].
    right. cbn [addN]. eexists. split; [reflexivity|]. lra.
Qed.

Lemma calculateDocumentScore_single queryTerms docTerms :
  zeroOrNaN (calculateDocumentScore queryTerms docTerms [docTerms]).
Proof.
  unfold calculateDocumentScore. cbv zeta.
  assert (H : forall acc, zeroOrNaN acc ->
                zeroOrNaN (fold_left (addTerm (getTermFrequencies docTerms) (length docTerms)
                                              [docTerms]) queryTerms acc)).
  { induction queryTerms as [|t r IH]; intros acc Hacc; cbn [fold_left]; [exact Hacc|].
    apply IH. apply addTerm_single. exact Hacc. }
  destruct (H zeroR) as [->|(v & -> & ->)].
  - right. exists 0%R. split; reflexivity.
  - left. reflexivity.
  - right. pose proof (INR_max_1_pos (length queryTerms)) as Hpos.
    unfold ofNat. rewrite divN_finite by lra. eexists. split; [reflexivity|].
    unfold Rdiv. lra.
Qed.

(** With a single stored record, every score is zero or not a number
    (each term is in all documents or in none, so each inverse document
    frequency is 0): a search that is not served from the cache returns
    nothing, whatever the query. *)
Theorem single_record_is_never_found
    (env : Env) (query : string) (limit page : Z) (e : Engine) (m : Memory.t) :
  initialized e = true ->
  memories e = [m] ->
  (3 <= String.length (trim query))%nat ->
  searchCache e !! cacheKey query limit page = None ->
  fst (getRelevantMemories env query limit page e) = [].
Proof.
  intros Hi Hm Hq Hc. unfold getRelevantMemories.
  rewrite (init_initialized _ _ Hi). cbv zeta.
  assert (Hne : String.eqb query EmptyString = false).
  { destruct query; [cbn in Hq; lia | reflexivity]. }
  apply Nat.ltb_ge in Hq. rewrite Hne, Hq, Hc. cbn [orb].
  unfold searchAndCache, rankedResults. cbv zeta. cbn [fst]. rewrite Hm.
  assert (Hs : map score (calculateTFIDFScores query [m])
               = [calculateDocumentScore (preprocessText query)
                    (preprocessText (documentText m)) [preprocessText (documentText m)]])
    by apply score_calculateTFIDFScores.
  rewrite filter_none; [unfold sort; cbn [fold_right]; rewrite slice_nil; reflexivity|].
  destruct (calculateTFIDFScores query [m]) as [|d [|d' r]]; try discriminate Hs.
  injection Hs as Hs. constructor; [|constructor]. rewrite Hs.
  destruct (calculateDocumentScore_single (preprocessText query)
              (preprocessText (documentText m))) as [->|(v & -> & ->)]; [reflexivity|].
  cbn [gtN]. destruct (Rlt_dec (5 / 100) 0) as [L|_]; [lra | reflexivity].
Qed.

Lemma single_record_is_never_found_witness :
  fst (getRelevantMemories (later 1000 chatEnv) "lists containers" 5 0 afterFirstAnswer) = [].
Proof.
  apply (single_record_is_never_found _ _ _ _ _ answerNote).
  - reflexivity.
  - vm_compute. reflexivity.
  - vm_compute. lia.
  - vm_compute. reflexivity.
Defined.

(** ** The terms of a text *)

Lemma splitRuns_chars (d p : ascii -> bool) (inRun : bool) (s : string) :
  allChars (fun c => d c || p c) s = true ->
  Forall (fun token => allChars p token = true) (splitRuns d inRun s).
Proof.
  revert inRun. induction s as [|c r IH]; intros inRun H; cbn [splitRuns].
  - repeat constructor.
  - cbn [allChars] in H. apply andb_true_iff in H as [Hc Hr].
    destruct (d c) eqn:Dc.
    + destruct inRun; [apply IH; exact Hr|].
      constructor; [reflexivity | apply IH; exact Hr].
    + cbn [orb] in Hc. specialize (IH false Hr).
      destruct (splitRuns d false r) as [|t ts].
      * repeat constructor. cbn [allChars]. rewrite Hc. reflexivity.
      * apply List.Forall_cons_iff in IH as [Ht Hts].
        constructor; [|exact Hts]. cbn [allChars]. rewrite Hc, Ht. reflexivity.
Qed.

Lemma splitRuns_no_delimiter (d : ascii -> bool) (inRun : bool) (s : string) :
  Forall (fun token => allChars (fun c => negb (d c)) token = true) (splitRuns d inRun s).
Proof.
  apply splitRuns_chars. induction s as [|c r IH]; cbn [allChars]; [reflexivity|].
  rewrite IH. destruct (d c); reflexivity.
Qed.

Lemma blanked_char (c : ascii) :
  let c' := toLowerChar c in
  let b := if isWordChar c' || isWhiteSpace c' then c' else " "%char in
  isWhiteSpace b || isLowerWordChar b = true.
Proof.
  destruct c as [[] [] [] [] [] [] [] []]; vm_compute; reflexivity.
Qed.

Lemma blankPunctuation_chars (text : string) :
  allChars (fun c => isWhiteSpace c || isLowerWordChar c)
           (blankPunctuation (toLowerCase text)) = true.
Proof.
  induction text as [|c r IH]; cbn [toLowerCase blankPunctuation allChars]; [reflexivity|].
  rewrite IH, andb_true_r. apply blanked_char.
Qed.

(** Every term of a text has at least three characters, is no stopword,
    and is made of digits, underscores and lowercase letters only. *)
Theorem preprocessText_terms (text : string) :
  Forall (fun term =>
            (3 <= String.length term)%nat /\
            isStopword term = false /\
            allChars isLowerWordChar term = true)
         (preprocessText text).
Proof.
  unfold preprocessText. destruct text as [|c r]; [constructor|].
  cbv zeta. apply List.Forall_forall. intros term Hin.
  apply List.filter_In in Hin as [Hin Hstop].
  apply List.filter_In in Hin as [Hin Hlen].
  apply Nat.ltb_lt in Hlen. apply negb_true_iff in Hstop.
  split; [lia|]. split; [exact Hstop|].
  pose proof (splitRuns_chars isWhiteSpace isLowerWordChar false _
                (blankPunctuation_chars (String c r))) as H.
  rewrite List.Forall_forall in H. apply H. exact Hin.
Qed.

(** ** Saving *)

Lemma findWithIndex_Some {A : Type} (p : A -> bool) (l : list A) (i : nat) (x : A) :
  findWithIndex p l = Some (i, x) ->
  l !! i = Some x /\ p x = true /\ Forall (fun y => p y = false) (firstn i l).
Proof.
  revert i. induction l as [|y r IH]; intros i H; cbn [findWithIndex] in H; [discriminate|].
  destruct (p y) eqn:Py.
  - injection H as <- <-. repeat split; [exact Py | constructor].
  - destruct (findWithIndex p r) as [[j z]|] eqn:F; [|discriminate].
    cbn in H. injection H as <- <-.
    destruct (IH j eq_refl) as (Hl & Hp & Hf).
    repeat split; [exact Hl | exact Hp |]. cbn [firstn]. constructor; assumption.
Qed.

(** What a save that returns a new record leaves: the record built from
    the content at the head of the collection, in front of the records
    that were stored, cut to the cap. *)
Lemma saveMemory_created env content metadata e m :
  (0 < maxMemories e)%nat ->
  fst (saveMemory env content metadata e) = Ok (Some m) ->
  Memory.lastUpdated m = None ->
  m = buildMemory env content metadata /\
  memories (snd (saveMemory env content metadata e))
    = m :: firstn (maxMemories e - 1) (memories (init env e)) /\
  initialized (snd (saveMemory env content metadata e)) = true /\
  isDuplicate (memories (init env e)) m = Ok false.
Proof.
  intros Hmax Hres Hlast. unfold saveMemory in *.
  pose proof (initialized_init env e) as Hinit.
  pose proof (maxMemories_init env e) as Hmx.
  set (e0 := init env e) in *.
  pose proof (lastUpdated_buildMemory env content metadata) as Hl.
  set (memory := buildMemory env content metadata) in *.
  cbv zeta in Hres |- *.
  destruct (isDuplicate (memories e0) memory) as [[|]|err] eqn:Hdup;
    try (cbn [fst] in Hres; discriminate).
  destruct (findActiveConversation env (memories e0) memory) as [[i existing]|] eqn:Hact.
  { cbn [fst] in Hres. injection Hres as <-. cbn in Hlast. discriminate. }
  cbn [fst snd] in Hres |- *. injection Hres as <-.
  split; [reflexivity|]. rewrite memories_persist, initialized_persist.
  split; [|split; [|exact Hdup]].
  - cbn [memories setMemories clearSearchCache setSearchCache maxMemories length].
    rewrite Hmx.
    destruct (maxMemories e <? S (length (memories e0)))%nat eqn:L; cbn [memories].
    + rewrite slice_from_0. destruct (maxMemories e) as [|k]; [lia|].
      cbn [firstn]. replace (S k - 1)%nat with k by lia. reflexivity.
    + apply Nat.ltb_ge in L. rewrite firstn_all2 by lia. reflexivity.
  - destruct (_ <? _)%nat; exact Hinit.
Qed.

(** The merge window.  After a content was saved as a new record, a
    second content that is saved on the same page in the same
    half-hour window, and is no duplicate, is appended to that record
    after two newlines: the record keeps its id and its place at the
    head of the collection, and no record is added. *)
Theorem save_in_same_window_is_appended
    (env1 env2 : Env) (contentA contentB : string) (metadata1 metadata2 : Metadata)
    (e : Engine) (m : Memory.t) :
  (0 < maxMemories e)%nat ->
  fst (saveMemory env1 contentA metadata1 e) = Ok (Some m) ->
  Memory.lastUpdated m = None ->
  href env2 = href env1 ->
  (now env2 / 1800000 = now env1 / 1800000)%Z ->
  isDuplicate (memories (snd (saveMemory env1 contentA metadata1 e)))
              (buildMemory env2 contentB metadata2) = Ok false ->
  let e1 := snd (saveMemory env1 contentA metadata1 e) in
  exists updated,
    fst (saveMemory env2 contentB metadata2 e1) = Ok (Some updated) /\
    Memory.content updated
      = Some (trim contentA +:+ newline +:+ newline +:+ trim contentB) /\
    Memory.id updated = Memory.id m /\
    Memory.lastUpdated updated = Some (now env2) /\
    memories (snd (saveMemory env2 contentB metadata2 e1))
      = updated :: tail (memories e1).
Proof.
  intros Hmax Hres Hlast Hhref Hwin Hdup. cbv zeta.
  destruct (saveMemory_created env1 contentA metadata1 e m Hmax Hres Hlast)
    as (Hm & Hmem & Hi & _).
  set (e1 := snd (saveMemory env1 contentA metadata1 e)) in *. clearbody e1.
  assert (Hact : findActiveConversation env2 (memories e1)
                   (buildMemory env2 contentB metadata2) = Some (0%nat, m)).
  { rewrite Hmem. unfold findActiveConversation. cbv zeta. cbn [findWithIndex].
    assert (Hc : Memory.conversationId m
                 = Memory.conversationId (buildMemory env2 contentB metadata2)).
    { rewrite Hm. unfold buildMemory.
      destruct (analyze env1 contentA) as [[c1 s1] t1].
      destruct (analyze env2 contentB) as [[c2 s2] t2]. cbn [Memory.conversationId].
      unfold getCurrentConversationId. cbv zeta. rewrite Hhref.
      change (1000 * 60 * 30)%Z with 1800000%Z. rewrite Hwin. reflexivity. }
    assert (Ht : Memory.timestamp m = Some (now env1)).
    { rewrite Hm. unfold buildMemory. destruct (analyze env1 contentA) as [[c1 s1] t1].
      reflexivity. }
    rewrite bool_decide_eq_true_2 by exact Hc. rewrite Ht. cbn [elapsedBelow andb].
    assert (Hlt : (now env2 - now env1 <? 30 * 60 * 1000)%Z = true).
    { apply Z.ltb_lt. change (30 * 60 * 1000)%Z with 1800000%Z.
      pose proof (Z.div_mod (now env1) 1800000 ltac:(lia)) as D1.
      pose proof (Z.div_mod (now env2) 1800000 ltac:(lia)) as D2.
      pose proof (Z.mod_pos_bound (now env1) 1800000 ltac:(lia)) as B1.
      pose proof (Z.mod_pos_bound (now env2) 1800000 ltac:(lia)) as B2.
      rewrite Hwin in D2. lia. }
    rewrite Hlt. reflexivity. }
  destruct (saveMemory_merge env2 contentB metadata2 e1 0 m Hi Hdup Hact) as [Hsave _].
  rewrite Hsave. cbn [fst snd]. eexists. split; [reflexivity|].
  rewrite memories_persist. rewrite Hmem.
  repeat split.
  cbn [appendToConversation Memory.content]. rewrite content_buildMemory.
  rewrite Hm, content_buildMemory. reflexivity.
Qed.

Lemma save_in_same_window_is_appended_witness :
  let e1 := snd (saveMemory chatEnv firstAnswer noMetadata (newEngine None)) in
  exists updated,
    fst (saveMemory (later 1000 chatEnv) secondAnswer noMetadata e1) = Ok (Some updated) /\
    Memory.content updated
      = Some (trim firstAnswer +:+ newline +:+ newline +:+ trim secondAnswer) /\
    Memory.id updated = Memory.id answerNote /\
    Memory.lastUpdated updated = Some (now (later 1000 chatEnv)) /\
    memories (snd (saveMemory (later 1000 chatEnv) secondAnswer noMetadata e1))
      = updated :: tail (memories e1).
Proof.
  apply (save_in_same_window_is_appended chatEnv (later 1000 chatEnv) firstAnswer
           secondAnswer noMetadata noMetadata (newEngine None) answerNote).
  - vm_compute. lia.
  - vm_compute. reflexivity.
  - reflexivity.
  - reflexivity.
  - vm_compute. reflexivity.
  - vm_compute. reflexivity.
Defined.

(** A record that a save returns is stored; a save that returns no
    record, or that throws, leaves an initialized engine as it was. *)
Theorem saved_record_is_stored
    (env : Env) (content : string) (metadata : Metadata) (e : Engine) :
  initialized e = true ->
  (0 < maxMemories e)%nat ->
  match saveMemory env content metadata e with
  | (Ok (Some m), e') => In m (memories e')
  | (Ok None, e') => e' = e
  | (Throw _, e') => e' = e
  end.
Proof.
  intros Hi Hmax. unfold saveMemory. rewrite (init_initialized _ _ Hi). cbv zeta.
  destruct (isDuplicate _ _) as [[|]|err]; try reflexivity.
  destruct (findActiveConversation _ _ _) as [[i existing]|] eqn:Hact.
  - rewrite memories_persist. cbn [memories setMemories].
    apply findWithIndex_Some in Hact as (Hl & _ & _).
    apply list_elem_of_In. apply list_elem_of_lookup. exists i.
    apply list_lookup_insert_eq. apply lookup_lt_Some in Hl. exact Hl.
  - rewrite memories_persist.
    cbn [memories setMemories clearSearchCache setSearchCache maxMemories length].
    destruct (_ <? _)%nat; cbn [memories].
    + rewrite slice_from_0. destruct (maxMemories e); [lia | left; reflexivity].
    + left. reflexivity.
Qed.

Lemma saved_record_is_stored_witness :
  match saveMemory chatEnv apiExample noMetadata tenRecords with
  | (Ok (Some m), e') => In m (memories e')
  | (Ok None, e') => e' = tenRecords
  | (Throw _, e') => e' = tenRecords
  end.
Proof.
  apply saved_record_is_stored; [reflexivity | vm_compute; lia].
Defined.

(** ** Persistence *)

Lemma filter_same_length {A : Type} (p : A -> bool) (l : list A) :
  length (List.filter p l) = length l -> List.filter p l = l.
Proof.
  induction l as [|x r IH]; cbn [List.filter length]; [reflexivity|].
  destruct (p x); cbn [length]; intros H.
  - f_equal. apply IH. lia.
  - pose proof (length_filter_le p r). lia.
Qed.

Lemma inSync_persist env e :
  storageWriteOk env = true -> inSync (persist env e).
Proof. intros H. unfold inSync, persist. rewrite H. reflexivity. Qed.

Lemma setMemories_same (e : Engine) : setMemories e (memories e) = e.
Proof. destruct e. reflexivity. Qed.

(** While the writes to the storage area succeed, the storage area
    mirrors the stored records after every operation on an initialized
    engine. *)
Theorem storage_mirrors_memories (env : Env) (op : Operation) (e : Engine) :
  initialized e = true ->
  storageWriteOk env = true ->
  inSync e ->
  inSync (perform env op e).
Proof.
  intros Hi Hw Hs.
  destruct op as [content metadata|id|id|jsonData merge| |query limit page];
    cbn [perform].
  - unfold saveMemory. rewrite (init_initialized _ _ Hi). cbv zeta.
    destruct (isDuplicate _ _) as [[|]|err]; cbn [snd]; try exact Hs.
    destruct (findActiveConversation _ _ _) as [[i existing]|]; cbn [snd];
      apply inSync_persist; exact Hw.
  - apply inSync_persist. exact Hw.
  - unfold deleteMemoryById. destruct (findIndex _ _); cbn [snd];
      [apply inSync_persist; exact Hw | exact Hs].
  - destruct jsonData as [message| |elements]; try exact Hs.
    rewrite importMemories_objects. cbv zeta. cbn [snd].
    apply inSync_persist. exact Hw.
  - unfold cleanupOldMemories. cbv zeta.
    destruct (0 <? _)%nat eqn:L; [apply inSync_persist; exact Hw|].
    apply Nat.ltb_ge in L. cbn [memories setMemories] in L.
    match type of L with context [List.filter ?p (memories e)] =>
      pose proof (length_filter_le p (memories e)) as Hle;
      rewrite (filter_same_length p (memories e)) by lia
    end.
    rewrite setMemories_same. exact Hs.
  - unfold getRelevantMemories. rewrite (init_initialized _ _ Hi). cbv zeta.
    destruct (_ || _); cbn [snd]; [exact Hs|].
    destruct (searchCache e !! _) as [cached|]; [destruct (_ <? _)%Z|];
      cbn [snd searchAndCache]; exact Hs.
Qed.

Lemma storage_mirrors_memories_witness :
  inSync (perform chatEnv (OpDeleteById (Memory.id (numbered 3))) tenRecords).
Proof.
  apply storage_mirrors_memories; reflexivity.
Defined.

(** What was written to the storage area is what a new engine loads
    from it, less the records that have passed the retention horizon by
    then. *)
Theorem stored_records_are_reloaded (env env' : Env) (e : Engine) :
  storageWriteOk env = true ->
  storageReadOk env' = true ->
  let reloaded := init env' (newEngine (LocalBrain_data (persist env e))) in
  initialized reloaded = true /\
  memories reloaded = List.filter (isFresh env') (memories e).
Proof.
  intros Hw Hr. cbv zeta. split; [apply initialized_init|].
  unfold persist. rewrite Hw. cbn [LocalBrain_data].
  unfold init. cbn [initialized newEngine]. rewrite Hr.
  unfold cleanupOldMemories. cbv zeta.
  destruct (0 <? _)%nat; [rewrite memories_persist|]; reflexivity.
Qed.

Lemma stored_records_are_reloaded_witness :
  let reloaded := init (later 1000 chatEnv)
                       (newEngine (LocalBrain_data (persist chatEnv tenRecords))) in
  initialized reloaded = true /\
  memories reloaded = List.filter (isFresh (later 1000 chatEnv)) (memories tenRecords).
Proof.
  apply stored_records_are_reloaded; reflexivity.
Defined.

(** ** Maintenance and deletion *)

(** After the maintenance pass every stored record has a timestamp
    that is less than 90 days old; the records kept stay in their order;
    a second pass at the same instant changes nothing; the search cache
    is left as it is. *)
Theorem cleanupOldMemories_keeps_fresh (env : Env) (e : Engine) :
  memories (cleanupOldMemories env e) = List.filter (isFresh env) (memories e) /\
  Forall (fun m => exists t, Memory.timestamp m = Some t /\
                             (now env - t < 7776000000)%Z)
         (memories (cleanupOldMemories env e)) /\
  cleanupOldMemories env (cleanupOldMemories env e) = cleanupOldMemories env e /\
  searchCache (cleanupOldMemories env e) = searchCache e.
Proof.
  assert (Hm : memories (cleanupOldMemories env e) = List.filter (isFresh env) (memories e)).
  { unfold cleanupOldMemories. cbv zeta.
    destruct (0 <? _)%nat; [rewrite memories_persist|]; reflexivity. }
  split; [exact Hm|]. split; [|split].
  - rewrite Hm. apply List.Forall_forall. intros m Hin.
    apply List.filter_In in Hin as [_ Hf]. unfold isFresh, elapsedBelow in Hf.
    destruct (Memory.timestamp m) as [t|]; [|discriminate].
    exists t. split; [reflexivity|]. apply Z.ltb_lt in Hf. lia.
  - set (e' := cleanupOldMemories env e) in *.
    unfold cleanupOldMemories at 1. cbv zeta.
    change (List.filter _ (memories e')) with (List.filter (isFresh env) (memories e')).
    assert (Hsame : List.filter (isFresh env) (memories e') = memories e').
    { rewrite Hm. clear. induction (memories e) as [|x r IH]; cbn [List.filter]; [reflexivity|].
      destruct (isFresh env x) eqn:F; [|exact IH].
      cbn [List.filter]. rewrite F, IH. reflexivity. }
    rewrite Hsame. cbn [memories setMemories]. rewrite Nat.sub_diag.
    cbn [Nat.ltb Nat.leb]. apply setMemories_same.
  - unfold cleanupOldMemories. cbv zeta.
    destruct (0 <? _)%nat; [rewrite searchCache_persist|]; reflexivity.
Qed.

Lemma filter_all {A : Type} (q : A -> bool) (l : list A) :
  Forall (fun y => q y = true) l -> List.filter q l = l.
Proof.
  induction 1 as [|x r Hx _ IH]; cbn [List.filter]; [reflexivity|].
  rewrite Hx, IH. reflexivity.
Qed.

Lemma removeAt_unique {A : Type} (p : A -> bool) (l : list A) (i : nat) :
  findIndex p l = Some i ->
  (forall before x after, l = before ++ x :: after -> p x = true ->
                          Forall (fun y => p y = false) after) ->
  removeAt i l = List.filter (fun y => negb (p y)) l.
Proof.
  intros F Huniq.
  apply findIndex_Some in F as (before & x & after & -> & Px & Hb & ->).
  specialize (Huniq before x after eq_refl Px).
  rewrite List.filter_app. cbn [List.filter]. rewrite Px. cbn [negb].
  rewrite !filter_all; [reflexivity| |].
  - eapply Forall_impl; [exact Huniq|]. intros y Hy. cbv beta in Hy. rewrite Hy. reflexivity.
  - eapply Forall_impl; [exact Hb|]. intros y Hy. cbv beta in Hy. rewrite Hy. reflexivity.
Qed.

Lemma NoDup_ids_unique (l before after : list Memory.t) (x : Memory.t) :
  List.NoDup (map Memory.id l) ->
  l = before ++ x :: after ->
  Forall (fun y => bool_decide (Memory.id y = Memory.id x) = false) after.
Proof.
  intros Hnd ->. rewrite List.map_app in Hnd. cbn [map] in Hnd.
  apply List.NoDup_remove_2 in Hnd.
  apply List.Forall_forall. intros y Hy. apply bool_decide_eq_false. intros E.
  apply Hnd. apply List.in_or_app. right. rewrite <- E. apply List.in_map. exact Hy.
Qed.

Lemma sublist_filter_list {A : Type} (q : A -> bool) (l : list A) :
  sublist (List.filter q l) l.
Proof.
  induction l as [|x r IH]; cbn [List.filter]; [constructor|].
  destruct (q x); [apply sublist_skip | apply sublist_cons]; exact IH.
Qed.

(** [deleteMemory] removes every record that has the given id and keeps
    the others, in their order; when the ids of the stored records are
    pairwise different, it leaves the same records as
    [deleteMemoryById]. *)
Theorem deleteMemory_removes_every_match (env : Env) (id : option JsKey) (e : Engine) :
  Forall (fun m => Memory.id m <> id) (memories (deleteMemory env id e)) /\
  sublist (memories (deleteMemory env id e)) (memories e) /\
  (forall m, In m (memories e) -> Memory.id m <> id ->
             In m (memories (deleteMemory env id e))) /\
  (List.NoDup (map Memory.id (memories e)) ->
   memories (deleteMemory env id e) = memories (snd (deleteMemoryById env id e))).
Proof.
  unfold deleteMemory. rewrite memories_persist. cbn [memories setMemories clearSearchCache
                                                       setSearchCache].
  split; [|split; [|split]].
  - apply List.Forall_forall. intros m Hin. apply List.filter_In in Hin as [_ H].
    apply negb_true_iff in H. apply bool_decide_eq_false in H. exact H.
  - apply sublist_filter_list.
  - intros m Hin Hne. apply List.filter_In. split; [exact Hin|].
    apply negb_true_iff. apply bool_decide_eq_false. exact Hne.
  - intros Hnd. unfold deleteMemoryById.
    destruct (findIndex _ (memories e)) as [index|] eqn:F; cbn [snd].
    + rewrite memories_persist. cbn [memories setMemories clearSearchCache setSearchCache].
      symmetry. apply (removeAt_unique _ _ _ F).
      intros before x after Hl Hx. apply bool_decide_eq_true in Hx. subst id.
      eapply NoDup_ids_unique; eassumption.
    + apply findIndex_None in F. apply filter_all.
      eapply Forall_impl; [exact F|]. intros y Hy. cbv beta in Hy. rewrite Hy. reflexivity.
Qed.

Lemma deleteMemory_removes_every_match_witness :
  memories (deleteMemory chatEnv (Memory.id (numbered 3)) tenRecords)
  = memories (snd (deleteMemoryById chatEnv (Memory.id (numbered 3)) tenRecords)).
Proof.
  apply (proj2 (proj2 (proj2 (deleteMemory_removes_every_match
                                chatEnv (Memory.id (numbered 3)) tenRecords)))).
  vm_compute. repeat constructor; cbn [In]; intros H;
    repeat (destruct H as [H|H]; [discriminate H|]); exact H.
Defined.

(** ** The search cache *)

(** A search that was computed is served again from the cache: the same
    search, asked again before the cache entry times out, returns the
    same results and leaves the engine as it is. *)
Theorem repeated_search_is_served_from_cache
    (env env' : Env) (query : string) (limit page : Z) (e : Engine) :
  initialized e = true ->
  (3 <= String.length (trim query))%nat ->
  searchCache e !! cacheKey query limit page = None ->
  (now env' - now env < cacheTimeout e)%Z ->
  getRelevantMemories env' query limit page (snd (getRelevantMemories env query limit page e))
  = getRelevantMemories env query limit page e.
Proof.
  intros Hi Hq Hc Hfresh.
  assert (Hfirst : getRelevantMemories env query limit page e
                   = searchAndCache env query limit page e).
  { unfold getRelevantMemories. rewrite (init_initialized _ _ Hi). cbv zeta.
    assert (Hne : String.eqb query EmptyString = false).
    { destruct query; [cbn in Hq; lia | reflexivity]. }
    pose proof Hq as Hq'. apply Nat.ltb_ge in Hq'. rewrite Hne, Hq', Hc. reflexivity. }
  rewrite Hfirst. unfold searchAndCache. cbv zeta. cbn [snd].
  apply (getRelevantMemories_cached env' query limit page _
           {| results := rankedResults query limit page (memories e); cachedAt := now env |}).
  - exact Hi.
  - exact Hq.
  - cbn [searchCache setSearchCache]. apply lookup_insert_eq.
  - cbn [cachedAt cacheTimeout setSearchCache]. exact Hfresh.
Qed.

Lemma repeated_search_is_served_from_cache_witness :
  getRelevantMemories (later 2000 chatEnv) containersQuery 5 0
    (snd (getRelevantMemories (later 1000 chatEnv) containersQuery 5 0 twoAnswers))
  = getRelevantMemories (later 1000 chatEnv) containersQuery 5 0 twoAnswers.
Proof.
  apply repeated_search_is_served_from_cache.
  - reflexivity.
  - vm_compute. lia.
  - vm_compute. reflexivity.
  - vm_compute. reflexivity.
Defined.

Lemma append_cons (c : ascii) (r s : string) : String c r +:+ s = String c (r +:+ s).
Proof. reflexivity. Qed.

Lemma append_nil (s : string) : EmptyString +:+ s = s.
Proof. reflexivity. Qed.

Lemma append_assoc (a b c : string) : (a +:+ b) +:+ c = a +:+ (b +:+ c).
Proof.
  induction a as [|x r IH]; [reflexivity|].
  rewrite !append_cons. f_equal. exact IH.
Qed.

Lemma allChars_append (p : ascii -> bool) (a b : string) :
  allChars p (a +:+ b) = allChars p a && allChars p b.
Proof.
  induction a as [|x r IH]; [reflexivity|].
  rewrite append_cons. cbn [allChars]. rewrite IH. apply andb_assoc.
Qed.

(** A separator cuts a string in one way only when what follows it
    holds no separator. *)
Lemma split_at_last_underscore (x x' a a' : string) :
  allChars (fun c => negb (isUnderscore c)) a = true ->
  allChars (fun c => negb (isUnderscore c)) a' = true ->
  x +:+ "_" +:+ a = x' +:+ "_" +:+ a' ->
  x = x' /\ a = a'.
Proof.
  intros Ha Ha'. revert x'.
  induction x as [|c r IH]; intros [|c' r'] H;
    repeat (rewrite append_nil in H || rewrite append_cons in H).
  - injection H as H. split; [reflexivity | exact H].
  - injection H as Hc Hr. subst a. rewrite allChars_append in Ha.
    cbn [allChars] in Ha. rewrite andb_comm in Ha. discriminate Ha.
  - injection H as Hc Hr. subst a'. rewrite allChars_append in Ha'.
    cbn [allChars] in Ha'. rewrite andb_comm in Ha'. discriminate Ha'.
  - injection H as Hc Hr. destruct (IH r' Hr) as [-> ->]. subst c'. split; reflexivity.
Qed.

Lemma string_of_uint_no_underscore (d : Decimal.uint) :
  allChars (fun c => negb (isUnderscore c)) (NilEmpty.string_of_uint d) = true.
Proof. induction d; cbn; auto. Qed.

Lemma string_of_Z_no_underscore (z : Z) :
  allChars (fun c => negb (isUnderscore c)) (string_of_Z z) = true.
Proof.
  unfold string_of_Z. destruct (Z.to_int z) as [d|d]; cbn;
    apply string_of_uint_no_underscore.
Qed.

Lemma string_of_Z_inj (z z' : Z) : string_of_Z z = string_of_Z z' -> z = z'.
Proof.
  unfold string_of_Z. intros H. apply DecimalZ.to_int_inj.
  pose proof (NilEmpty.isi (Z.to_int z)) as H1.
  pose proof (NilEmpty.isi (Z.to_int z')) as H2.
  rewrite H in H1. rewrite H1 in H2. injection H2 as H2. exact H2.
Qed.

(** Two searches share a cache entry only when they have the same
    query, the same limit and the same page. *)
Theorem cacheKey_injective (query query' : string) (limit limit' page page' : Z) :
  cacheKey query limit page = cacheKey query' limit' page' ->
  query = query' /\ limit = limit' /\ page = page'.
Proof.
  unfold cacheKey. intros H.
  rewrite <- (append_assoc query "_" (string_of_Z limit +:+ "_" +:+ string_of_Z page)) in H.
  rewrite <- (append_assoc (query +:+ "_") (string_of_Z limit)) in H.
  rewrite <- (append_assoc query' "_" (string_of_Z limit' +:+ "_" +:+ string_of_Z page')) in H.
  rewrite <- (append_assoc (query' +:+ "_") (string_of_Z limit')) in H.
  apply split_at_last_underscore in H as [H Hp];
    [|apply string_of_Z_no_underscore..].
  rewrite !append_assoc in H.
  apply split_at_last_underscore in H as [Hq Hl];
    [|apply string_of_Z_no_underscore..].
  split; [exact Hq|]. split; apply string_of_Z_inj; assumption.
Qed.

Lemma cacheKey_injective_witness :
  "a_1" = "a_1" /\ 2%Z = 2%Z /\ 3%Z = 3%Z.
Proof. apply cacheKey_injective. reflexivity. Defined.

(** ** Slices and pages *)

Lemma slice_nonneg {A : Type} (l : list A) (a b : Z) :
  (0 <= a)%Z -> (0 <= b)%Z ->
  slice l a b = firstn (Z.to_nat b - Z.to_nat a) (skipn (Z.to_nat a) l).
Proof.
  intros Ha Hb. unfold slice. cbv zeta.
  destruct (a <? 0)%Z eqn:Ea; [apply Z.ltb_lt in Ea; lia|].
  destruct (b <? 0)%Z eqn:Eb; [apply Z.ltb_lt in Eb; lia|].
  destruct (Z_lt_le_dec a (Z.of_nat (length l))) as [Hlt|Hge].
  - rewrite (Z.min_l a) by lia.
    destruct (Z_lt_le_dec b (Z.of_nat (length l))) as [Hb'|Hb'].
    + rewrite Z.min_l by lia. f_equal. lia.
    + rewrite Z.min_r by lia.
      rewrite !firstn_all2; [reflexivity | |]; rewrite length_skipn; lia.
  - rewrite (Z.min_r a) by lia. rewrite Nat2Z.id.
    rewrite !skipn_all2 by lia. rewrite !firstn_nil. reflexivity.
Qed.

Lemma page_slice {A : Type} (l : list A) (limit page : nat) :
  slice l (Z.of_nat page * Z.of_nat limit) ((Z.of_nat page + 1) * Z.of_nat limit)
  = firstn limit (skipn (page * limit) l).
Proof.
  rewrite slice_nonneg by lia. f_equal; [lia|]. f_equal. lia.
Qed.

Lemma pages_concat {A : Type} (l : list A) (limit n : nat) :
  concat (map (fun page => firstn limit (skipn (page * limit) l)) (seq 0 n))
  = firstn (n * limit) l.
Proof.
  induction n as [|n IH]; [reflexivity|].
  rewrite seq_S, List.map_app, concat_app, IH. cbn [map concat Nat.add].
  rewrite app_nil_r.
  replace (S n * limit)%nat with (n * limit + limit)%nat by lia.
  rewrite <- (firstn_skipn (n * limit) (firstn (n * limit + limit) l)).
  rewrite firstn_firstn, Nat.min_l by lia. f_equal.
  rewrite skipn_firstn_comm. f_equal. lia.
Qed.

Lemma slice_whole {A : Type} (l : list A) (n : nat) :
  (length l <= n)%nat -> slice l (0 * Z.of_nat n) ((0 + 1) * Z.of_nat n) = l.
Proof.
  intros H. change 0%Z with (Z.of_nat 0). rewrite page_slice.
  cbn [Nat.mul skipn]. apply firstn_all2. exact H.
Qed.

(** ** Ranking *)

Lemma insertSorted_Permutation {A : Type} (compare : A -> A -> Number R) (x : A) (l : list A) :
  Permutation (insertSorted compare x l) (x :: l).
Proof.
  induction l as [|y r IH]; cbn [insertSorted]; [reflexivity|].
  destruct (gtN _ _); [|reflexivity].
  rewrite IH. apply perm_swap.
Qed.

Lemma sort_Permutation {A : Type} (compare : A -> A -> Number R) (l : list A) :
  Permutation (sort compare l) l.
Proof.
  unfold sort. induction l as [|x r IH]; cbn [fold_right]; [reflexivity|].
  rewrite insertSorted_Permutation, IH. reflexivity.
Qed.

Lemma length_sort {A : Type} (compare : A -> A -> Number R) (l : list A) :
  length (sort compare l) = length l.
Proof. apply Permutation_length. apply sort_Permutation. Qed.

(** Successive pages of a ranking are successive parts of it: the first
    [n] pages of [limit] results each, put one after the other, are the
    first [n * limit] results of the whole ranking. *)
Theorem ranking_pages_are_consecutive
    (query : string) (memories : list Memory.t) (limit n : nat) :
  concat (map (fun page => rankedResults query (Z.of_nat limit) (Z.of_nat page) memories)
              (seq 0 n))
  = firstn (n * limit) (wholeRanking query memories).
Proof.
  unfold wholeRanking, rankedResults. cbv zeta.
  set (ranked := sort byScoreDescending _).
  rewrite slice_whole.
  - rewrite List.firstn_map, <- (pages_concat ranked limit n), List.concat_map, List.map_map.
    f_equal. apply map_ext. intros page.
    rewrite page_slice. reflexivity.
  - unfold ranked. rewrite length_sort.
    etransitivity; [apply length_filter_le|].
    rewrite <- (List.length_map score), score_calculateTFIDFScores, List.length_map.
    reflexivity.
Qed.

(** A score is never negative and never infinite: it is [NaN] when a
    query term names a property of [Object.prototype], and a finite
    number that is not negative otherwise. *)
Lemma calculateDocumentScore_cases
    (queryTerms docTerms : list string) (allDocuments : list (list string)) :
  if existsb inherited queryTerms
  then calculateDocumentScore queryTerms docTerms allDocuments = NaN
  else exists s, (0 <= s)%R /\
                 calculateDocumentScore queryTerms docTerms allDocuments = Fin s.
Proof.
  destruct (existsb inherited queryTerms) eqn:E.
  - apply existsb_exists in E as (name & Hin & Hname).
    eapply calculateDocumentScore_inherited_term; eassumption.
  - apply calculateDocumentScore_nonneg. apply List.Forall_forall. intros t Hin.
    destruct (inherited t) eqn:Ht; [|reflexivity].
    assert (existsb inherited queryTerms = true)
      by (apply existsb_exists; exists t; split; assumption).
    congruence.
Qed.

Lemma gtN_finite_score queryTerms docTerms allDocuments t :
  gtN (calculateDocumentScore queryTerms docTerms allDocuments) t = true ->
  exists x, calculateDocumentScore queryTerms docTerms allDocuments = Fin x /\ (t < x)%R.
Proof.
  intros H.
  pose proof (calculateDocumentScore_cases queryTerms docTerms allDocuments) as D.
  destruct (existsb inherited queryTerms).
  - rewrite D in H. discriminate H.
  - destruct D as (s & _ & E). rewrite E in H |- *. exists s. split; [reflexivity|].
    cbn [gtN] in H. destruct (Rlt_dec t s); [assumption | discriminate].
Qed.

(** The documents that pass the threshold: copies of stored records
    with a finite score above 0.05. *)
Lemma filtered_documents query memories d :
  In d (List.filter (fun memory => gtN (score memory) (5 / 100))
                    (calculateTFIDFScores query memories)) ->
  In (doc d) memories /\ exists x, score d = Fin x /\ (5 / 100 < x)%R.
Proof.
  intros Hin. apply List.filter_In in Hin as [Hin Hgt]. split.
  - rewrite <- (doc_calculateTFIDFScores query memories). apply List.in_map. exact Hin.
  - assert (Hs : In (score d) (map score (calculateTFIDFScores query memories)))
      by (apply List.in_map; exact Hin).
    rewrite score_calculateTFIDFScores in Hs. apply List.in_map_iff in Hs as (m & Hm & _).
    rewrite <- Hm in Hgt |- *. apply gtN_finite_score. exact Hgt.
Qed.

Lemma In_firstn_list {A : Type} (n : nat) (l : list A) (x : A) :
  In x (firstn n l) -> In x l.
Proof.
  revert n. induction l as [|y r IH]; intros [|n]; cbn [firstn In]; try tauto.
  intros [H|H]; [left; exact H | right; eapply IH; exact H].
Qed.

Lemma In_skipn_list {A : Type} (n : nat) (l : list A) (x : A) :
  In x (skipn n l) -> In x l.
Proof.
  revert n. induction l as [|y r IH]; intros [|n]; cbn [skipn In]; try tauto.
  intros H. right. eapply IH. exact H.
Qed.

Lemma In_slice {A : Type} (l : list A) (a b : Z) (x : A) : In x (slice l a b) -> In x l.
Proof.
  unfold slice. cbv zeta. intros H.
  apply In_firstn_list in H. apply In_skipn_list in H. exact H.
Qed.

Lemma StronglySorted_firstn {A : Type} (R : A -> A -> Prop) (n : nat) (l : list A) :
  StronglySorted R l -> StronglySorted R (firstn n l).
Proof.
  intros H. revert n. induction H as [|x r Hr IH Hx]; intros [|n]; cbn [firstn];
    try constructor.
  - apply IH.
  - apply List.Forall_forall. intros y Hy. rewrite List.Forall_forall in Hx.
    apply Hx. eapply In_firstn_list. exact Hy.
Qed.

Lemma StronglySorted_skipn {A : Type} (R : A -> A -> Prop) (n : nat) (l : list A) :
  StronglySorted R l -> StronglySorted R (skipn n l).
Proof.
  intros H. revert n. induction H as [|x r Hr IH Hx]; intros [|n]; cbn [skipn];
    try constructor; auto.
Qed.

Lemma StronglySorted_map {A B : Type} (f : A -> B) (R : B -> B -> Prop) (l : list A) :
  StronglySorted (fun a b => R (f a) (f b)) l -> StronglySorted R (map f l).
Proof.
  induction 1 as [|x r Hr IH Hx]; cbn [map]; constructor; [exact IH|].
  apply List.Forall_map. exact Hx.
Qed.

(** The order that the comparison gives to two documents with finite
    scores. *)
Lemma byScoreDescending_finite (a b : ScoredDoc) (x y : R) :
  score a = Fin x -> score b = Fin y ->
  gtN (byScoreDescending a b) 0 = true <-> (x < y)%R.
Proof.
  intros Ha Hb. unfold byScoreDescending. rewrite Ha, Hb. cbn [negN addN gtN].
  destruct (Rlt_dec 0 (y + - x)); split; intros H; try reflexivity; try discriminate; lra.
Qed.

Lemma insertSorted_sorted (x : ScoredDoc) (l : list ScoredDoc) :
  Forall (fun d => exists v, score d = Fin v) (x :: l) ->
  StronglySorted (fun a b => (finiteScore (Scored b) <= finiteScore (Scored a))%R) l ->
  StronglySorted (fun a b => (finiteScore (Scored b) <= finiteScore (Scored a))%R)
                 (insertSorted byScoreDescending x l).
Proof.
  intros Hfin Hs. induction Hs as [|y r Hr IH Hy]; cbn [insertSorted].
  - repeat constructor.
  - apply List.Forall_cons_iff in Hfin as [[vx Hx] Hfin].
    pose proof Hfin as Hfin'. apply List.Forall_cons_iff in Hfin' as [[vy Hy'] Hfr].
    destruct (gtN (byScoreDescending x y) 0) eqn:G.
    + apply (byScoreDescending_finite x y vx vy Hx Hy') in G.
      constructor.
      * apply IH. constructor; [exists vx; exact Hx | exact Hfr].
      * eapply Permutation_Forall; [symmetry; apply insertSorted_Permutation|].
        constructor; [|exact Hy]. cbn [finiteScore]. rewrite Hx, Hy'. lra.
    + assert (Hle : (vy <= vx)%R).
      { destruct (Rlt_dec vx vy) as [L|N]; [|lra].
        apply (byScoreDescending_finite x y vx vy Hx Hy') in L. congruence. }
      constructor; [constructor; assumption|].
      constructor; [cbn [finiteScore]; rewrite Hx, Hy'; exact Hle|].
      eapply Forall_impl; [exact Hy|]. intros z Hz. cbv beta in Hz |- *.
      cbn [finiteScore] in Hz |- *. rewrite Hx. rewrite Hy' in Hz. lra.
Qed.

Lemma sort_sorted (l : list ScoredDoc) :
  Forall (fun d => exists v, score d = Fin v) l ->
  StronglySorted (fun a b => (finiteScore (Scored b) <= finiteScore (Scored a))%R)
                 (sort byScoreDescending l).
Proof.
  unfold sort. induction 1 as [|x r Hx Hr IH]; cbn [fold_right]; [constructor|].
  apply insertSorted_sorted; [|exact IH].
  constructor; [exact Hx|].
  eapply Permutation_Forall; [symmetry; apply (sort_Permutation byScoreDescending)|].
  exact Hr.
Qed.

(** What a computed search returns: at most [limit] results, each the
    copy of a stored record with a finite score above 0.05, in the order
    of descending scores. *)
Theorem ranked_results_are_sorted_matches
    (query : string) (limit page : Z) (memories : list Memory.t) :
  (0 <= limit)%Z -> (0 <= page)%Z ->
  (length (rankedResults query limit page memories) <= Z.to_nat limit)%nat /\
  Forall (fun r => exists d x, r = Scored d /\ In (doc d) memories /\
                               score d = Fin x /\ (5 / 100 < x)%R)
         (rankedResults query limit page memories) /\
  StronglySorted (fun a b => (finiteScore b <= finiteScore a)%R)
                 (rankedResults query limit page memories).
Proof.
  intros Hl Hp. unfold rankedResults. cbv zeta.
  set (kept := List.filter _ (calculateTFIDFScores query memories)).
  assert (Hkept : Forall (fun d => In (doc d) memories /\
                                   exists x, score d = Fin x /\ (5 / 100 < x)%R) kept).
  { apply List.Forall_forall. intros d Hd. apply (filtered_documents query). exact Hd. }
  split; [|split].
  - rewrite List.length_map, slice_nonneg by nia.
    rewrite length_firstn. nia.
  - apply List.Forall_map. apply List.Forall_forall. intros d Hd.
    apply In_slice in Hd.
    apply (Permutation_in _ (sort_Permutation byScoreDescending kept)) in Hd.
    rewrite List.Forall_forall in Hkept. destruct (Hkept d Hd) as (Hdoc & x & Hx & Hgt).
    exists d, x. repeat split; assumption.
  - apply StronglySorted_map. unfold slice. cbv zeta.
    apply StronglySorted_firstn, StronglySorted_skipn, sort_sorted.
    eapply Forall_impl; [exact Hkept|]. intros d (_ & x & Hx & _). exists x. exact Hx.
Qed.

Lemma ranked_results_are_sorted_matches_witness :
  (length (rankedResults containersQuery 5 0 [answerNote; gardenNote]) <= Z.to_nat 5)%nat /\
  Forall (fun r => exists d x, r = Scored d /\ In (doc d) [answerNote; gardenNote] /\
                               score d = Fin x /\ (5 / 100 < x)%R)
         (rankedResults containersQuery 5 0 [answerNote; gardenNote]) /\
  StronglySorted (fun a b => (finiteScore b <= finiteScore a)%R)
                 (rankedResults containersQuery 5 0 [answerNote; gardenNote]).
Proof.
  apply ranked_results_are_sorted_matches; lia.
Defined.

(** ** Bulk deduplication *)

Lemma keepFirstSeen_spec (l : list Memory.t) (seen : gset string)
    (kept : list Memory.t) (duplicates : nat) :
  keepFirstSeen seen l = Ok (kept, duplicates) ->
  (duplicates + length kept = length l)%nat /\
  sublist kept l /\
  List.NoDup (map createMemorySignature kept) /\
  (forall m, In m kept ->
             exists s, createMemorySignature m = Ok s /\ s ∉ seen) /\
  (forall m, In m l ->
             exists s, createMemorySignature m = Ok s /\
                       (s ∈ seen \/ In (Ok s) (map createMemorySignature kept))).
Proof.
  revert seen kept duplicates.
  induction l as [|m r IH]; intros seen kept duplicates H; cbn [keepFirstSeen] in H.
  - injection H as <- <-. repeat split; try constructor; intros m [].
  - destruct (createMemorySignature m) as [s|err] eqn:Es; [|discriminate].
    destruct (bool_decide (s ∈ seen)) eqn:Hs.
    + apply bool_decide_eq_true in Hs.
      destruct (keepFirstSeen seen r) as [[k n]|err] eqn:Er; [|discriminate].
      injection H as <- <-.
      destruct (IH seen k n Er) as (Hlen & Hsub & Hnd & Hkept & Hall).
      repeat split.
      * cbn [length]. lia.
      * apply sublist_cons. exact Hsub.
      * exact Hnd.
      * exact Hkept.
      * intros m' [<-|Hin]; [exists s; split; [exact Es | left; exact Hs]|].
        apply Hall. exact Hin.
    + apply bool_decide_eq_false in Hs.
      destruct (keepFirstSeen ({[s]} ∪ seen) r) as [[k n]|err] eqn:Er; [|discriminate].
      injection H as <- <-.
      destruct (IH _ k n Er) as (Hlen & Hsub & Hnd & Hkept & Hall).
      repeat split.
      * cbn [length]. lia.
      * apply sublist_skip. exact Hsub.
      * cbn [map]. constructor; [|exact Hnd]. rewrite Es. intros Hin.
        apply List.in_map_iff in Hin as (m' & Hm' & Hin').
        destruct (Hkept m' Hin') as (s' & Es' & Hnot).
        rewrite Es' in Hm'. injection Hm' as ->. apply Hnot.
        apply elem_of_union. left. apply elem_of_singleton. reflexivity.
      * intros m' [<-|Hin]; [exists s; split; [exact Es | exact Hs]|].
        destruct (Hkept m' Hin) as (s' & Es' & Hnot).
        exists s'. split; [exact Es'|]. intros Hs'. apply Hnot.
        apply elem_of_union. right. exact Hs'.
      * intros m' [<-|Hin].
        -- exists s. split; [exact Es|]. right. cbn [map]. left. exact Es.
        -- destruct (Hall m' Hin) as (s' & Es' & [Hseen|Hk]).
           ++ exists s'. split; [exact Es'|].
              apply elem_of_union in Hseen as [Hseen|Hseen].
              ** apply elem_of_singleton in Hseen. subst s'.
                 right. cbn [map]. left. exact Es.
              ** left. exact Hseen.
           ++ exists s'. split; [exact Es'|]. right. cbn [map]. right. exact Hk.
Qed.

Lemma keepFirstSeen_distinct (l : list Memory.t) (seen : gset string) :
  List.NoDup (map createMemorySignature l) ->
  (forall m, In m l -> exists s, createMemorySignature m = Ok s /\ s ∉ seen) ->
  keepFirstSeen seen l = Ok (l, O).
Proof.
  revert seen. induction l as [|m r IH]; intros seen Hnd Hall; cbn [keepFirstSeen];
    [reflexivity|].
  destruct (Hall m (or_introl eq_refl)) as (s & Es & Hnot). rewrite Es.
  rewrite bool_decide_eq_false_2 by exact Hnot.
  cbn [map] in Hnd. apply List.NoDup_cons_iff in Hnd as [Hm Hnd].
  rewrite (IH ({[s]} ∪ seen) Hnd); [reflexivity|].
  intros m' Hin. destruct (Hall m' (or_intror Hin)) as (s' & Es' & Hnot').
  exists s'. split; [exact Es'|]. intros Hs'.
  apply elem_of_union in Hs' as [Hs'|Hs']; [|contradiction].
  apply elem_of_singleton in Hs'. subst s'.
  apply Hm. rewrite Es, <- Es'. apply List.in_map. exact Hin.
Qed.

Lemma keepFirstSeen_Throw (l : list Memory.t) (seen : gset string) (err : Error) :
  keepFirstSeen seen l = Throw err -> exists m, In m l /\ Memory.content m = None.
Proof.
  revert seen err. induction l as [|m r IH]; intros seen err H; cbn [keepFirstSeen] in H;
    [discriminate|].
  destruct (createMemorySignature m) as [s|err'] eqn:Es.
  - destruct (bool_decide (s ∈ seen)).
    + destruct (keepFirstSeen seen r) as [[k n]|err'] eqn:Er; [discriminate|].
      destruct (IH _ _ Er) as (m' & Hin & Hc). exists m'. split; [right; exact Hin | exact Hc].
    + destruct (keepFirstSeen ({[s]} ∪ seen) r) as [[k n]|err'] eqn:Er; [discriminate|].
      destruct (IH _ _ Er) as (m' & Hin & Hc). exists m'. split; [right; exact Hin | exact Hc].
  - exists m. split; [left; reflexivity|]. unfold createMemorySignature in Es.
    destruct (Memory.content m); [discriminate | reflexivity].
Qed.

Lemma deduplicateMemories_distinct (env : Env) (e : Engine) :
  keepFirstSeen ∅ (memories e) = Ok (memories e, O) ->
  deduplicateMemories env e = (Ok O, e).
Proof.
  intros H. unfold deduplicateMemories. rewrite H. cbn [Nat.ltb Nat.leb].
  rewrite setMemories_same. reflexivity.
Qed.

Lemma keepFirstSeen_place (before after : list Memory.t) (m : Memory.t) (s : string)
    (seen : gset string) (kept : list Memory.t) (duplicates : nat) :
  keepFirstSeen seen (before ++ m :: after) = Ok (kept, duplicates) ->
  createMemorySignature m = Ok s ->
  exists keptBefore keptAfter,
    sublist keptBefore before /\ sublist keptAfter after /\
    kept = keptBefore
           ++ (if bool_decide (s ∈ seen) || existsb (hasSignature s) before then [] else [m])
           ++ keptAfter.
Proof.
  revert seen kept duplicates.
  induction before as [|x b IH]; intros seen kept duplicates H Es.
  - cbn [app keepFirstSeen] in H. rewrite Es in H. cbn [existsb]. rewrite orb_false_r.
    destruct (bool_decide (s ∈ seen)).
    + destruct (keepFirstSeen seen after) as [[k n]|err] eqn:Er; [|discriminate].
      injection H as <- <-. exists [], k.
      split; [constructor|]. split; [|reflexivity].
      apply (keepFirstSeen_spec _ _ _ _ Er).
    + destruct (keepFirstSeen ({[s]} ∪ seen) after) as [[k n]|err] eqn:Er; [|discriminate].
      injection H as <- <-. exists [], k.
      split; [constructor|]. split; [|reflexivity].
      apply (keepFirstSeen_spec _ _ _ _ Er).
  - change ((x :: b) ++ m :: after) with (x :: (b ++ m :: after)) in H.
    cbn [keepFirstSeen] in H.
    destruct (createMemorySignature x) as [sx|err] eqn:Ex; [|discriminate].
    cbn [existsb]. unfold hasSignature at 1. rewrite Ex.
    destruct (bool_decide (sx ∈ seen)) eqn:Hs.
    + destruct (keepFirstSeen seen (b ++ m :: after)) as [[k n]|err] eqn:Er; [|discriminate].
      injection H as <- <-.
      destruct (IH _ _ _ Er Es) as (kb & ka & Hb & Ha & ->).
      exists kb, ka. split; [apply sublist_cons; exact Hb|]. split; [exact Ha|].
      do 2 f_equal.
      destruct (String.eqb sx s) eqn:E; [|reflexivity].
      apply String.eqb_eq in E. subst sx. rewrite Hs. reflexivity.
    + destruct (keepFirstSeen ({[sx]} ∪ seen) (b ++ m :: after)) as [[k n]|err] eqn:Er;
        [|discriminate].
      injection H as <- <-.
      destruct (IH _ _ _ Er Es) as (kb & ka & Hb & Ha & ->).
      exists (x :: kb), ka. split; [apply sublist_skip; exact Hb|]. split; [exact Ha|].
      cbn [app]. do 3 f_equal.
      destruct (String.eqb sx s) eqn:E.
      * apply String.eqb_eq in E. subst sx.
        rewrite bool_decide_eq_true_2, orb_true_r; [reflexivity|].
        apply elem_of_union. left. apply elem_of_singleton. reflexivity.
      * apply String.eqb_neq in E. cbn [orb].
        rewrite (bool_decide_ext (s ∈ {[sx]} ∪ seen) (s ∈ seen)); [reflexivity|].
        rewrite elem_of_union, elem_of_singleton.
        split; [intros [H|H]; [congruence | exact H] | intros H; right; exact H].
Qed.

Lemma sublist_same_length {A : Type} (l k : list A) :
  sublist k l -> length k = length l -> k = l.
Proof.
  induction 1 as [|x k l _ IH|x k l Hs _]; cbn [length]; intros Hlen.
  - reflexivity.
  - f_equal. apply IH. lia.
  - apply sublist_length in Hs. lia.
Qed.

(** The bulk deduplication keeps, in their order, the first record of
    every signature and removes every later record of that signature:
    a stored record stays, at its place among the records kept, exactly
    when no record before it has its signature.  Afterwards no two
    stored records have the same signature, every signature that was
    stored still is, and the number returned is the number of records
    removed; when it is 0 the engine is left as it was, otherwise the
    search cache is emptied; a second run removes nothing.  When a
    stored record has no content the run throws and the engine is left
    as it was. *)
Theorem deduplicateMemories_keeps_first_of_each (env : Env) (e : Engine) :
  match deduplicateMemories env e with
  | (Ok removed, e') =>
      (forall before m after,
          memories e = before ++ m :: after ->
          exists s keptBefore keptAfter,
            createMemorySignature m = Ok s /\
            sublist keptBefore before /\ sublist keptAfter after /\
            memories e' = keptBefore
                          ++ (if existsb (hasSignature s) before then [] else [m])
                          ++ keptAfter) /\
      (removed + length (memories e') = length (memories e))%nat /\
      sublist (memories e') (memories e) /\
      List.NoDup (map createMemorySignature (memories e')) /\
      (forall m, In m (memories e) ->
                 In (createMemorySignature m) (map createMemorySignature (memories e'))) /\
      (removed = O -> e' = e) /\
      (removed <> O -> searchCache e' = ∅) /\
      deduplicateMemories env e' = (Ok O, e')
  | (Throw _, e') =>
      e' = e /\ exists m, In m (memories e) /\ Memory.content m = None
  end.
Proof.
  unfold deduplicateMemories at 1.
  destruct (keepFirstSeen ∅ (memories e)) as [[kept duplicates]|err] eqn:K.
  - destruct (keepFirstSeen_spec _ _ _ _ K) as (Hlen & Hsub & Hnd & Hkept & Hall).
    cbv zeta.
    set (e' := if (0 <? duplicates)%nat
               then persist env (clearSearchCache (setMemories e kept))
               else setMemories e kept).
    assert (Hm : memories e' = kept).
    { unfold e'. destruct (0 <? duplicates)%nat; [rewrite memories_persist|]; reflexivity. }
    assert (Hres : (if (0 <? duplicates)%nat
                    then (Ok duplicates, persist env (clearSearchCache (setMemories e kept)))
                    else (Ok duplicates, setMemories e kept)) = (Ok duplicates, e')).
    { unfold e'. destruct (0 <? duplicates)%nat; reflexivity. }
    rewrite Hres. rewrite Hm. split; [|repeat split; try assumption].
    + intros before m after Hl. rewrite Hl in K.
      destruct (Hall m) as (s & Es & _); [rewrite Hl; apply in_elt|].
      destruct (keepFirstSeen_place _ _ _ _ _ _ _ K Es) as (kb & ka & Hb & Ha & Hk).
      exists s, kb, ka. split; [exact Es|]. split; [exact Hb|]. split; [exact Ha|].
      rewrite Hk. rewrite bool_decide_eq_false_2 by apply not_elem_of_empty. reflexivity.
    + intros m Hin. destruct (Hall m Hin) as (s & Es & [Hs|Hs]).
      * exfalso. exact (not_elem_of_empty (C:=gset string) s Hs).
      * rewrite Es. exact Hs.
    + intros ->. unfold e'. cbn [Nat.ltb Nat.leb].
      rewrite (sublist_same_length _ _ Hsub) by (cbn [Nat.add] in Hlen; exact Hlen).
      apply setMemories_same.
    + intros Hd. unfold e'. destruct duplicates as [|n]; [contradiction|].
      cbn [Nat.ltb Nat.leb]. rewrite searchCache_persist. reflexivity.
    + apply deduplicateMemories_distinct. rewrite Hm.
      apply keepFirstSeen_distinct; [exact Hnd|]. intros m Hin.
      destruct (Hkept m Hin) as (s & Es & _). exists s. split; [exact Es|].
      apply not_elem_of_empty.
  - split; [reflexivity|]. eapply keepFirstSeen_Throw. exact K.
Qed.

Example createMemorySignature_example :
  createMemorySignature
    {| Memory.id := None; Memory.content := Some "  Close   THE
 file "; Memory.timestamp := None;
       Memory.source := Some "chat.example"; Memory.url := None;
       Memory.conversationId := None; Memory.category := None; Memory.summary := None;
       Memory.tags := None; Memory.lastUpdated := None; Memory.type := None;
       Memory.platform := None; Memory.conversation_url := None |}
  = Ok "chat.example:close the file" /\
  createMemorySignature (withContent "Close the file") = Ok "undefined:close the file".
Proof. split; vm_compute; reflexivity. Qed.

(** ** Updating *)

Lemma findWithIndex_split {A : Type} (p : A -> bool) (l : list A) (i : nat) (x y : A) :
  findWithIndex p l = Some (i, x) ->
  exists before after,
    l = before ++ x :: after /\ p x = true /\
    Forall (fun z => p z = false) before /\
    <[i := y]> l = before ++ y :: after.
Proof.
  revert i. induction l as [|z r IH]; intros i H; cbn [findWithIndex] in H; [discriminate|].
  destruct (p z) eqn:Pz.
  - injection H as <- <-. exists [], r. repeat split; [exact Pz | constructor].
  - destruct (findWithIndex p r) as [[j w]|] eqn:F; [|discriminate].
    cbn in H. injection H as <- <-.
    destruct (IH j eq_refl) as (before & after & -> & Px & Hb & Hi).
    exists (z :: before), after.
    split; [reflexivity|]. split; [exact Px|]. split; [constructor; assumption|].
    change (z :: <[j := y]> (before ++ w :: after) = z :: (before ++ y :: after)).
    rewrite Hi. reflexivity.
Qed.

Lemma findWithIndex_None {A : Type} (p : A -> bool) (l : list A) :
  findWithIndex p l = None -> Forall (fun x => p x = false) l.
Proof.
  induction l as [|x r IH]; cbn [findWithIndex]; intros H; [constructor|].
  destruct (p x) eqn:Px; [discriminate|].
  destruct (findWithIndex p r) as [[j w]|]; [discriminate|].
  constructor; auto.
Qed.

(** [updateMemory] changes the first record that has the given id and
    no other: the record takes the values of the keys of [updates],
    keeps its other fields, and gets the time of the call as
    [lastUpdated]; the number and the order of the records stay, and the
    search cache is emptied.  Without a record of that id it returns
    [null] and leaves the engine as it was. *)
Theorem updateMemory_changes_first_match
    (env : Env) (id : option JsKey) (updates : Updates) (e : Engine) :
  match updateMemory env id updates e with
  | (Some updated, e') =>
      exists before memory after,
        memories e = before ++ memory :: after /\
        Memory.id memory = id /\
        Forall (fun x => Memory.id x <> id) before /\
        updated = applyUpdates env memory updates /\
        Memory.lastUpdated updated = Some (now env) /\
        memories e' = before ++ updated :: after /\
        searchCache e' = ∅
  | (None, e') =>
      Forall (fun x => Memory.id x <> id) (memories e) /\ e' = e
  end.
Proof.
  unfold updateMemory.
  destruct (findWithIndex _ (memories e)) as [[i memory]|] eqn:F.
  - cbv zeta.
    destruct (findWithIndex_split _ _ _ _ (applyUpdates env memory updates) F)
      as (before & after & Hl & Hm & Hb & Hi).
    exists before, memory, after. rewrite memories_persist, searchCache_persist.
    cbn [memories setMemories clearSearchCache setSearchCache searchCache].
    repeat split; try assumption.
    + apply bool_decide_eq_true in Hm. exact Hm.
    + eapply Forall_impl; [exact Hb|]. intros x Hx.
      apply bool_decide_eq_false in Hx. exact Hx.
  - apply findWithIndex_None in F. split; [|reflexivity].
    eapply Forall_impl; [exact F|]. intros x Hx.
    apply bool_decide_eq_false in Hx. exact Hx.
Qed.

(** ** Filters and pages *)

Lemma filter_filter_list {A : Type} (p q : A -> bool) (l : list A) :
  List.filter p (List.filter q l) = List.filter (fun x => q x && p x) l.
Proof.
  induction l as [|x r IH]; cbn [List.filter]; [reflexivity|].
  destruct (q x); cbn [List.filter andb]; [destruct (p x)|]; rewrite IH; reflexivity.
Qed.

Lemma filter_true_list {A : Type} (l : list A) : List.filter (fun _ => true) l = l.
Proof. apply filter_all. apply List.Forall_forall. reflexivity. Qed.

Lemma filterResult_Ok {A : Type} (test : A -> Result bool) (l kept : list A) :
  filterResult test l = Ok kept ->
  kept = List.filter (fun x => match test x with Ok b => b | Throw _ => false end) l.
Proof.
  revert kept. induction l as [|x r IH]; intros kept H; cbn [filterResult] in H.
  - injection H as <-. reflexivity.
  - cbn [List.filter]. destruct (test x) as [b|err]; [|discriminate].
    destruct (filterResult test r) as [k|err]; [|discriminate].
    injection H as <-. rewrite (IH k eq_refl). reflexivity.
Qed.

(** The five filters keep the records that pass every active filter,
    in their order. *)
Lemma applyFilters_Ok (filters : Filters.t) (l kept : list Memory.t) :
  applyFilters filters l = Ok kept -> kept = List.filter (passes filters) l.
Proof.
  unfold applyFilters. cbv zeta. intros H.
  set (l1 := match activeString (Filters.category filters) with
             | Some c => List.filter (inCategory c) l
             | None => l
             end) in *.
  assert (H1 : l1 = List.filter (passesCategory filters) l).
  { unfold l1, passesCategory. destruct (activeString (Filters.category filters));
      [reflexivity | symmetry; apply filter_true_list]. }
  destruct (match activeString (Filters.platform filters) with
            | Some p => filterResult (onPlatform p) l1
            | None => Ok l1
            end) as [l2|err] eqn:E2; [|discriminate].
  assert (H2 : l2 = List.filter (passesPlatform filters) l1).
  { unfold passesPlatform. destruct (activeString (Filters.platform filters)) as [p|].
    - apply filterResult_Ok in E2. rewrite E2. apply List.filter_ext. intros m.
      unfold onPlatform. destruct (Memory.source m); reflexivity.
    - injection E2 as <-. symmetry. apply filter_true_list. }
  injection H as <-.
  unfold passes. rewrite <- !filter_filter_list, <- H1, <- H2.
  unfold passesTags, passesDates.
  destruct (activeTags (Filters.tags filters)); [|rewrite filter_true_list];
    rewrite <- filter_filter_list;
    (destruct (activeNumber (Filters.dateTo filters)); [|rewrite filter_true_list]);
    (destruct (activeNumber (Filters.dateFrom filters)); [|rewrite filter_true_list]);
    reflexivity.
Qed.

Lemma ceilDiv_covers (a : nat) (b : Z) :
  (0 < b)%Z ->
  exists n, ceilDiv a b = Fin (Z.of_nat n) /\ (Z.of_nat a <= Z.of_nat n * b)%Z /\
            (forall k, (Z.of_nat a <= Z.of_nat k * b)%Z -> (n <= k)%nat).
Proof.
  intros Hb. unfold ceilDiv. destruct (b =? 0)%Z eqn:E; [apply Z.eqb_eq in E; lia|].
  pose proof (Z.div_mod (- Z.of_nat a) b ltac:(lia)) as D.
  pose proof (Z.mod_pos_bound (- Z.of_nat a) b Hb) as M.
  exists (Z.to_nat (- (- Z.of_nat a / b))).
  assert (Hq : (0 <= - (- Z.of_nat a / b))%Z) by nia.
  rewrite Z2Nat.id by exact Hq.
  split; [reflexivity|]. split; [nia|]. intros k Hk. nia.
Qed.

(** The pages of [getMemoriesPage] cover the filtered records: on an
    initialized engine with a positive page size, every page reports as
    total the number of stored records that pass the filters, and the
    pages from 0 up to the reported number of pages, put one after the
    other, are exactly those records, in their stored order. *)
Theorem pages_cover_filtered_records
    (env : Env) (filters : Filters.t) (e : Engine) (kept : list Memory.t) :
  initialized e = true ->
  (0 < pageSize e)%Z ->
  applyFilters filters (memories e) = Ok kept ->
  kept = List.filter (passes filters) (memories e) /\
  exists n,
    (forall page, exists p,
        getMemoriesPage env page filters e = (Ok p, e) /\
        Page.total p = length kept /\
        Page.totalPages p = Fin (Z.of_nat n)) /\
    concat (map (fun page => pageOf env (Z.of_nat page) filters e) (seq 0 n)) = kept.
Proof.
  intros Hi Hps Hk. split; [apply applyFilters_Ok; exact Hk|].
  destruct (ceilDiv_covers (length kept) (pageSize e) Hps) as (n & Hn & Hcover & _).
  exists n. split.
  - intros page. unfold getMemoriesPage. rewrite (init_initialized _ _ Hi). cbv zeta.
    rewrite Hk. eexists. split; [reflexivity|]. split; [reflexivity | exact Hn].
  - assert (Hpage : forall page, pageOf env (Z.of_nat page) filters e
                                 = firstn (Z.to_nat (pageSize e))
                                          (skipn (page * Z.to_nat (pageSize e)) kept)).
    { intros page. unfold pageOf, getMemoriesPage. rewrite (init_initialized _ _ Hi).
      cbv zeta. rewrite Hk. cbn [fst Page.memories].
      rewrite slice_nonneg by nia. f_equal; [nia|]. f_equal. nia. }
    rewrite (map_ext _ _ Hpage), pages_concat.
    apply firstn_all2. nia.
Qed.

Lemma pages_cover_filtered_records_witness :
  map numbered (seq 0 10) = List.filter (passes noFilters) (memories tenRecords) /\
  exists n,
    (forall page, exists p,
        getMemoriesPage chatEnv page noFilters tenRecords = (Ok p, tenRecords) /\
        Page.total p = length (map numbered (seq 0 10)) /\
        Page.totalPages p = Fin (Z.of_nat n)) /\
    concat (map (fun page => pageOf chatEnv (Z.of_nat page) noFilters tenRecords) (seq 0 n))
    = map numbered (seq 0 10).
Proof.
  apply pages_cover_filtered_records; [reflexivity | reflexivity | vm_compute; reflexivity].
Defined.

(** ** Search with filters *)

Lemma insertWhere_Permutation {A : Type} (positive : A -> A -> bool) (x : A) (l : list A) :
  Permutation (insertWhere positive x l) (x :: l).
Proof.
  induction l as [|y r IH]; cbn [insertWhere]; [reflexivity|].
  destruct (positive x y); [|reflexivity].
  rewrite IH. apply perm_swap.
Qed.

Lemma sortWhere_Permutation {A : Type} (positive : A -> A -> bool) (l : list A) :
  Permutation (sortWhere positive l) l.
Proof.
  unfold sortWhere. induction l as [|x r IH]; cbn [fold_right]; [reflexivity|].
  rewrite insertWhere_Permutation, IH. reflexivity.
Qed.

Lemma applyFilters_inactive (filters : Filters.t) (l : list Memory.t) :
  anyActive filters = false -> applyFilters filters l = Ok l.
Proof.
  unfold anyActive, applyFilters. cbv zeta.
  destruct (activeString (Filters.category filters)); [discriminate|].
  destruct (activeString (Filters.platform filters)); [discriminate|].
  destruct (activeNumber (Filters.dateFrom filters)); [discriminate|].
  destruct (activeNumber (Filters.dateTo filters)); [discriminate|].
  destruct (activeTags (Filters.tags filters)); [discriminate|].
  reflexivity.
Qed.

Lemma isOlder_timestamps (a b : Memory.t) :
  isOlder a b = true ->
  exists ta tb, Memory.timestamp a = Some ta /\ Memory.timestamp b = Some tb /\ (ta < tb)%Z.
Proof.
  unfold isOlder, byDateDescending.
  destruct (Memory.timestamp a) as [ta|], (Memory.timestamp b) as [tb|];
    cbn [isPositive]; try discriminate.
  intros H. apply Z.ltb_lt in H. exists ta, tb. repeat split; lia.
Qed.

Lemma insertWhere_stable (t : Z) (x : Memory.t) (l : list Memory.t) :
  List.filter (timestamped t) (insertWhere isOlder x l)
  = List.filter (timestamped t) (x :: l).
Proof.
  induction l as [|y r IH]; cbn [insertWhere]; [reflexivity|].
  destruct (isOlder x y) eqn:E; [|reflexivity].
  apply isOlder_timestamps in E as (tx & ty & Hx & Hy & Hlt).
  cbn [List.filter] in IH |- *. rewrite IH. unfold timestamped. rewrite Hx, Hy.
  destruct (bool_decide (Some ty = Some t)) eqn:Ey; [|reflexivity].
  apply bool_decide_eq_true in Ey. injection Ey as <-.
  rewrite bool_decide_eq_false_2; [reflexivity|]. intros [= ->]. lia.
Qed.

Lemma sortWhere_stable (t : Z) (l : list Memory.t) :
  List.filter (timestamped t) (sortWhere isOlder l) = List.filter (timestamped t) l.
Proof.
  unfold sortWhere. induction l as [|x r IH]; cbn [fold_right]; [reflexivity|].
  rewrite insertWhere_stable. cbn [List.filter]. rewrite IH. reflexivity.
Qed.

Lemma notOlder_trans (a b c : Memory.t) : notOlder a b -> notOlder b c -> notOlder a c.
Proof.
  unfold notOlder.
  destruct (Memory.timestamp a), (Memory.timestamp b), (Memory.timestamp c); try tauto. lia.
Qed.

Lemma insertWhere_sorted (x : Memory.t) (l : list Memory.t) :
  hasTimestamp x = true ->
  Forall (fun m => hasTimestamp m = true) l ->
  StronglySorted notOlder l ->
  StronglySorted notOlder (insertWhere isOlder x l).
Proof.
  intros Hx Hl Hs. induction Hs as [|y r Hr IH Hy]; cbn [insertWhere].
  - repeat constructor.
  - apply List.Forall_cons_iff in Hl as [Hy' Hl].
    assert (Hxy : if isOlder x y then notOlder y x else notOlder x y).
    { unfold isOlder, byDateDescending, notOlder, hasTimestamp in *.
      destruct (Memory.timestamp x), (Memory.timestamp y); try discriminate.
      cbn [isPositive]. destruct (0 <? _)%Z eqn:E;
        [apply Z.ltb_lt in E | apply Z.ltb_ge in E]; lia. }
    destruct (isOlder x y).
    + constructor; [apply IH; exact Hl|].
      eapply Permutation_Forall; [apply Permutation_sym, insertWhere_Permutation|].
      constructor; [exact Hxy | exact Hy].
    + constructor; [constructor; assumption|].
      constructor; [exact Hxy|].
      apply List.Forall_forall. intros z Hz.
      apply (notOlder_trans x y z Hxy).
      exact (proj1 (List.Forall_forall _ _) Hy z Hz).
Qed.

Lemma sortWhere_sorted (l : list Memory.t) :
  Forall (fun m => hasTimestamp m = true) l -> StronglySorted notOlder (sortWhere isOlder l).
Proof.
  unfold sortWhere. induction 1 as [|x r Hx Hr IH]; cbn [fold_right]; [constructor|].
  apply insertWhere_sorted; [exact Hx | | exact IH].
  eapply Permutation_Forall; [apply Permutation_sym, sortWhere_Permutation | exact Hr].
Qed.

(** What [searchMemories] does to the engine: on an initialized engine
    it never changes the stored copy or the search cache.  The engine
    is left as it was when the query is not empty, when some filter is
    active, or when the filters object has no key.  In the remaining
    case (an empty query and keys that all hold falsy values) the date
    sort sorts the engine's own array: the records returned are the
    records the engine holds afterwards; when every record has a
    timestamp they are in descending order of timestamp, records of the
    same timestamp in their earlier order; when a timestamp is missing
    the order is the one the sort of the host leaves.  In every case
    the records in memory are a rearrangement of what they were,
    provided the sort of the host rearranges. *)
Theorem searchMemories_only_reorders
    (env : Env) (query : string) (filters : Filters.t) (e : Engine) :
  initialized e = true ->
  Permutation (arraySort env byDateDescending (memories e)) (memories e) ->
  let e' := snd (searchMemories env query filters e) in
  Permutation (memories e') (memories e) /\
  LocalBrain_data e' = LocalBrain_data e /\
  searchCache e' = searchCache e /\
  (query <> EmptyString \/ anyActive filters = true \/ keyCount filters = 0%nat -> e' = e) /\
  (query = EmptyString -> anyActive filters = false -> keyCount filters <> 0%nat ->
   fst (searchMemories env query filters e)
   = Ok (ResultsOutcome (map Plain (memories e')) (length (memories e'))) /\
   (Forall (fun m => hasTimestamp m = true) (memories e) ->
    StronglySorted notOlder (memories e') /\
    forall t, List.filter (timestamped t) (memories e')
              = List.filter (timestamped t) (memories e)) /\
   (~ Forall (fun m => hasTimestamp m = true) (memories e) ->
    memories e' = arraySort env byDateDescending (memories e))).
Proof.
  intros Hi Hhost. cbv zeta. unfold searchMemories. rewrite (init_initialized _ _ Hi). cbv zeta.
  destruct (String.eqb query EmptyString) eqn:Eq.
  - apply String.eqb_eq in Eq. subst query.
    destruct (keyCount filters =? 0)%nat eqn:Ek; cbn [andb].
    + unfold getMemoriesPage. rewrite (init_initialized _ _ Hi). cbv zeta.
      apply Nat.eqb_eq in Ek.
      destruct (applyFilters filters (memories e)); cbn [snd];
        repeat split; try reflexivity; intros; try reflexivity; congruence.
    + apply Nat.eqb_neq in Ek.
      destruct (anyActive filters) eqn:Ea.
      * destruct (applyFilters filters (memories e)); cbn [snd];
          repeat split; try reflexivity; intros; try reflexivity; congruence.
      * rewrite (applyFilters_inactive _ _ Ea).
        cbn [fst snd setMemories memories LocalBrain_data searchCache].
        assert (Hall : forallb hasTimestamp (memories e) = true <->
                       Forall (fun m => hasTimestamp m = true) (memories e)).
        { rewrite forallb_forall, List.Forall_forall. reflexivity. }
        split.
        { unfold sortByDate. destruct (forallb hasTimestamp (memories e));
            [apply sortWhere_Permutation | exact Hhost]. }
        split; [reflexivity|]. split; [reflexivity|].
        split; [intros [H | [H | H]]; [congruence | discriminate | congruence]|].
        intros _ _ _. split; [reflexivity|]. unfold sortByDate. split.
        -- intros Ht. rewrite (proj2 Hall Ht).
           split; [apply sortWhere_sorted; exact Ht | intros t; apply sortWhere_stable].
        -- intros Ht. destruct (forallb hasTimestamp (memories e)); [|reflexivity].
           exfalso. apply Ht, Hall. reflexivity.
  - cbn [andb].
    destruct (applyFilters filters (List.filter (matchesQuery query) (memories e)));
      cbn [snd]; repeat split; try reflexivity; intros; try reflexivity.
    all: subst query; discriminate.
Qed.

Lemma searchMemories_only_reorders_witness :
  let e' := snd (searchMemories chatEnv EmptyString falsyCategory olderFirst) in
  Permutation (memories e') (memories olderFirst) /\
  LocalBrain_data e' = LocalBrain_data olderFirst /\
  searchCache e' = searchCache olderFirst /\
  (EmptyString <> EmptyString \/ anyActive falsyCategory = true \/
   keyCount falsyCategory = 0%nat -> e' = olderFirst) /\
  (EmptyString = EmptyString -> anyActive falsyCategory = false ->
   keyCount falsyCategory <> 0%nat ->
   fst (searchMemories chatEnv EmptyString falsyCategory olderFirst)
   = Ok (ResultsOutcome (map Plain (memories e')) (length (memories e'))) /\
   (Forall (fun m => hasTimestamp m = true) (memories olderFirst) ->
    StronglySorted notOlder (memories e') /\
    forall t, List.filter (timestamped t) (memories e')
              = List.filter (timestamped t) (memories olderFirst)) /\
   (~ Forall (fun m => hasTimestamp m = true) (memories olderFirst) ->
    memories e' = arraySort chatEnv byDateDescending (memories olderFirst))).
Proof.
  apply (searchMemories_only_reorders chatEnv EmptyString falsyCategory olderFirst);
    [reflexivity | apply perm_swap].
Defined.

(** The date sort does reorder: two notes held older first are held
    newer first after a search with an empty query and a filters object
    whose only key is falsy. *)
Example searchMemories_swaps_two_notes :
  memories olderFirst = [gardenNote; patternNote] /\
  memories (snd (searchMemories chatEnv EmptyString falsyCategory olderFirst))
  = [patternNote; gardenNote].
Proof. split; vm_compute; reflexivity. Qed.

(** The results of a search with a query: on an initialized engine,
    when the query is not empty and the filters do not throw,
    [searchMemories] returns scored records, reports their number as
    the total, leaves the engine as it was, and the records returned
    are, in some order, exactly the stored records that match the text
    filter and pass every active filter: no score threshold is
    applied. *)
Theorem searchMemories_returns_every_match
    (env : Env) (query : string) (filters : Filters.t) (e : Engine)
    (kept : list Memory.t) :
  initialized e = true ->
  query <> EmptyString ->
  applyFilters filters (List.filter (matchesQuery query) (memories e)) = Ok kept ->
  exists scored,
    searchMemories env query filters e
    = (Ok (ResultsOutcome (map Scored scored) (length scored)), e) /\
    Permutation (map doc scored)
                (List.filter (fun m => matchesQuery query m && passes filters m)
                             (memories e)).
Proof.
  intros Hi Hq Hk. unfold searchMemories. rewrite (init_initialized _ _ Hi). cbv zeta.
  destruct (String.eqb query EmptyString) eqn:Eq; [apply String.eqb_eq in Eq; contradiction|].
  cbn [andb]. rewrite Hk.
  eexists. split; [reflexivity|].
  rewrite (Permutation_map doc (sort_Permutation byScoreDescending _)).
  rewrite doc_calculateTFIDFScores.
  apply applyFilters_Ok in Hk. rewrite Hk, filter_filter_list. reflexivity.
Qed.

Lemma searchMemories_returns_every_match_witness :
  exists scored,
    searchMemories chatEnv "tomatoes" noFilters twoNotes
    = (Ok (ResultsOutcome (map Scored scored) (length scored)), twoNotes) /\
    Permutation (map doc scored)
                (List.filter (fun m => matchesQuery "tomatoes" m && passes noFilters m)
                             (memories twoNotes)).
Proof.
  apply (searchMemories_returns_every_match chatEnv "tomatoes" noFilters twoNotes [gardenNote]);
    [reflexivity | discriminate | vm_compute; reflexivity].
Defined.

Lemma includes_empty (s : string) : includes EmptyString s = true.
Proof. destruct s; reflexivity. Qed.

Lemma splitRuns_trailing (d : ascii -> bool) (c : ascii) (q : string) :
  d c = true ->
  (exists pre, splitRuns d true (q +:+ String c EmptyString) = pre ++ [EmptyString]) /\
  (exists t pre, splitRuns d false (q +:+ String c EmptyString) = t :: pre ++ [EmptyString]).
Proof.
  intros Hc. induction q as [|a r [IHt IHf]].
  - rewrite append_nil. cbn [splitRuns]. rewrite Hc. split.
    + exists []. reflexivity.
    + exists EmptyString, []. reflexivity.
  - rewrite append_cons. cbn [splitRuns]. destruct (d a).
    + split; [exact IHt|]. destruct IHt as [pre ->]. exists EmptyString, pre. reflexivity.
    + destruct IHf as (t & pre & ->). split.
      * exists (String a t :: pre). reflexivity.
      * exists (String a t), pre. reflexivity.
Qed.

Lemma toLowerChar_whitespace (c : ascii) :
  isWhiteSpace c = true -> toLowerChar c = c.
Proof. destruct c as [[] [] [] [] [] [] [] []]; vm_compute; congruence. Qed.

Lemma toLowerCase_append (s t : string) :
  toLowerCase (s +:+ t) = toLowerCase s +:+ toLowerCase t.
Proof.
  induction s as [|a r IH]; [rewrite !append_nil; reflexivity|].
  rewrite append_cons. cbn [toLowerCase]. rewrite append_cons, IH. reflexivity.
Qed.

(** A query that starts or ends with white space matches every record:
    the split of such a query holds the empty token, which every text
    includes, so the text filter of [searchMemories] keeps every
    record, whatever the words of the query. *)
Theorem padded_query_matches_every_record (c : ascii) (q : string) (m : Memory.t) :
  isWhiteSpace c = true ->
  matchesQuery (String c q) m = true /\
  matchesQuery (q +:+ String c EmptyString) m = true.
Proof.
  intros Hc. unfold matchesQuery. cbv zeta. split; apply existsb_exists; exists EmptyString.
  - split; [|apply includes_empty].
    cbn [toLowerCase]. rewrite (toLowerChar_whitespace _ Hc).
    unfold split. cbn [splitRuns]. rewrite Hc. left. reflexivity.
  - split; [|apply includes_empty].
    rewrite toLowerCase_append. cbn [toLowerCase]. rewrite (toLowerChar_whitespace _ Hc).
    unfold split.
    destruct (splitRuns_trailing isWhiteSpace c (toLowerCase q) Hc) as [_ (t & pre & ->)].
    right. apply in_or_app. right. left. reflexivity.
Qed.

Lemma padded_query_matches_every_record_witness :
  matchesQuery " kubernetes" gardenNote = true /\
  matchesQuery ("kubernetes" +:+ " ") gardenNote = true.
Proof. apply (padded_query_matches_every_record " " "kubernetes" gardenNote). reflexivity. Defined.

(** ** The platform filter *)

Lemma filterResult_Throw {A : Type} (test : A -> Result bool) (l : list A) :
  (exists err, filterResult test l = Throw err) <->
  (exists x, In x l /\ exists err, test x = Throw err).
Proof.
  induction l as [|x r IH]; cbn [filterResult In].
  - split; [intros [err H]; discriminate | intros (x & [] & _)].
  - destruct (test x) as [keep|err] eqn:Ex.
    + destruct (filterResult test r) as [kept|err] eqn:Er.
      * split; [intros [err H]; discriminate|].
        intros (y & [<-|Hy] & err & Hy'); [congruence|].
        destruct (proj2 IH) as [err' H']; [exists y; eauto | discriminate].
      * split; [|intros _; eauto].
        intros _. destruct (proj1 IH) as (y & Hy & Hy'); [eauto|].
        exists y. split; [right; exact Hy | exact Hy'].
    + split; [|intros _; eauto].
      intros _. exists x. split; [left; reflexivity | eauto].
Qed.

(** The filters throw exactly when the platform filter is active and
    some record that passed the category filter has no source: the
    platform filter reads [includes] of the source of every record that
    reaches it.  The other four filters never throw. *)
Theorem filters_throw_on_missing_source (filters : Filters.t) (l : list Memory.t) :
  (exists err, applyFilters filters l = Throw err) <->
  (exists p m, activeString (Filters.platform filters) = Some p /\
               In m l /\ passesCategory filters m = true /\ Memory.source m = None).
Proof.
  unfold applyFilters, passesCategory. cbv zeta.
  destruct (activeString (Filters.platform filters)) as [p|].
  - set (l1 := match activeString (Filters.category filters) with
               | Some c => List.filter (inCategory c) l
               | None => l
               end).
    assert (Hl1 : forall m, In m l1 <->
                            In m l /\ match activeString (Filters.category filters) with
                                      | Some c => inCategory c m
                                      | None => true
                                      end = true).
    { intros m. unfold l1. destruct (activeString (Filters.category filters)).
      - apply List.filter_In.
      - tauto. }
    split.
    + intros [err H].
      destruct (filterResult (onPlatform p) l1) as [l2|err'] eqn:E; [discriminate|].
      destruct (proj1 (filterResult_Throw (onPlatform p) l1)) as (m & Hm & err'' & Hs);
        [eauto|].
      apply Hl1 in Hm. destruct Hm as [Hm Hc].
      exists p, m. repeat split; try assumption.
      unfold onPlatform in Hs. destruct (Memory.source m); [discriminate | reflexivity].
    + intros (p' & m & Hp & Hm & Hc & Hs).
      destruct (proj2 (filterResult_Throw (onPlatform p) l1)) as [err E].
      { exists m. split; [apply Hl1; split; assumption|].
        unfold onPlatform. rewrite Hs. eauto. }
      rewrite E. eauto.
  - split; [intros [err H]; discriminate | intros (p & m & H & _); discriminate].
Qed.

(** ** Statistics *)

Lemma totalLength_Ok (l : list Memory.t) :
  Forall (fun m => Memory.content m <> None) l ->
  totalLength l = Ok (list_sum (map contentLength l)).
Proof.
  induction 1 as [|m r Hm _ IH]; cbn [totalLength map list_sum]; [reflexivity|].
  unfold contentLength at 1. destruct (Memory.content m); [|contradiction].
  rewrite IH. reflexivity.
Qed.

Lemma totalLength_Throw (l : list Memory.t) (m : Memory.t) :
  In m l -> Memory.content m = None -> exists err, totalLength l = Throw err.
Proof.
  induction l as [|x r IH]; cbn [In totalLength]; [tauto|].
  intros [->|Hin] Hm.
  - rewrite Hm. eauto.
  - destruct (Memory.content x); [|eauto].
    destruct (IH Hin Hm) as [err ->]. eauto.
Qed.

Lemma count_occ_map_filter {A : Type} (key : A -> string) (l : list A) (k : string) :
  count_occ string_dec (map key l) k
  = length (List.filter (fun x => String.eqb (key x) k) l).
Proof.
  induction l as [|x r IH]; cbn [map count_occ List.filter]; [reflexivity|].
  destruct (string_dec (key x) k) as [E|N].
  - rewrite (proj2 (String.eqb_eq _ _) E). cbn [length]. rewrite IH. reflexivity.
  - rewrite (proj2 (String.eqb_neq _ _) N). exact IH.
Qed.

(** The statistics of a store whose records all have a content: on an
    initialized engine [getMemoryStats] returns and leaves the engine as
    it was; under a key that is not a property name of
    [Object.prototype] the category, platform and tag tables hold the
    number of records of that category, of that source, and the number
    of occurrences of that tag (and hold nothing when there is none);
    the average length is the sum of the content lengths over the
    number of records, and over 1 for an empty store. *)
Theorem getMemoryStats_counts (env : Env) (e : Engine) :
  initialized e = true ->
  Forall (fun m => Memory.content m <> None) (memories e) ->
  exists stats,
    getMemoryStats env e = (Ok stats, e) /\
    st_total stats = length (memories e) /\
    st_averageLength stats
    = divSizes (list_sum (map contentLength (memories e)))
               (Nat.max (length (memories e)) 1) /\
    forall k, inherited k = false ->
      st_categories stats !! k
      = ofCount (length (List.filter (fun m => String.eqb (categoryKey m) k) (memories e))) /\
      st_platforms stats !! k
      = ofCount (length (List.filter (fun m => String.eqb (platformKey m) k) (memories e))) /\
      st_tags stats !! k = ofCount (count_occ string_dec (allTags (memories e)) k).
Proof.
  intros Hi Hc. unfold getMemoryStats. rewrite (init_initialized _ _ Hi). cbv zeta.
  rewrite (totalLength_Ok _ Hc). eexists. split; [reflexivity|].
  cbn [st_total st_averageLength st_categories st_platforms st_tags].
  split; [reflexivity|]. split; [reflexivity|].
  intros k Hk.
  rewrite <- !count_occ_map_filter.
  repeat split; apply (lookup_fold_countTerm k _ ∅ 0 Hk); apply lookup_empty.
Qed.

Lemma getMemoryStats_counts_witness :
  exists stats,
    getMemoryStats chatEnv twoNotes = (Ok stats, twoNotes) /\
    st_total stats = length (memories twoNotes) /\
    st_averageLength stats
    = divSizes (list_sum (map contentLength (memories twoNotes)))
               (Nat.max (length (memories twoNotes)) 1) /\
    forall k, inherited k = false ->
      st_categories stats !! k
      = ofCount (length (List.filter (fun m => String.eqb (categoryKey m) k)
                                     (memories twoNotes))) /\
      st_platforms stats !! k
      = ofCount (length (List.filter (fun m => String.eqb (platformKey m) k)
                                     (memories twoNotes))) /\
      st_tags stats !! k = ofCount (count_occ string_dec (allTags (memories twoNotes)) k).
Proof.
  apply getMemoryStats_counts; [reflexivity|].
  repeat constructor; discriminate.
Defined.

(** One record without content is enough for the statistics to fail:
    on an initialized engine that holds such a record (an import accepts
    one) [getMemoryStats] throws, reading the length of a content that
    is [undefined], and leaves the engine as it was. *)
Theorem getMemoryStats_throws_without_content (env : Env) (e : Engine) (m : Memory.t) :
  initialized e = true ->
  In m (memories e) ->
  Memory.content m = None ->
  exists err, getMemoryStats env e = (Throw err, e).
Proof.
  intros Hi Hin Hm. unfold getMemoryStats. rewrite (init_initialized _ _ Hi). cbv zeta.
  destruct (totalLength_Throw _ _ Hin Hm) as [err ->]. eauto.
Qed.

Lemma getMemoryStats_throws_without_content_witness :
  exists err,
    getMemoryStats chatEnv (engineWith [gardenNote; emptyObject])
    = (Throw err, engineWith [gardenNote; emptyObject]).
Proof.
  apply (getMemoryStats_throws_without_content chatEnv _ emptyObject);
    [reflexivity | right; left; reflexivity | reflexivity].
Defined.

(** ** Deleting and clearing before the store is loaded *)

(** [deleteMemory] does not load the store first: called on an engine
    that was just constructed, with a storage area that accepts the
    write, it overwrites whatever was stored with the empty list, so the
    next load finds no record.  [deleteMemoryById] in the same state
    finds nothing, returns [false] and leaves the storage area alone. *)
Theorem deleteMemory_before_load_empties_storage
    (env env' : Env) (id : option JsKey) (stored : option (list Memory.t)) :
  storageWriteOk env = true ->
  LocalBrain_data (deleteMemory env id (newEngine stored)) = Some [] /\
  memories (init env' (deleteMemory env id (newEngine stored))) = [] /\
  deleteMemoryById env id (newEngine stored) = (false, newEngine stored).
Proof.
  intros Hw. unfold deleteMemory, persist. rewrite Hw.
  cbn [newEngine setMemories clearSearchCache setSearchCache memories List.filter
       LocalBrain_data].
  split; [reflexivity|]. split; [|reflexivity].
  unfold init. cbn [initialized LocalBrain_data].
  destruct (storageReadOk env'); [|reflexivity].
  reflexivity.
Qed.

Lemma deleteMemory_before_load_empties_storage_witness :
  LocalBrain_data (deleteMemory chatEnv (Memory.id gardenNote)
                                (newEngine (Some [patternNote; gardenNote]))) = Some [] /\
  memories (init chatEnv (deleteMemory chatEnv (Memory.id gardenNote)
                                       (newEngine (Some [patternNote; gardenNote])))) = [] /\
  deleteMemoryById chatEnv (Memory.id gardenNote) (newEngine (Some [patternNote; gardenNote]))
  = (false, newEngine (Some [patternNote; gardenNote])).
Proof. apply deleteMemory_before_load_empties_storage. reflexivity. Defined.

(** After [clearAllMemories] nothing is found: when the engine was
    initialized, or the storage area accepted the write, every later
    search returns no result, whatever the query, the limit and the
    page, and the statistics report an empty store. *)
Theorem nothing_is_found_after_clearAllMemories
    (env env' : Env) (query : string) (limit page : Z) (e : Engine) :
  initialized e = true \/ storageWriteOk env = true ->
  fst (getRelevantMemories env' query limit page (clearAllMemories env e)) = [] /\
  memories (init env' (clearAllMemories env e)) = [].
Proof.
  intros H.
  assert (Hm : memories (init env' (clearAllMemories env e)) = []).
  { unfold clearAllMemories, init. rewrite initialized_persist.
    cbn [clearSearchCache setSearchCache setMemories initialized].
    destruct (initialized e) eqn:Hi.
    - rewrite memories_persist. reflexivity.
    - destruct H as [H|Hw]; [discriminate|].
      unfold persist. rewrite Hw. cbn [LocalBrain_data memories].
      destruct (storageReadOk env'); reflexivity. }
  split; [|exact Hm].
  assert (Hc : searchCache (init env' (clearAllMemories env e)) = ∅).
  { unfold clearAllMemories, init. rewrite initialized_persist.
    cbn [clearSearchCache setSearchCache setMemories initialized].
    destruct (initialized e) eqn:Hi.
    - rewrite searchCache_persist. reflexivity.
    - destruct H as [H|Hw]; [discriminate|].
      unfold persist. rewrite Hw. cbn [LocalBrain_data memories].
      destruct (storageReadOk env'); reflexivity. }
  unfold getRelevantMemories. cbv zeta.
  destruct (_ || _).
  - cbn [fst]. rewrite Hm, slice_nil. reflexivity.
  - rewrite Hc, lookup_empty. unfold searchAndCache. cbv zeta. cbn [fst].
    rewrite Hm. unfold rankedResults. cbv zeta.
    cbn [calculateTFIDFScores List.filter sort fold_right]. rewrite slice_nil. reflexivity.
Qed.

Lemma nothing_is_found_after_clearAllMemories_witness :
  fst (getRelevantMemories (later 1000 chatEnv) containersQuery 5 0
                           (clearAllMemories chatEnv twoAnswers)) = [] /\
  memories (init (later 1000 chatEnv) (clearAllMemories chatEnv twoAnswers)) = [].
Proof. apply nothing_is_found_after_clearAllMemories. left. reflexivity. Defined.

(** ** The range of the scores *)

(** The scores of a search are never negative and never infinite: when
    a term of the query names a property of [Object.prototype] every
    record scores [NaN], and otherwise every record scores a finite
    number that is not negative. *)
Theorem scores_are_finite_or_NaN (query : string) (memories : list Memory.t) :
  if existsb inherited (preprocessText query)
  then Forall (fun d => score d = NaN) (calculateTFIDFScores query memories)
  else Forall (fun d => exists s, (0 <= s)%R /\ score d = Fin s)
              (calculateTFIDFScores query memories).
Proof.
  pose proof (score_calculateTFIDFScores query memories) as Hs.
  assert (H : forall P : Number R -> Prop,
             (forall docTerms allDocuments,
                 P (calculateDocumentScore (preprocessText query) docTerms allDocuments)) ->
             Forall (fun d => P (score d)) (calculateTFIDFScores query memories)).
  { intros P HP. apply List.Forall_forall. intros d Hd.
    assert (Hin : In (score d) (map score (calculateTFIDFScores query memories)))
      by (apply List.in_map; exact Hd).
    rewrite Hs in Hin. apply List.in_map_iff in Hin as (m & <- & _). apply HP. }
  destruct (existsb inherited (preprocessText query)) eqn:E.
  - apply (H (fun x => x = NaN)). intros docTerms allDocuments.
    pose proof (calculateDocumentScore_cases (preprocessText query) docTerms allDocuments) as D.
    rewrite E in D. exact D.
  - apply (H (fun x => exists s, (0 <= s)%R /\ x = Fin s)). intros docTerms allDocuments.
    pose proof (calculateDocumentScore_cases (preprocessText query) docTerms allDocuments) as D.
    rewrite E in D. exact D.
Qed.
